(** * Piton Python learners: rule extraction and normalisation

    A shallow embedding of [lib.py], [sklearn_learner.py] and
    [wittgenstein_learner.py] (directory [src/Learners/PythonLearners]).

    - Python [str] values are [string]s; [str.replace], [str.startswith]
      and the fragment of [re] the scripts use are written out.
    - A [dict] is an association list in insertion order, because
      [replace_words] applies the entries in iteration order.
    - [print], [sys.exit]/[exit] and uncaught exceptions are threaded
      through a small writer-and-error monad [Py].
    - A pandas data frame is a list of named, typed columns whose cells
      are optional values ([None] stands for NaN / None).
    - The fitted scikit-learn tree is the record of parallel arrays that
      [tree_] exposes; [recurse] walks it by node index. *)

From Stdlib Require Import String Ascii List Bool Arith ZArith QArith Lia.
From Stdlib Require Import DecimalString Qround.
From Stdlib Require DecimalZ.
Import ListNotations.

Local Open Scope string_scope.
Local Open Scope list_scope.

(** Python's [+] on strings. *)
Infix "+++" := String.append (right associativity, at level 60).

(* ===================================================================== *)
(** ** Python strings *)
(* ===================================================================== *)

Module PyStr.

(** [s.startswith(p)]. *)
Definition startswith (s p : string) : bool := String.prefix p s.

(** [old in s]: some suffix of [s] starts with [old]. *)
Fixpoint occurs (old s : string) : bool :=
  String.prefix old s ||
  match s with
  | EmptyString => false
  | String _ s' => occurs old s'
  end.

(** Left-to-right scan of [str.replace] for a non-empty [old]; [skip]
    counts the characters of the occurrence just replaced that are still
    to be stepped over (occurrences do not overlap). *)
Fixpoint replace_from (skip : nat) (old new s : string) : string :=
  match s with
  | EmptyString => EmptyString
  | String c s' =>
      match skip with
      | S k => replace_from k old new s'
      | O =>
          if String.prefix old s
          then new +++ replace_from (String.length old - 1) old new s'
          else String c (replace_from 0 old new s')
      end
  end.

(** With an empty [old], Python inserts [new] before every character and
    at the end. *)
Fixpoint intersperse (new s : string) : string :=
  match s with
  | EmptyString => new
  | String c s' => new +++ String c (intersperse new s')
  end.

(** [s.replace(old, new)]. *)
Definition replace (s old new : string) : string :=
  match old with
  | EmptyString => intersperse new s
  | _ => replace_from 0 old new s
  end.

(** [s[:-1]]. *)
Fixpoint drop_last (s : string) : string :=
  match s with
  | EmptyString => EmptyString
  | String c EmptyString => EmptyString
  | String c s' => String c (drop_last s')
  end.

(** [str(n)] for an [int]. *)
Definition str_int (z : Z) : string := NilZero.string_of_int (Z.to_int z).

End PyStr.

(* ===================================================================== *)
(** ** The fragment of [re] used by the normaliser *)
(* ===================================================================== *)

(** Every pattern of [wittgenstein_learner.py] is a sequence of
    single-character classes, each with a quantifier.  Matching is
    Python's: leftmost, greedy, backtracking. *)

Module Re.

Inductive quant := One | Opt | Star | Plus.

Record item := Item { cls : ascii -> bool; q : quant }.

Definition pattern := list item.

Definition lit (c : ascii) : ascii -> bool := Ascii.eqb c.
Definition not_lit (c : ascii) : ascii -> bool := fun x => negb (Ascii.eqb c x).

(** [\d] on the code points below 256. *)
Definition digit (c : ascii) : bool :=
  let n := nat_of_ascii c in (48 <=? n)%nat && (n <=? 57)%nat.

(** [\s] on the code points below 256 (Python's [str.isspace]). *)
Definition space (c : ascii) : bool :=
  let n := nat_of_ascii c in
  ((9 <=? n)%nat && (n <=? 13)%nat) || ((28 <=? n)%nat && (n <=? 32)%nat)
  || (n =? 133)%nat || (n =? 160)%nat.

Definition cons_match (c : ascii) (r : option (string * string)) :
  option (string * string) :=
  match r with
  | Some (m, rest) => Some (String c m, rest)
  | None => None
  end.

(** Greedy repetition of the class [p], then the continuation [k];
    gives back characters one at a time when [k] fails. *)
Fixpoint star (p : ascii -> bool) (k : string -> option (string * string))
  (s : string) : option (string * string) :=
  match s with
  | String c s' =>
      if p c then
        match star p k s' with
        | Some (m, rest) => Some (String c m, rest)
        | None => k s
        end
      else k s
  | EmptyString => k s
  end.

(** Match [pat] at the start of [s]: the matched text and the rest. *)
Fixpoint match_here (pat : pattern) (s : string) : option (string * string) :=
  match pat with
  | [] => Some (EmptyString, s)
  | Item p One :: pat' =>
      match s with
      | String c s' => if p c then cons_match c (match_here pat' s') else None
      | EmptyString => None
      end
  | Item p Opt :: pat' =>
      match s with
      | String c s' =>
          if p c then
            match match_here pat' s' with
            | Some (m, rest) => Some (String c m, rest)
            | None => match_here pat' s
            end
          else match_here pat' s
      | EmptyString => match_here pat' s
      end
  | Item p Star :: pat' => star p (match_here pat') s
  | Item p Plus :: pat' =>
      match s with
      | String c s' => if p c then cons_match c (star p (match_here pat') s') else None
      | EmptyString => None
      end
  end.

(** [pat.findall(s)] for a pattern without groups: the non-overlapping
    matches, scanning from the left.  After an empty match the scan moves
    one character on, as in Python. *)
Fixpoint findall_from (skip : nat) (pat : pattern) (s : string) : list string :=
  match s with
  | EmptyString =>
      match skip, match_here pat s with
      | O, Some (m, _) => [m]
      | _, _ => []
      end
  | String _ s' =>
      match skip with
      | S k => findall_from k pat s'
      | O =>
          match match_here pat s with
          | Some (m, _) => m :: findall_from (String.length m - 1) pat s'
          | None => findall_from 0 pat s'
          end
      end
  end.

Definition findall (pat : pattern) (s : string) : list string :=
  findall_from 0 pat s.

End Re.

(* ===================================================================== *)
(** ** Effects: standard output, [sys.exit] and uncaught exceptions *)
(* ===================================================================== *)

Inductive exn :=
| IndexError
| KeyError (key : string)
| AttributeError
| TypeError
| RecursionError
| SystemExit (msg : option string).

Inductive res (A : Type) :=
| Ok (a : A)
| Raise (e : exn).
Arguments Ok {A} a.
Arguments Raise {A} e.

(** A computation: the chunks written to standard output (one per
    [print] call, with its line end) and how it stopped. *)
Definition Py (A : Type) : Type := (list string * res A)%type.

Definition ret {A} (a : A) : Py A := ([], Ok a).
Definition raise {A} (e : exn) : Py A := ([], Raise e).

Definition bind {A B} (c : Py A) (k : A -> Py B) : Py B :=
  match c with
  | (out, Ok a) => let '(out', r) := k a in (out ++ out', r)
  | (out, Raise e) => (out, Raise e)
  end.

Declare Scope py_scope.
Delimit Scope py_scope with py.
Notation "x <- c ;; k" := (bind c (fun x => k))
  (at level 61, c at next level, right associativity) : py_scope.
Notation "c ;; k" := (bind c (fun _ => k))
  (at level 61, right associativity) : py_scope.
Local Open Scope py_scope.

(** [print(s)] and [print(s, end="")]. *)
Definition newline : string := String (ascii_of_nat 10) EmptyString.
Definition print (s : string) : Py unit := ([s +++ newline], Ok tt).
Definition print_noend (s : string) : Py unit := ([s], Ok tt).

(** [sys.exit()] and [exit(msg)]. *)
Definition sys_exit {A} : Py A := raise (SystemExit None).
Definition exit_msg {A} (msg : string) : Py A := raise (SystemExit (Some msg)).

(** [l[i]] on a list or array: negative indices count from the end,
    anything out of range raises [IndexError]. *)
Definition py_index {A} (l : list A) (i : Z) : Py A :=
  let n := Z.of_nat (List.length l) in
  let j := if (i <? 0)%Z then (i + n)%Z else i in
  if ((j <? 0)%Z || (n <=? j)%Z)%bool then raise IndexError
  else match nth_error l (Z.to_nat j) with
       | Some a => ret a
       | None => raise IndexError
       end.

(** [l[i] = v]. *)
Fixpoint set_nth {A} (l : list A) (n : nat) (v : A) : list A :=
  match l, n with
  | [], _ => []
  | _ :: l', O => v :: l'
  | x :: l', S n' => x :: set_nth l' n' v
  end.

Definition py_set {A} (l : list A) (i : Z) (v : A) : Py (list A) :=
  let n := Z.of_nat (List.length l) in
  let j := if (i <? 0)%Z then (i + n)%Z else i in
  if ((j <? 0)%Z || (n <=? j)%Z)%bool then raise IndexError
  else ret (set_nth l (Z.to_nat j) v).

(** [for x in l: body], threading the loop-carried value. *)
Fixpoint for_each {A S} (l : list A) (body : A -> S -> Py S) (s : S) : Py S :=
  match l with
  | [] => ret s
  | x :: l' => s' <- body x s ;; for_each l' body s'
  end.

(** [[f(x) for x in l]]. *)
Fixpoint map_py {A B} (f : A -> Py B) (l : list A) : Py (list B) :=
  match l with
  | [] => ret []
  | x :: l' => y <- f x ;; ys <- map_py f l' ;; ret (y :: ys)
  end.

(* ===================================================================== *)
(** ** Dictionaries in insertion order *)
(* ===================================================================== *)

Module Dict.

Definition t (V : Type) := list (string * V).

Fixpoint get {V} (d : t V) (k : string) : option V :=
  match d with
  | [] => None
  | (k', v) :: d' => if String.eqb k' k then Some v else get d' k
  end.

(** [d[k] = v]: an existing key keeps its place, a new one goes last. *)
Fixpoint set {V} (d : t V) (k : string) (v : V) : t V :=
  match d with
  | [] => [(k, v)]
  | (k', v') :: d' =>
      if String.eqb k' k then (k', v) :: d' else (k', v') :: set d' k v
  end.

Definition keys {V} (d : t V) : list string := map fst d.

(** [d[k]] as an expression. *)
Definition lookup {V} (d : t V) (k : string) : Py V :=
  match get d k with
  | Some v => ret v
  | None => raise (KeyError k)
  end.

End Dict.

(* ===================================================================== *)
(** ** [lib.replace_words] and the passes of the rule-list normaliser *)
(* ===================================================================== *)

(** [lib.replace_words(s, words)]: every entry, in iteration order. *)
Fixpoint replace_words (s : string) (words : Dict.t string) : string :=
  match words with
  | [] => s
  | (k, v) :: words' => replace_words (PyStr.replace s k v) words'
  end.

Module Normalizer.

Import Re.

Definition ch (s : string) : ascii :=
  match s with String c _ => c | EmptyString => Ascii.zero end.

Definition eq_sign : ascii := ch "=".

(** [\-?\d+\.?\d*]: an optionally negative decimal number. *)
Definition number : pattern :=
  [ Item (lit (ch "-")) Opt; Item digit Plus; Item (lit (ch ".")) Opt; Item digit Star ].

(** [pRange = r'=\s\-?\d+\.?\d*\-+\d+\.?\d*\)']. *)
Definition pRange : pattern :=
  [ Item (lit (ch "=")) One; Item space One ] ++ number ++
  [ Item (lit (ch "-")) Plus; Item digit Plus; Item (lit (ch ".")) Opt; Item digit Star;
    Item (lit (ch ")")) One ].

(** [p = r'\([^=]*=\s\-?\d+\.?\d*\-+\d+\.?\d*\)']. *)
Definition p : pattern :=
  [ Item (lit (ch "(")) One; Item (not_lit (ch "=")) Star ] ++ pRange.

(** [pAtt = r'\([^=]*=']. *)
Definition pAtt : pattern :=
  [ Item (lit (ch "(")) One; Item (not_lit (ch "=")) Star; Item (lit (ch "=")) One ].

(** [pLrng = r'\-?\d+\.?\d*']. *)
Definition pLrng : pattern := number.

(** [pRrng = r'\-?\d+\.?\d*\)']. *)
Definition pRrng : pattern := number ++ [ Item (lit (ch ")")) One ].

(** The body of [for match in matches:], lines 191-213: the rule with
    this range condition rewritten. *)
Definition split_match (mtch : string) (rule : string) : Py string :=
  att <- py_index (findall pAtt mtch) 0 ;;
  let att := PyStr.drop_last att in
  rng <- py_index (findall pRange mtch) 0 ;;
  lrng <- py_index (findall pLrng rng) 0 ;;
  rrng <- py_index (findall pRrng rng) 0 ;;
  let s := PyStr.replace mtch rng (">= " +++ lrng +++ ") AND " +++ att +++ "<= " +++ rrng) in
  ret (PyStr.replace rule mtch s).

(** The range-splitting pass on one rule, lines 190-214. *)
Definition split_ranges (rule : string) : Py string :=
  for_each (findall p rule) split_match rule.

(** The first pass on one rule, lines 183-184. *)
Definition decode_rule (attribute_decode domain_decode : Dict.t string)
  (rule : string) : string :=
  replace_words (replace_words rule attribute_decode) domain_decode.

(** The adjustment applied while printing, line 219. *)
Definition adjust (rule : string) : string :=
  replace_words rule [("< = ", "<="); ("> = ", ">=")].

(** The three passes on one rule line, in the order the script runs
    them. *)
Definition normalize_rule (attribute_decode domain_decode : Dict.t string)
  (rule : string) : Py string :=
  r <- split_ranges (decode_rule attribute_decode domain_decode rule) ;;
  ret (adjust r).

End Normalizer.

(* ===================================================================== *)
(** ** Data frames *)
(* ===================================================================== *)

(** A present value: a string of an [object] column, or a number, kept
    by the text that prints it (no function here computes with it). *)
Inductive value :=
| Str (s : string)
| Num (text : string).

(** A cell; [None] is a missing value (NaN or None). *)
Definition cell := option value.

Definition value_eqb (a b : value) : bool :=
  match a, b with
  | Str x, Str y => String.eqb x y
  | Num x, Num y => String.eqb x y
  | _, _ => false
  end.

Definition cell_eqb (a b : cell) : bool :=
  match a, b with
  | Some x, Some y => value_eqb x y
  | None, None => true
  | _, _ => false
  end.

Definition notna (c : cell) : bool :=
  match c with Some _ => true | None => false end.

(** A cell used as an operand of a string concatenation. *)
Definition as_str (c : cell) : Py string :=
  match c with
  | Some (Str s) => ret s
  | _ => raise TypeError
  end.

(** A column: its label, [str(dtypes)] and its cells, one per row. *)
Record column := Column { name : string; dtype : string; cells : list cell }.

(** A frame: the row labels and the columns.  The frames of the scripts
    come from a SQL table, so column labels are distinct; [get_column]
    takes the first column with the label. *)
Record DataFrame := Frame { index : list nat; columns : list column }.

Definition names (df : DataFrame) : list string := map name (columns df).

(** Every column has one cell per row. *)
Definition well_formed (df : DataFrame) : Prop :=
  Forall (fun c => List.length (cells c) = List.length (index df)) (columns df).

Fixpoint find_column (cols : list column) (label : string) : option column :=
  match cols with
  | [] => None
  | c :: cols' => if String.eqb (name c) label then Some c else find_column cols' label
  end.

(** [df[label]]. *)
Definition get_column (df : DataFrame) (label : string) : Py column :=
  match find_column (columns df) label with
  | Some c => ret c
  | None => raise (KeyError label)
  end.

(** Keep the entries of [l] whose flag in [mask] is set. *)
Fixpoint filter_by {A} (mask : list bool) (l : list A) : list A :=
  match mask, l with
  | b :: mask', x :: l' => if b then x :: filter_by mask' l' else filter_by mask' l'
  | _, _ => []
  end.

Definition keep_rows (mask : list bool) (df : DataFrame) : DataFrame :=
  Frame (filter_by mask (index df))
        (map (fun c => Column (name c) (dtype c) (filter_by mask (cells c))) (columns df)).

(** Number of non-missing cells of a column. *)
Definition count_notna (c : column) : Z :=
  Z.of_nat (List.length (filter notna (cells c))).

(** [df.dropna(axis='columns', thresh=th)]: the columns with at least
    [th] non-missing cells. *)
Definition dropna_columns (df : DataFrame) (th : Z) : DataFrame :=
  Frame (index df) (filter (fun c => (th <=? count_notna c)%Z) (columns df)).

(** [df.dropna(subset=[label])]: the rows whose cell in that column is
    present. *)
Definition dropna_subset (df : DataFrame) (label : string) : Py DataFrame :=
  c <- get_column df label ;;
  ret (keep_rows (map notna (cells c)) df).

(** [df[label] = values] for a label the frame has: the column is
    replaced where it stands. *)
Definition set_column (df : DataFrame) (label dt : string) (values : list cell) : DataFrame :=
  Frame (index df)
        (map (fun c => if String.eqb (name c) label then Column label dt values else c)
             (columns df)).

(** [df.drop(labels, axis='columns')]: [KeyError] when a label is not a
    column. *)
Fixpoint drop_columns (df : DataFrame) (labels : list string) : Py DataFrame :=
  match labels with
  | [] => ret df
  | l :: labels' =>
      if existsb (String.eqb l) (names df)
      then drop_columns
             (Frame (index df) (filter (fun c => negb (String.eqb (name c) l)) (columns df)))
             labels'
      else raise (KeyError l)
  end.

(** [series.unique()]: the distinct cells in order of first appearance;
    a missing value is one of them. *)
Fixpoint unique_acc (seen : list cell) (l : list cell) : list cell :=
  match l with
  | [] => []
  | x :: l' =>
      if existsb (cell_eqb x) seen then unique_acc seen l'
      else x :: unique_acc (x :: seen) l'
  end.

Definition unique (c : column) : list cell := unique_acc [] (cells c).

(** [series.nunique()]: missing values are not counted. *)
Definition nunique (c : column) : nat := List.length (filter notna (unique c)).

(* ===================================================================== *)
(** ** [lib.py]: class attribute and data conditioning *)
(* ===================================================================== *)

Module Lib.

(** The body of the loop of [object_attrs_to_cat]: the new column is
    [pd.Categorical(df['class'])], whatever [column_name] is. *)
Definition categorical_column (column_name : string) (df : DataFrame) : Py DataFrame :=
  c <- get_column df column_name ;;
  if String.eqb (dtype c) "object" then
    cls <- get_column df "class" ;;
    ret (set_column df column_name "category" (cells cls))
  else ret df.

(** [object_attrs_to_cat(df)]. *)
Definition object_attrs_to_cat (df : DataFrame) : Py DataFrame :=
  for_each (names df) categorical_column df.

(** [get_class_attr(df)]: [df.columns[-2]]. *)
Definition get_class_attr (df : DataFrame) : Py string :=
  py_index (names df) (-2).

(** [is_binary(attr)]. *)
Definition is_binary (attr : column) : bool := (nunique attr <=? 2)%nat.

(** [len(df.index)]. *)
Definition nrows (df : DataFrame) : Z := Z.of_nat (List.length (index df)).

(** [mt.ceil((1-cp)*n)], the float [cp] taken as the exact rational. *)
Definition threshold (cp : Q) (n : Z) : Z := Qceiling ((1 - cp) * inject_Z n).

(** The body of the loop of [clear_numeric_nan]. *)
Definition clear_column (column_name : string) (df : DataFrame) : Py DataFrame :=
  c <- get_column df column_name ;;
  if String.eqb (dtype c) "float64" then
    na_free <- dropna_subset df column_name ;;
    let only_na :=
      filter (fun i => negb (existsb (Nat.eqb i) (index na_free))) (index df) in
    (if negb (List.length only_na =? 0)%nat
     then print (PyStr.str_int (Z.of_nat (List.length only_na)) +++
                 " rows have been removed, NaN value found in numeric attribute: " +++
                 column_name)
     else ret tt) ;;
    ret na_free
  else ret df.

(** [clear_numeric_nan(df)]. *)
Definition clear_numeric_nan (df : DataFrame) : Py DataFrame :=
  df' <- for_each (names df) clear_column df ;;
  print newline ;;
  ret df'.

(** [clean_dataframe(df, cp)]. *)
Definition clean_dataframe (df : DataFrame) (cp : Q) : Py DataFrame :=
  let th := threshold cp (nrows df) in
  print ("removing cols with more than " +++ PyStr.str_int (nrows df - th) +++
         " NaN values" +++ newline) ;;
  let na_free := dropna_columns df th in
  let only_na :=
    filter (fun n => negb (existsb (String.eqb n) (names na_free))) (names df) in
  for_each only_na (fun column_name _ => print (column_name +++ " has been removed")) tt ;;
  print (PyStr.str_int (Z.of_nat (List.length only_na)) +++ " columns have been removed" +++ newline) ;;
  clear_numeric_nan na_free.

(** The body of the loop of [clear_categorical_nan]; its message says
    "numeric attribute" as in the source. *)
Definition clear_categorical_column (column_name : string) (df : DataFrame) : Py DataFrame :=
  c <- get_column df column_name ;;
  if String.eqb (dtype c) "object" then
    na_free <- dropna_subset df column_name ;;
    let only_na :=
      filter (fun i => negb (existsb (Nat.eqb i) (index na_free))) (index df) in
    (if negb (List.length only_na =? 0)%nat
     then print (PyStr.str_int (Z.of_nat (List.length only_na)) +++
                 " rows have been removed, NaN value found in numeric attribute: " +++
                 column_name)
     else ret tt) ;;
    ret na_free
  else ret df.

(** [clear_categorical_nan(df)]. *)
Definition clear_categorical_nan (df : DataFrame) : Py DataFrame :=
  df' <- for_each (names df) clear_categorical_column df ;;
  print newline ;;
  ret df'.

(** [contains_val(df, attr, val)]: the parameter [val] is overwritten
    before it is read, and [attr] is never read. *)
Definition contains_val (df : DataFrame) (attr : string) (val : cell) : Py bool :=
  class_attr <- get_class_attr df ;;
  col <- get_column df class_attr ;;
  let class_values := unique col in
  let val := filter (fun i => cell_eqb i (Some (Str class_attr))) class_values in
  ret (match val with [] => false | _ => true end).

(** [get_negative_class_value(df)]. *)
Definition get_negative_class_value (df : DataFrame) : Py cell :=
  class_attr <- get_class_attr df ;;
  col <- get_column df class_attr ;;
  let class_values := unique col in
  let neg_class_val :=
    filter (fun i => negb (cell_eqb i (Some (Str class_attr)))) class_values in
  py_index neg_class_val 0.

End Lib.

(* ===================================================================== *)
(** ** [lib.tree_to_ruleset] *)
(* ===================================================================== *)

Module TreeExtractor.

Section Extract.

(** A [float64] threshold and the text ["{}".format] prints for it. *)
Variable float64 : Type.
Variable format_float : float64 -> string.

(** The arrays of [decision_tree.tree_], indexed by node; [value] keeps,
    per node, the row of per-class weights of the single output, so that
    [value[node].T[0]] is its first entry. *)
Record Tree := {
  feature : list Z;
  threshold : list float64;
  children_left : list Z;
  children_right : list Z;
  value : list (list Q)
}.

Definition TREE_UNDEFINED : Z := -2.

(** An entry of [features]: [{'name': ..., 'type': ...}]. *)
Record feature_desc := Feature { fname : string; ftype : string }.

(** [domain_decode]: per categorical attribute, the texts that [format]
    prints for the values behind [0] and [1]. *)
Definition domain_table := Dict.t (string * string).

(** [feature_name] and [feature_type], lines 120-127. *)
Definition per_node (proj : feature_desc -> string) (features : list feature_desc)
  (tree_ : Tree) : Py (list string) :=
  map_py (fun i => if (i =? TREE_UNDEFINED)%Z then ret "undefined!"
                   else f <- py_index features i ;; ret (proj f))
         (feature tree_).

(** [l.pop()]. *)
Fixpoint pop {A} (l : list A) : Py (A * list A) :=
  match l with
  | [] => raise IndexError
  | [x] => ret (x, [])
  | x :: l' => r <- pop l' ;; ret (fst r, x :: snd r)
  end.

(** [print_rule(rule)]. *)
Definition print_rule (rule : list cell) : Py unit :=
  r1 <- pop rule ;;
  let consequent := fst r1 in
  r2 <- pop (snd r1) ;;
  let last_antecedent := fst r2 in
  rule_str <- for_each (snd r2)
                (fun antecedent rule_str =>
                   a <- as_str antecedent ;; ret (rule_str +++ a +++ " AND "))
                "" ;;
  la <- as_str last_antecedent ;;
  c <- as_str consequent ;;
  print (rule_str +++ la +++ " => " +++ c).

Variable tree_ : Tree.
Variable feature_name feature_type : list string.
Variable class_attr_domain : list cell.

(** [recurse(node, depth, antecedents, domain_decode)]; [fuel] bounds
    the depth of the Python call stack. *)
Fixpoint recurse (fuel : nat) (node : Z) (depth : Z) (antecedents : list string)
  (domain_decode : domain_table) : Py unit :=
  match fuel with
  | O => raise RecursionError
  | S fuel' =>
      f <- py_index (feature tree_) node ;;
      if negb (f =? TREE_UNDEFINED)%Z then
        name <- py_index feature_name node ;;
        type <- py_index feature_type node ;;
        threshold <- py_index (threshold tree_) node ;;
        if String.eqb type "float64" then
          let left_antecedents :=
            antecedents ++ ["(" +++ name +++ " <= " +++ format_float threshold +++ ")"] in
          l <- py_index (children_left tree_) node ;;
          recurse fuel' l (depth + 1) left_antecedents domain_decode ;;
          let right_antecedents :=
            antecedents ++ ["(" +++ name +++ " > " +++ format_float threshold +++ ")"] in
          r <- py_index (children_right tree_) node ;;
          recurse fuel' r (depth + 1) right_antecedents domain_decode
        else if String.eqb type "int64" then
          d <- Dict.lookup domain_decode name ;;
          let left_antecedents := antecedents ++ ["(" +++ name +++ " = " +++ fst d +++ ")"] in
          l <- py_index (children_left tree_) node ;;
          recurse fuel' l (depth + 1) left_antecedents domain_decode ;;
          d <- Dict.lookup domain_decode name ;;
          let right_antecedents := antecedents ++ ["(" +++ name +++ " = " +++ snd d +++ ")"] in
          r <- py_index (children_right tree_) node ;;
          recurse fuel' r (depth + 1) right_antecedents domain_decode
        else
          exit_msg ("Error: couldn't translate attribute " +++ name +++ " of type " +++
                    type +++ "." +++ newline)
      else
        v <- py_index (value tree_) node ;;
        v0 <- py_index v 0 ;;
        consequent <- (if negb (Qeq_bool v0 0) then py_index class_attr_domain 0
                       else py_index class_attr_domain 1) ;;
        print_rule (map (fun a => Some (Str a)) antecedents ++ [consequent])
  end.

End Extract.

Arguments feature {float64} _.
Arguments threshold {float64} _.
Arguments children_left {float64} _.
Arguments children_right {float64} _.
Arguments value {float64} _.
Arguments per_node {float64} proj features tree_.
Arguments recurse {float64} format_float tree_ feature_name feature_type
  class_attr_domain fuel node depth antecedents domain_decode.

(** [tree_to_ruleset(decision_tree, features, class_attr_domain,
    domain_decode)]. *)
Definition tree_to_ruleset {float64} (format_float : float64 -> string) (fuel : nat)
  (tree_ : Tree float64) (features : list feature_desc) (class_attr_domain : list cell)
  (domain_decode : domain_table) : Py unit :=
  feature_name <- per_node fname features tree_ ;;
  feature_type <- per_node ftype features tree_ ;;
  recurse format_float tree_ feature_name feature_type class_attr_domain
          fuel 0 1 [] domain_decode.

End TreeExtractor.

(* ===================================================================== *)
(** ** The two learner scripts *)
(* ===================================================================== *)

(** [c.startswith(p)] on a cell: only a string has the method. *)
Definition cell_startswith (c : cell) (p : string) : Py bool :=
  match c with
  | Some (Str s) => ret (PyStr.startswith s p)
  | _ => raise AttributeError
  end.

(** The ordering step both scripts share
    ([sklearn_learner.py] 134-137, [wittgenstein_learner.py] 105-108). *)
Definition order_class_attr_domain (class_attr_domain : list cell) : Py (list cell) :=
  c1 <- py_index class_attr_domain 1 ;;
  inverted <- cell_startswith c1 "NO_" ;;
  if inverted then
    temp <- py_index class_attr_domain 0 ;;
    c1 <- py_index class_attr_domain 1 ;;
    d <- py_set class_attr_domain 0 c1 ;;
    py_set d 1 temp
  else ret class_attr_domain.

Module Wittgenstein.

(** Lines 95-108: the binary check and the ordered class domain. *)
Definition class_domain (train : DataFrame) (class_attr : string) : Py (list cell) :=
  col <- get_column train class_attr ;;
  (if negb (Lib.is_binary col)
   then print "Error: class attribute is not binary" ;; sys_exit
   else ret tt) ;;
  order_class_attr_domain (unique col).

(** The token of index [i], line 119. *)
Definition token (i : Z) : string := "X" +++ PyStr.str_int i +++ "X".

(** Lines 116-121: the encoding dictionary and the next free index. *)
Fixpoint encode_from (i : Z) (attributes : list string) (enc : Dict.t string) :
  Dict.t string * Z :=
  match attributes with
  | [] => (enc, i)
  | attribute :: rest => encode_from (i + 1) rest (Dict.set enc attribute (token i))
  end.

Definition attribute_encode (attributes : list string) : Dict.t string * Z :=
  encode_from 0 attributes [].

(** Line 123: [{v: k for k, v in attribute_encode.items()}]. *)
Definition invert (enc : Dict.t string) : Dict.t string :=
  fold_left (fun d kv => Dict.set d (snd kv) (fst kv)) enc [].

(** Lines 123-132: the decoding table, names first and then the entries
    that rewrite the operators. *)
Definition attribute_decode (enc : Dict.t string) (class_attr_domain : list cell) :
  Py (Dict.t string) :=
  let d := invert enc in
  let d := Dict.set d " ^ " ") AND (" in
  let d := Dict.set d "=" " = " in
  c1 <- py_index class_attr_domain 1 ;;
  pos <- as_str c1 ;;
  let d := Dict.set d "V" ("=> " +++ pos +++ newline) in
  let d := Dict.set d "[[" "(" in
  let d := Dict.set d "]]" ")" in
  let d := Dict.set d "[" "(" in
  let d := Dict.set d "]" ")" in
  ret d.

(** Lines 217-223. *)
Definition print_model (rules : list string) (class_attr_domain : list cell) : Py unit :=
  print ("extracted_rule_based_model: [" +++ newline) ;;
  for_each rules (fun rule _ => print_noend (Normalizer.adjust rule)) tt ;;
  c1 <- py_index class_attr_domain 1 ;;
  pos <- as_str c1 ;;
  c0 <- py_index class_attr_domain 0 ;;
  neg <- as_str c0 ;;
  print (" => " +++ pos +++ newline +++ "() => " +++ neg +++ newline +++ newline +++ "]").

Section Script.

(** Lines 134-178, the external learner: it encodes the domains of the
    categorical attributes, fits the classifier named on the command line
    and captures what [out_model()] prints.  It gives the domain decoding
    table and the captured lines. *)
Variable learn :
  string -> DataFrame -> Dict.t string -> Z -> string -> list cell ->
  Py (Dict.t string * list string).

(** Lines 95-223, once the class attribute is chosen. *)
Definition run (class_attr : string) (classifier : string) (train : DataFrame) (th : Q) :
  Py unit :=
  class_attr_domain <- class_domain train class_attr ;;
  train <- drop_columns train ["__ID_piton__"] ;;
  train <- Lib.clean_dataframe train th ;;
  let enc := attribute_encode (names train) in
  attribute_decode <- attribute_decode (fst enc) class_attr_domain ;;
  learned <- learn classifier train (fst enc) (snd enc) class_attr class_attr_domain ;;
  let domain_decode := fst learned in
  let output := snd learned in
  let rules := map (Normalizer.decode_rule attribute_decode domain_decode) output in
  rules <- map_py Normalizer.split_ranges rules ;;
  print_model rules class_attr_domain.

(** The script from line 94 on. *)
Definition main (classifier : string) (train : DataFrame) (th : Q) : Py unit :=
  class_attr <- Lib.get_class_attr train ;;
  run class_attr classifier train th.

End Script.

End Wittgenstein.

Module Sklearn.

Import TreeExtractor.

Section Script.

Variable float64 : Type.
Variable format_float : float64 -> string.

(** Lines 116-126: the categorical attributes turned into 0/1 columns,
    with the table of what 0 and 1 stand for. *)
Variable booleanize : DataFrame -> Py (DataFrame * domain_table).

(** Lines 152-156: the external learner fits the tree. *)
Variable fit : DataFrame -> list bool -> Py (Tree float64).

(** Lines 127-137: the ordered class domain. *)
Definition class_domain (y_train : column) : Py (list cell) :=
  let class_attr_domain := unique y_train in
  (if (List.length class_attr_domain <? 2)%nat
   then print "Error: class attribute domain must have two values" ;; sys_exit
   else ret tt) ;;
  order_class_attr_domain class_attr_domain.

(** Lines 104-168, once the class attribute is chosen; [fuel] is the
    interpreter's recursion limit. *)
Definition run (class_attr : string) (fuel : nat) (classifier : string)
  (train : DataFrame) (th : Q) : Py unit :=
  train <- drop_columns train ["__ID_piton__"] ;;
  train <- Lib.clean_dataframe train th ;;
  X_train <- drop_columns train [class_attr] ;;
  y_train <- get_column train class_attr ;;
  b <- booleanize X_train ;;
  let X_train := fst b in
  let domain_decode := snd b in
  class_attr_domain <- class_domain y_train ;;
  c1 <- py_index class_attr_domain 1 ;;
  let y := map (fun x => cell_eqb x c1) (cells y_train) in
  let features := map (fun c => Feature (name c) (dtype c)) (columns X_train) in
  if String.eqb classifier "CART" then
    clf <- fit X_train y ;;
    print ("extracted_rule_based_model: [" +++ newline) ;;
    tree_to_ruleset format_float fuel clf features class_attr_domain domain_decode ;;
    print (newline +++ "]")
  else
    print "Error: the specified classifier is invalid. Only CART is available at the moment." ;;
    sys_exit.

(** The script from line 101 on. *)
Definition main (fuel : nat) (classifier : string) (train : DataFrame) (th : Q) : Py unit :=
  class_attr <- Lib.get_class_attr train ;;
  run class_attr fuel classifier train th.

End Script.

End Sklearn.

(* ===================================================================== *)
(** ** The tree a node of the arrays stands for *)
(* ===================================================================== *)

Module TreeSpec.

Import TreeExtractor.

Section Shape.

Variable float64 : Type.
Variable format_float : float64 -> string.

(** A fitted binary tree as the design describes it: a leaf exposes its
    vote, an internal node its split feature and threshold. *)
Inductive dtree :=
| DLeaf (vote : Q)
| DNode (name type : string) (thr : float64) (l r : dtree).

Fixpoint leaves (t : dtree) : nat :=
  match t with
  | DLeaf _ => 1
  | DNode _ _ _ l r => leaves l + leaves r
  end.

Fixpoint height (t : dtree) : nat :=
  match t with
  | DLeaf _ => 0
  | DNode _ _ _ l r => S (Nat.max (height l) (height r))
  end.

(** The arrays hold the tree [t] at node [n]. *)
Fixpoint represents (tree_ : Tree float64) (features : list feature_desc)
  (n : Z) (t : dtree) : Prop :=
  match t with
  | DLeaf vote =>
      py_index (feature tree_) n = ret TREE_UNDEFINED /\
      exists rest, py_index (value tree_) n = ret (vote :: rest)
  | DNode name type thr l r =>
      exists f nl nr,
        py_index (feature tree_) n = ret f /\ f <> TREE_UNDEFINED /\
        py_index features f = ret (Feature name type) /\
        py_index (threshold tree_) n = ret thr /\
        py_index (children_left tree_) n = ret nl /\
        py_index (children_right tree_) n = ret nr /\
        represents tree_ features nl l /\ represents tree_ features nr r
  end.

(** Every entry of [tree_.feature] is [TREE_UNDEFINED] or the index of a
    feature descriptor, so that lines 120-127 go through. *)
Definition features_defined (tree_ : Tree float64) (features : list feature_desc) : Prop :=
  Forall (fun i => i = TREE_UNDEFINED \/ exists f, py_index features i = ret f)
         (feature tree_).

(** Every split is on a [float64] attribute, or on an [int64] attribute
    that has an entry in the decoding table. *)
Fixpoint supported (dd : domain_table) (t : dtree) : Prop :=
  match t with
  | DLeaf _ => True
  | DNode name type _ l r =>
      (type = "float64" \/ (type = "int64" /\ exists d, Dict.get dd name = Some d)) /\
      supported dd l /\ supported dd r
  end.

(** The entry of [feature_name] / [feature_type] for the feature index
    [i] of a node. *)
Definition described (proj : feature_desc -> string) (features : list feature_desc)
  (i : Z) : string :=
  if (i =? TREE_UNDEFINED)%Z then "undefined!"
  else match py_index features i with
       | (_, Ok f) => proj f
       | _ => ""
       end.

(** The antecedents of the two branches of a split, as the design gives
    them. *)
Definition left_antecedent (dd : domain_table) (name type : string) (thr : float64) : string :=
  if String.eqb type "float64" then "(" +++ name +++ " <= " +++ format_float thr +++ ")"
  else match Dict.get dd name with
       | Some d => "(" +++ name +++ " = " +++ fst d +++ ")"
       | None => ""
       end.

Definition right_antecedent (dd : domain_table) (name type : string) (thr : float64) : string :=
  if String.eqb type "float64" then "(" +++ name +++ " > " +++ format_float thr +++ ")"
  else match Dict.get dd name with
       | Some d => "(" +++ name +++ " = " +++ snd d +++ ")"
       | None => ""
       end.

(** The leaves in depth-first, left-before-right order, each with the
    antecedents from the root and its vote. *)
Fixpoint leaf_rules (dd : domain_table) (t : dtree) (antecedents : list string) :
  list (list string * Q) :=
  match t with
  | DLeaf vote => [(antecedents, vote)]
  | DNode name type thr l r =>
      leaf_rules dd l (antecedents ++ [left_antecedent dd name type thr]) ++
      leaf_rules dd r (antecedents ++ [right_antecedent dd name type thr])
  end.

(** The consequent of a leaf: vote 0 gives the second class value, any
    other vote the first. *)
Definition consequent_of (neg pos : string) (vote : Q) : string :=
  if Qeq_bool vote 0 then pos else neg.

(** One printed rule line: [ant1 AND ... AND antN => consequent]. *)
Definition rule_line (neg pos : string) (rule : list string * Q) : string :=
  String.concat " AND " (fst rule) +++ " => " +++ consequent_of neg pos (snd rule) +++ newline.

End Shape.

Arguments DLeaf {float64} vote.
Arguments DNode {float64} name type thr l r.
Arguments leaves {float64} t.
Arguments height {float64} t.
Arguments represents {float64} tree_ features n t.
Arguments features_defined {float64} tree_ features.
Arguments supported {float64} dd t.
Arguments left_antecedent {float64} format_float dd name type thr.
Arguments right_antecedent {float64} format_float dd name type thr.
Arguments leaf_rules {float64} format_float dd t antecedents.

End TreeSpec.

(* ===================================================================== *)
(** ** Auxiliary definitions *)
(* ===================================================================== *)

(** What one turn of the loop of [clear_numeric_nan] does to the frame. *)
Definition cleared (label : string) (df : DataFrame) : DataFrame :=
  match find_column (columns df) label with
  | Some c => if String.eqb (dtype c) "float64"
              then keep_rows (map notna (cells c)) df else df
  | None => df
  end.

(** The column [label], when numeric, holds no missing value. *)
Definition clean_at (label : string) (df : DataFrame) : Prop :=
  forall c, find_column (columns df) label = Some c ->
            dtype c = "float64" -> Forall (fun x => notna x = true) (cells c).

(** The antecedents before the last, each followed by [" AND "]. *)
Fixpoint and_prefix (init : list string) : string :=
  match init with
  | [] => ""
  | a :: init' => a +++ " AND " +++ and_prefix init'
  end.


(** Row-wise conjunction of two masks. *)
Fixpoint and_mask (m1 m2 : list bool) : list bool :=
  match m1, m2 with
  | a :: m1', b :: m2' => (a && b) :: and_mask m1' m2'
  | _, _ => []
  end.

(** For [n] rows: the rows in which every column of type [dt] has a
    present cell. *)
Fixpoint rows_mask (dt : string) (cols : list column) (n : nat) : list bool :=
  match cols with
  | [] => repeat true n
  | c :: cols' =>
      if String.eqb (dtype c) dt
      then and_mask (map notna (cells c)) (rows_mask dt cols' n)
      else rows_mask dt cols' n
  end.

(** One turn of the loops of [clear_numeric_nan] ([dt = "float64"]) and
    [clear_categorical_nan] ([dt = "object"]). *)
Definition cleared_for (dt : string) (label : string) (df : DataFrame) : DataFrame :=
  match find_column (columns df) label with
  | Some c => if String.eqb (dtype c) dt
              then keep_rows (map notna (cells c)) df else df
  | None => df
  end.

(** A row is kept when each column of the given type has a value in it. *)
Definition row_complete (dt : string) (cols : list column) (i : nat) : bool :=
  forallb (fun c => negb (String.eqb (dtype c) dt) || notna (nth i (cells c) None)) cols.


(** The walk of [recurse] over a tree reached with the antecedents
    [ants]: what is printed, and the exception that stops it, if any. *)
Fixpoint walk {float64} (format_float : float64 -> string)
  (dd : TreeExtractor.domain_table) (neg pos : string)
  (t : TreeSpec.dtree float64) (ants : list string) : list string * option exn :=
  match t with
  | TreeSpec.DLeaf vote => ([TreeSpec.rule_line neg pos (ants, vote)], None)
  | TreeSpec.DNode name type thr l r =>
      let both :=
        match walk format_float dd neg pos l
                   (ants ++ [TreeSpec.left_antecedent format_float dd name type thr]) with
        | (out, Some e) => (out, Some e)
        | (out, None) =>
            let right :=
              walk format_float dd neg pos r
                   (ants ++ [TreeSpec.right_antecedent format_float dd name type thr]) in
            (out ++ fst right, snd right)
        end in
      if String.eqb type "float64" then both
      else if String.eqb type "int64" then
        match Dict.get dd name with
        | Some _ => both
        | None => ([], Some (KeyError name))
        end
      else ([], Some (SystemExit (Some ("Error: couldn't translate attribute " +++ name +++
                                        " of type " +++ type +++ "." +++ newline))))
  end.

Definition stopped (r : list string * option exn) : Py unit :=
  (fst r, match snd r with None => Ok tt | Some e => Raise e end).

(** The tokens of the positions [i], [i+1], ... *)
Definition tokens_from (i n : nat) : list string :=
  map (fun k => Wittgenstein.token (Z.of_nat k)) (seq i n).


(** Every character of [s] satisfies [p]. *)
Fixpoint all_chars (p : ascii -> bool) (s : string) : bool :=
  match s with
  | EmptyString => true
  | String c s' => p c && all_chars p s'
  end.

(** The entries that lines 126-132 add to the decoding table, for the
    positive class value [pos]. *)
Definition structural_entries (pos : string) : Dict.t string :=
  [(" ^ ", ") AND ("); ("=", " = "); ("V", "=> " +++ pos +++ newline);
   ("[[", "("); ("]]", ")"); ("[", "("); ("]", ")")].

(** The characters a token is made of. *)
Definition token_char (c : ascii) : bool := Ascii.eqb c "X" || Re.digit c.

(** How many characters a quantifier admits. *)
Definition count_ok (q : Re.quant) (n : nat) : Prop :=
  match q with
  | Re.One => n = 1%nat
  | Re.Opt => (n <= 1)%nat
  | Re.Star => True
  | Re.Plus => (1 <= n)%nat
  end.

(** The texts a pattern denotes: one run of characters per item. *)
Fixpoint in_lang (pat : Re.pattern) (m : string) : Prop :=
  match pat with
  | [] => m = ""
  | Re.Item p q :: pat' =>
      exists seg rest,
        m = seg +++ rest /\ all_chars p seg = true /\
        count_ok q (String.length seg) /\ in_lang pat' rest
  end.

(** The characters the patterns of the range pass name. *)
Definition dot : ascii := Normalizer.ch ".".
Definition hyphen : ascii := Normalizer.ch "-".
Definition close_paren : ascii := Normalizer.ch ")".

(** The characters of an unsigned number. *)
Definition digit_or_dot (c : ascii) : bool := Re.digit c || Re.lit dot c.

(** What [object_attrs_to_cat] makes of one column, [cls] being the
    column named [class]. *)
Definition as_category (cls : column) (c : column) : column :=
  if String.eqb (dtype c) "object" then Column (name c) "category" (cells cls) else c.
(* ===================================================================== *)
(** ** Sample inputs *)
(* ===================================================================== *)

Definition one_class_table : DataFrame :=
  Frame [0; 1]%nat
    [ Column "age" "float64" [Some (Num "31.0"); Some (Num "45.0")];
      Column "outcome" "object" [Some (Str "paid"); Some (Str "paid")];
      Column "__ID_piton__" "int64" [Some (Num "1"); Some (Num "2")] ].

Definition sample_attributes : list string := ["age"; "job"; "outcome"].
Definition sample_domain : list cell := [Some (Str "NO_paid"); Some (Str "paid")].
Definition sample_domain_decode : Dict.t string := [("X3X", "clerk"); ("Y3Y", "nurse")].
Definition sample_decode : Dict.t string :=
  [("X0X", "age"); ("X1X", "job"); ("X2X", "outcome");
   (" ^ ", ") AND ("); ("=", " = "); ("V", "=> paid" +++ newline);
   ("[[", "("); ("]]", ")"); ("[", "("); ("]", ")")].


(** Four rows; half of [a] and the other half of [b] are missing. *)
Definition half_missing : DataFrame :=
  Frame [0; 1; 2; 3]%nat
    [ Column "a" "float64" [None; None; Some (Num "1.0"); Some (Num "2.0")];
      Column "b" "object" [Some (Str "u"); Some (Str "v"); None; None] ].

(** The one-split tree of the iris scenario: node 0 splits on
    [sepal_length] at 5.0, node 1 is its left leaf, node 2 its right
    leaf.  Thresholds are kept as the text [format] prints; the leaves
    carry scikit-learn's sentinels. *)
Definition iris_tree : TreeExtractor.Tree string :=
  TreeExtractor.Build_Tree string
    [0; -2; -2]%Z ["5.0"; "-2.0"; "-2.0"] [1; -1; -1]%Z [2; -1; -1]%Z
    [[3 # 1; 3 # 1]; [0 # 1; 3 # 1]; [3 # 1; 0 # 1]].

Definition iris_features : list TreeExtractor.feature_desc :=
  [TreeExtractor.Feature "sepal_length" "float64"].

Definition iris_domain : list cell := [Some (Str "setosa"); Some (Str "versicolor")].

(** The same tree fitted on a boolean column. *)
Definition smoker_features : list TreeExtractor.feature_desc :=
  [TreeExtractor.Feature "smoker" "bool"].

Definition smoker_tree : TreeExtractor.Tree string :=
  TreeExtractor.Build_Tree string
    [0; -2; -2]%Z ["0.5"; "-2.0"; "-2.0"] [1; -1; -1]%Z [2; -1; -1]%Z
    [[3 # 1; 3 # 1]; [0 # 1; 3 # 1]; [3 # 1; 0 # 1]].

Definition smoker_shape : TreeSpec.dtree string :=
  TreeSpec.DNode "smoker" "bool" "0.5" (TreeSpec.DLeaf (0 # 1)) (TreeSpec.DLeaf (3 # 1)).

(** A fitted tree that is a single leaf. *)
Definition stump : TreeExtractor.Tree string :=
  TreeExtractor.Build_Tree string [-2]%Z ["-2.0"] [-1]%Z [-1]%Z [[3 # 1; 3 # 1]].

(** Python's default recursion limit. *)
Definition recursion_limit : nat := 1000.

(** A table with a single column. *)
Definition one_column_table : DataFrame :=
  Frame [0; 1]%nat [ Column "outcome" "object" [Some (Str "paid"); Some (Str "NO_paid")] ].

(** A class attribute with three values. *)
Definition three_class_table : DataFrame :=
  Frame [0; 1; 2]%nat
    [ Column "age" "float64" [Some (Num "31.0"); Some (Num "45.0"); Some (Num "52.0")];
      Column "outcome" "object" [Some (Str "paid"); Some (Str "late"); Some (Str "lost")];
      Column "__ID_piton__" "int64" [Some (Num "1"); Some (Num "2"); Some (Num "3")] ].

(** A table that lacks the identifier column. *)
Definition no_id_table : DataFrame :=
  Frame [0; 1]%nat
    [ Column "age" "float64" [Some (Num "31.0"); Some (Num "45.0")];
      Column "outcome" "object" [Some (Str "paid"); Some (Str "NO_paid")];
      Column "row" "int64" [Some (Num "1"); Some (Num "2")] ].

(** Three rows: [age] misses a value in row 1, [job] in row 2. *)
Definition gappy : DataFrame :=
  Frame [0; 1; 2]%nat
    [ Column "age" "float64" [Some (Num "31.0"); None; Some (Num "52.0")];
      Column "job" "object" [Some (Str "clerk"); Some (Str "nurse"); None] ].

(** A numeric column without any value. *)
Definition hollow : DataFrame :=
  Frame [0; 1]%nat
    [ Column "age" "float64" [None; None];
      Column "job" "object" [Some (Str "clerk"); Some (Str "nurse")] ].


(** A tree with a numeric root whose right child splits on a boolean
    column; nodes 1, 3 and 4 are leaves. *)
Definition mixed_features : list TreeExtractor.feature_desc :=
  [TreeExtractor.Feature "age" "float64"; TreeExtractor.Feature "smoker" "bool"].

Definition mixed_tree : TreeExtractor.Tree string :=
  TreeExtractor.Build_Tree string
    [0; -2; 1; -2; -2]%Z ["40.5"; "-2.0"; "0.5"; "-2.0"; "-2.0"]
    [1; -1; 3; -1; -1]%Z [2; -1; 4; -1; -1]%Z
    [[4 # 1; 4 # 1]; [0 # 1; 2 # 1]; [4 # 1; 2 # 1]; [3 # 1; 0 # 1]; [1 # 1; 2 # 1]].

(** The one-split tree on a column of integers. *)
Definition count_features : list TreeExtractor.feature_desc :=
  [TreeExtractor.Feature "visits" "int64"].

(** Four rows whose class column [outcome] has a single value. *)
Definition sparse_class_table : DataFrame :=
  Frame [0; 1; 2; 3]%nat
    [ Column "age" "float64"
        [Some (Num "31.0"); Some (Num "45.0"); Some (Num "52.0"); Some (Num "28.0")];
      Column "outcome" "object" [Some (Str "paid"); None; None; None];
      Column "__ID_piton__" "int64"
        [Some (Num "1"); Some (Num "2"); Some (Num "3"); Some (Num "4")] ].

(** Three rows with the identifier column and a binary class. *)
Definition loans_table : DataFrame :=
  Frame [0; 1; 2]%nat
    [ Column "age" "float64" [Some (Num "31.0"); Some (Num "45.0"); Some (Num "52.0")];
      Column "outcome" "object" [Some (Str "paid"); Some (Str "NO_paid"); Some (Str "paid")];
      Column "__ID_piton__" "int64" [Some (Num "1"); Some (Num "2"); Some (Num "3")] ].

(** A table with a column named [class] and two categorical attributes. *)
Definition labelled_table : DataFrame :=
  Frame [0; 1]%nat
    [ Column "job" "object" [Some (Str "clerk"); Some (Str "nurse")];
      Column "age" "float64" [Some (Num "31.0"); Some (Num "45.0")];
      Column "class" "object" [Some (Str "paid"); Some (Str "NO_paid")] ].
(* ===================================================================== *)
(** * Properties *)
(* ===================================================================== *)

(** ** The monad *)

Lemma bind_ret {A B} (a : A) (k : A -> Py B) : bind (ret a) k = k a.
Proof. unfold bind, ret. destruct (k a); reflexivity. Qed.

Lemma bind_raise {A B} (e : exn) (k : A -> Py B) : bind (raise e) k = raise e.
Proof. reflexivity. Qed.

Lemma bind_ok {A B} out (a : A) (k : A -> Py B) :
  bind (out, Ok a) k = (out ++ fst (k a), snd (k a)).
Proof. unfold bind. destruct (k a); reflexivity. Qed.

(** ** Indexing *)

Lemma py_index_nth {A} (l : list A) (n : nat) (a : A) :
  nth_error l n = Some a -> py_index l (Z.of_nat n) = ret a.
Proof.
  intro H. unfold py_index.
  assert (Hn : (n < List.length l)%nat) by (apply nth_error_Some; congruence).
  destruct (Z.of_nat n <? 0)%Z eqn:E0; [apply Z.ltb_lt in E0; lia|].
  destruct (Z.of_nat n <? 0)%Z eqn:E1; [discriminate|].
  destruct (Z.of_nat (List.length l) <=? Z.of_nat n)%Z eqn:E2;
    [apply Z.leb_le in E2; lia|].
  simpl. rewrite Nat2Z.id, H. reflexivity.
Qed.

Lemma py_index_short {A} (l : list A) (i : Z) :
  (0 <= i)%Z -> (Z.of_nat (List.length l) <= i)%Z -> py_index l i = raise IndexError.
Proof.
  intros H0 H1. unfold py_index.
  destruct (i <? 0)%Z eqn:E0; [apply Z.ltb_lt in E0; lia|].
  rewrite E0. apply Z.leb_le in H1. rewrite H1. reflexivity.
Qed.

(** ** C10: the class attribute *)

Lemma py_index_second_to_last {A} (l : list A) (a b : A) :
  py_index (l ++ [a; b]) (-2) = ret a.
Proof.
  unfold py_index. rewrite length_app. cbn [List.length].
  replace (-2 <? 0)%Z with true by reflexivity.
  set (n := List.length l).
  replace (-2 + Z.of_nat (n + 2))%Z with (Z.of_nat n) by lia.
  destruct (Z.of_nat n <? 0)%Z eqn:E0; [apply Z.ltb_lt in E0; lia|].
  destruct (Z.of_nat (n + 2) <=? Z.of_nat n)%Z eqn:E1; [apply Z.leb_le in E1; lia|].
  simpl. rewrite Nat2Z.id. unfold n.
  rewrite nth_error_app2 by lia. rewrite Nat.sub_diag. reflexivity.
Qed.


(** ** C6: ordering of the class domain *)

Lemma order_two (x y : string) :
  order_class_attr_domain [Some (Str x); Some (Str y)] =
  ret (if PyStr.startswith y "NO_" then [Some (Str y); Some (Str x)]
       else [Some (Str x); Some (Str y)]).
Proof.
  unfold order_class_attr_domain.
  change (py_index [Some (Str x); Some (Str y)] 1) with (@ret cell (Some (Str y))).
  rewrite bind_ret. unfold cell_startswith. rewrite bind_ret.
  destruct (PyStr.startswith y "NO_"); reflexivity.
Qed.

(** C6.  When exactly one of the two class values starts with ["NO_"],
    the ordering step puts it at index 0 and the other at index 1, in
    whichever order the two were met. *)
Theorem negative_marker_first (a b : string)
  (H : xorb (PyStr.startswith a "NO_") (PyStr.startswith b "NO_") = true) :
  exists neg pos,
    order_class_attr_domain [Some (Str a); Some (Str b)] = ret [Some (Str neg); Some (Str pos)] /\
    order_class_attr_domain [Some (Str b); Some (Str a)] = ret [Some (Str neg); Some (Str pos)] /\
    PyStr.startswith neg "NO_" = true /\ PyStr.startswith pos "NO_" = false /\
    ((neg = a /\ pos = b) \/ (neg = b /\ pos = a)).
Proof.
  destruct (PyStr.startswith a "NO_") eqn:Ea, (PyStr.startswith b "NO_") eqn:Eb;
    try discriminate.
  - exists a, b. rewrite !order_two, Ea, Eb. repeat split; auto.
  - exists b, a. rewrite !order_two, Ea, Eb. repeat split; auto.
Qed.

Lemma negative_marker_first_witness :
  exists neg pos,
    order_class_attr_domain [Some (Str "paid"); Some (Str "NO_default")] =
      ret [Some (Str neg); Some (Str pos)] /\
    order_class_attr_domain [Some (Str "NO_default"); Some (Str "paid")] =
      ret [Some (Str neg); Some (Str pos)] /\
    PyStr.startswith neg "NO_" = true /\ PyStr.startswith pos "NO_" = false /\
    ((neg = "paid" /\ pos = "NO_default") \/ (neg = "NO_default" /\ pos = "paid")).
Proof. apply (negative_marker_first "paid" "NO_default"). reflexivity. Defined.

(** ** C9: a class attribute with fewer than two values *)

Lemma nunique_le_unique (c : column) : (nunique c <= List.length (unique c))%nat.
Proof. unfold nunique. apply filter_length_le. Qed.



(** ** C1: range splitting *)

(** C1.  On [(age = -5.0-10.0)] the range-splitting pass gives
    [(age >= -5.0) AND (age <= -10.0)]: the pattern for the right bound
    takes the separating hyphen as the sign of the bound. *)
Theorem range_split_right_bound_takes_hyphen :
  Normalizer.split_ranges "(age = -5.0-10.0)" = ret "(age >= -5.0) AND (age <= -10.0)" /\
  Re.findall Normalizer.pRrng "= -5.0-10.0)" = ["-10.0)"] /\
  Normalizer.split_ranges "(age = -5.0-10.0)" <> ret "(age >= -5.0) AND (age <= 10.0)".
Proof. repeat split; try reflexivity. discriminate. Qed.

(** ** Strings without a key of the tables *)

Lemma occurs_cons old c s :
  PyStr.occurs old (String c s) = false ->
  String.prefix old (String c s) = false /\ PyStr.occurs old s = false.
Proof. cbn [PyStr.occurs]. intro H. apply orb_false_iff in H. exact H. Qed.

Lemma replace_from_absent old new s :
  PyStr.occurs old s = false -> PyStr.replace_from 0 old new s = s.
Proof.
  induction s as [|c s IH]; intro H; [reflexivity|].
  apply occurs_cons in H. destruct H as [Hp Ho].
  cbn [PyStr.replace_from]. rewrite Hp, IH by exact Ho. reflexivity.
Qed.

Lemma replace_absent s old new :
  PyStr.occurs old s = false -> PyStr.replace s old new = s.
Proof.
  intro H. destruct old as [|a old'].
  - destruct s; discriminate H.
  - unfold PyStr.replace. apply replace_from_absent, H.
Qed.

Lemma replace_words_absent (words : Dict.t string) s :
  (forall k, In k (Dict.keys words) -> PyStr.occurs k s = false) ->
  replace_words s words = s.
Proof.
  induction words as [|[k v] words IH]; intro H; [reflexivity|].
  cbn [replace_words]. rewrite replace_absent by (apply H; left; reflexivity).
  apply IH. intros k' Hk'. apply H. right. exact Hk'.
Qed.

Lemma prefix_nil s : String.prefix "" s = true.
Proof. destruct s; reflexivity. Qed.

Lemma prefix_same c p s : String.prefix (String c p) (String c s) = String.prefix p s.
Proof. cbn [String.prefix]. destruct (ascii_dec c c); [reflexivity|congruence]. Qed.

Lemma prefix_diff a c p s : a <> c -> String.prefix (String a p) (String c s) = false.
Proof. intro H. cbn [String.prefix]. destruct (ascii_dec a c); [congruence|reflexivity]. Qed.

Lemma occurs_eq_cons c s :
  PyStr.occurs "=" (String c s) = false -> c <> Normalizer.eq_sign /\ PyStr.occurs "=" s = false.
Proof.
  intro H. apply occurs_cons in H. destruct H as [Hp Ho]. split; [|exact Ho].
  intro Hc. subst c. unfold Normalizer.eq_sign, Normalizer.ch in Hp.
  rewrite prefix_same, prefix_nil in Hp. discriminate Hp.
Qed.

Lemma star_needs_eq (pat : Re.pattern) s :
  PyStr.occurs "=" s = false ->
  Re.star (Re.not_lit Normalizer.eq_sign) (Re.match_here (Re.Item (Re.lit Normalizer.eq_sign) Re.One :: pat)) s = None.
Proof.
  induction s as [|c s IH]; intro H; [reflexivity|].
  apply occurs_eq_cons in H. destruct H as [Hc Ho].
  assert (Hk : Re.match_here (Re.Item (Re.lit Normalizer.eq_sign) Re.One :: pat) (String c s) = None).
  { cbn [Re.match_here]. unfold Re.lit.
    destruct (Ascii.eqb Normalizer.eq_sign c) eqn:E; [|reflexivity].
    apply Ascii.eqb_eq in E. congruence. }
  cbn [Re.star]. rewrite IH by exact Ho. rewrite Hk.
  destruct (Re.not_lit Normalizer.eq_sign c); reflexivity.
Qed.

Lemma match_here_one p pat c s :
  Re.match_here (Re.Item p Re.One :: pat) (String c s) =
  if p c then Re.cons_match c (Re.match_here pat s) else None.
Proof. reflexivity. Qed.

Lemma match_here_star p pat s :
  Re.match_here (Re.Item p Re.Star :: pat) s = Re.star p (Re.match_here pat) s.
Proof. destruct s; reflexivity. Qed.

Lemma range_needs_eq s :
  PyStr.occurs "=" s = false -> Re.match_here Normalizer.p s = None.
Proof.
  intro H. destruct s as [|c s]; [reflexivity|].
  apply occurs_eq_cons in H. destruct H as [_ Ho].
  change Normalizer.p with
    (Re.Item (Re.lit (Normalizer.ch "(")) Re.One ::
     Re.Item (Re.not_lit Normalizer.eq_sign) Re.Star ::
     Re.Item (Re.lit Normalizer.eq_sign) Re.One :: tl Normalizer.pRange).
  rewrite match_here_one, match_here_star, star_needs_eq by exact Ho.
  destruct (Re.lit _ c); reflexivity.
Qed.

Lemma findall_range_absent s :
  PyStr.occurs "=" s = false -> Re.findall Normalizer.p s = [].
Proof.
  unfold Re.findall. induction s as [|c s IH]; intro H.
  - reflexivity.
  - cbn [Re.findall_from]. rewrite range_needs_eq by exact H.
    apply IH. apply occurs_eq_cons in H. apply H.
Qed.

Lemma prefix_spaced_eq (c : ascii) s :
  String.prefix (String c " = ") s = true -> PyStr.occurs "=" s = true.
Proof.
  destruct s as [|a [|b [|e s]]]; try discriminate.
  - cbn [String.prefix]. destruct (ascii_dec c a); discriminate.
  - cbn [String.prefix]. destruct (ascii_dec c a); [|discriminate].
    destruct (ascii_dec " " b); discriminate.
  - cbn [String.prefix]. destruct (ascii_dec c a); [|discriminate].
    destruct (ascii_dec " " b); [|discriminate].
    destruct (ascii_dec "=" e); [|discriminate].
    intros _. subst e. cbn [PyStr.occurs]. rewrite prefix_same, prefix_nil.
    rewrite !orb_true_r. reflexivity.
Qed.

Lemma occurs_spaced_eq (c : ascii) s :
  PyStr.occurs "=" s = false -> PyStr.occurs (String c " = ") s = false.
Proof.
  induction s as [|a s IH]; intro H; [reflexivity|].
  cbn [PyStr.occurs]. apply orb_false_iff. split.
  - destruct (String.prefix (String c " = ") (String a s)) eqn:E; [|reflexivity].
    apply prefix_spaced_eq in E. congruence.
  - apply IH. apply occurs_eq_cons in H. apply H.
Qed.
Lemma keys_set {V} (d : Dict.t V) k v k' :
  In k' (Dict.keys (Dict.set d k v)) <-> k' = k \/ In k' (Dict.keys d).
Proof.
  unfold Dict.keys. induction d as [|[k0 v0] d IH]; cbn [Dict.set map fst].
  - cbn. intuition congruence.
  - destruct (String.eqb k0 k) eqn:E; cbn [map fst In].
    + apply String.eqb_eq in E. subst k0. intuition congruence.
    + rewrite IH. intuition congruence.
Qed.

Lemma attribute_decode_keys enc cd dec :
  Wittgenstein.attribute_decode enc cd = ret dec ->
  In "=" (Dict.keys dec) /\
  (forall k, In k (Dict.keys (Wittgenstein.invert enc)) -> In k (Dict.keys dec)).
Proof.
  unfold Wittgenstein.attribute_decode.
  destruct (py_index cd 1) as [out [c1|e]] eqn:E1; [|destruct out; discriminate].
  assert (out = []) as ->.
  { unfold py_index in E1.
    destruct ((if (1 <? 0)%Z then _ else _) <? 0)%Z; cbn in E1;
      [inversion E1; reflexivity|].
    destruct (Z.of_nat (List.length cd) <=? _)%Z; cbn in E1; [inversion E1; reflexivity|].
    destruct (nth_error cd _); inversion E1; reflexivity. }
  change ([], Ok c1) with (ret c1). rewrite bind_ret.
  destruct c1 as [[pos|t]|]; try discriminate.
  cbn [as_str]. rewrite bind_ret. intro H. inversion H; subst dec; clear H.
  split; [|intros k Hk]; repeat (apply keys_set; try (left; reflexivity); right); exact Hk.
Qed.



(** ** C8: a second run of the normaliser *)

Lemma sample_decode_built :
  Wittgenstein.attribute_decode (fst (Wittgenstein.attribute_encode sample_attributes))
    sample_domain = ret sample_decode.
Proof. reflexivity. Qed.




(** ** C5: decoding an encoded attribute name *)

(** The tokens of indices 1, 10 and 16 are [X1X], [X10X] and [X16X], and
    none of them occurs inside another: the closing [X] keeps the
    substitution of one from firing inside the others. *)
Lemma tokens_do_not_overlap :
  Wittgenstein.token 1 = "X1X" /\ Wittgenstein.token 10 = "X10X" /\
  Wittgenstein.token 16 = "X16X" /\
  PyStr.occurs "X1X" "X10X" = false /\ PyStr.occurs "X1X" "X16X" = false /\
  PyStr.occurs "X10X" "X1X" = false /\ PyStr.occurs "X10X" "X16X" = false /\
  PyStr.occurs "X16X" "X1X" = false /\ PyStr.occurs "X16X" "X10X" = false.
Proof. repeat split. Qed.

(** C5.  For a table with the attributes [Volume] and [outcome], the
    token of [Volume] is [X0X]; the decoding table first puts [Volume]
    back and then, further down the same table, rewrites its [V] as the
    disjunction marker.  The name does not come back. *)
Theorem decode_rewrites_capital_V :
  let enc := fst (Wittgenstein.attribute_encode ["Volume"; "outcome"]) in
  exists table,
    Wittgenstein.attribute_decode enc sample_domain = ret table /\
    Dict.get enc "Volume" = Some "X0X" /\
    replace_words "X0X" table = "=> paid" +++ newline +++ "olume" /\
    replace_words "X0X" table <> "Volume".
Proof.
  cbv zeta. eexists. split; [reflexivity|]. split; [reflexivity|].
  split; [reflexivity|]. discriminate.
Qed.

(** ** C2: data conditioning *)

Lemma for_each_pure {A S} (body : A -> S -> Py S) (f : A -> S -> S) (I : S -> Prop) :
  (forall x s, I s -> I (f x s)) ->
  forall l,
    (forall x s, In x l -> I s -> exists out, body x s = (out, Ok (f x s))) ->
    forall s, I s ->
      exists out, for_each l body s = (out, Ok (fold_left (fun s x => f x s) l s)).
Proof.
  intros Hinv l. induction l as [|x l IH]; intros Hbody s Hs.
  - exists []. reflexivity.
  - destruct (Hbody x s (or_introl eq_refl) Hs) as [out1 H1].
    destruct (IH (fun y t Hy => Hbody y t (or_intror Hy)) (f x s) (Hinv x s Hs)) as [out2 H2].
    exists (out1 ++ out2). cbn [for_each fold_left]. rewrite H1, bind_ok, H2. reflexivity.
Qed.

Lemma find_column_in cols label :
  In label (map name cols) -> exists c, find_column cols label = Some c.
Proof.
  induction cols as [|c cols IH]; cbn [map In find_column]; [tauto|].
  intros [H|H].
  - exists c. rewrite H, String.eqb_refl. reflexivity.
  - destruct (String.eqb (name c) label); [eexists; reflexivity|apply IH, H].
Qed.

Lemma find_column_name cols label c :
  find_column cols label = Some c -> name c = label /\ In c cols.
Proof.
  induction cols as [|c0 cols IH]; cbn [find_column]; [discriminate|].
  destruct (String.eqb (name c0) label) eqn:E.
  - intro H. inversion H; subst c0. apply String.eqb_eq in E. split; [exact E|left; reflexivity].
  - intro H. destruct (IH H). split; [assumption|right; assumption].
Qed.

Lemma find_column_nodup cols c :
  NoDup (map name cols) -> In c cols -> find_column cols (name c) = Some c.
Proof.
  induction cols as [|c0 cols IH]; cbn [map In find_column]; [tauto|].
  intros Hnd [H|H].
  - subst c0. rewrite String.eqb_refl. reflexivity.
  - inversion Hnd as [|? ? Hnot Hnd']; subst.
    destruct (String.eqb (name c0) (name c)) eqn:E.
    + apply String.eqb_eq in E. exfalso. apply Hnot. rewrite E. apply in_map, H.
    + apply IH; assumption.
Qed.

Lemma clear_column_cleared label df :
  In label (names df) ->
  exists out, Lib.clear_column label df = (out, Ok (cleared label df)).
Proof.
  intro Hin. unfold Lib.clear_column, cleared, get_column.
  destruct (find_column_in _ _ Hin) as [c Hc]. rewrite Hc, bind_ret.
  destruct (String.eqb (dtype c) "float64"); [|exists []; reflexivity].
  unfold dropna_subset, get_column. rewrite Hc, !bind_ret.
  match goal with |- context [if ?b then _ else _] => destruct b end.
  - eexists. unfold print. rewrite bind_ok. cbn [fst snd]. reflexivity.
  - exists []. reflexivity.
Qed.

Lemma names_keep_rows mask df : names (keep_rows mask df) = names df.
Proof. unfold names, keep_rows. cbn [columns]. rewrite map_map. reflexivity. Qed.

Lemma names_cleared label df : names (cleared label df) = names df.
Proof.
  unfold cleared. destruct (find_column _ _) as [c|]; [|reflexivity].
  destruct (String.eqb _ _); [apply names_keep_rows|reflexivity].
Qed.

Lemma find_column_keep_rows mask cols label :
  find_column (map (fun c => Column (name c) (dtype c) (filter_by mask (cells c))) cols) label =
  option_map (fun c => Column (name c) (dtype c) (filter_by mask (cells c)))
             (find_column cols label).
Proof.
  induction cols as [|c cols IH]; [reflexivity|].
  cbn [map find_column name]. destruct (String.eqb (name c) label); [reflexivity|exact IH].
Qed.

Lemma filter_by_Forall {A} (P : A -> Prop) mask (l : list A) :
  Forall P l -> Forall P (filter_by mask l).
Proof.
  intro H. revert mask. induction H as [|x l Hx Hl IH]; intros [|b mask]; cbn [filter_by];
    try constructor.
  destruct b; [constructor; [exact Hx|apply IH]|apply IH].
Qed.

Lemma filter_by_own (l : list cell) :
  Forall (fun x => notna x = true) (filter_by (map notna l) l).
Proof.
  induction l as [|x l IH]; cbn [map filter_by]; [constructor|].
  destruct (notna x) eqn:E; [constructor; assumption|assumption].
Qed.

Lemma clean_at_cleared_same label df : clean_at label (cleared label df).
Proof.
  unfold clean_at, cleared. intros c.
  destruct (find_column (columns df) label) as [c0|] eqn:E0.
  - destruct (String.eqb (dtype c0) "float64") eqn:Et.
    + unfold keep_rows. cbn [columns]. rewrite find_column_keep_rows, E0. cbn [option_map].
      intro H. inversion H; subst c. intros _. cbn [cells]. apply filter_by_own.
    + rewrite E0. intro H. inversion H; subst c0. intro Hd. rewrite Hd in Et. discriminate.
  - rewrite E0. discriminate.
Qed.

Lemma clean_at_cleared_other label label' df :
  clean_at label df -> clean_at label (cleared label' df).
Proof.
  unfold clean_at, cleared. intros H c.
  destruct (find_column (columns df) label') as [c0|]; [|apply H].
  destruct (String.eqb (dtype c0) "float64"); [|apply H].
  unfold keep_rows. cbn [columns]. rewrite find_column_keep_rows.
  destruct (find_column (columns df) label) as [c1|] eqn:E1; [|discriminate].
  cbn [option_map]. intro Hc. inversion Hc; subst c. cbn [dtype cells].
  intro Hd. apply filter_by_Forall. apply (H c1 eq_refl Hd).
Qed.

Lemma clean_after_loop labels : forall df label,
  In label labels \/ clean_at label df ->
  clean_at label (fold_left (fun s x => cleared x s) labels df).
Proof.
  induction labels as [|l labels IH]; intros df label H; cbn [fold_left].
  - destruct H as [[]|H]. exact H.
  - apply IH. destruct H as [[H|H]|H].
    + subst l. right. apply clean_at_cleared_same.
    + left. exact H.
    + right. apply clean_at_cleared_other, H.
Qed.

Lemma names_after_loop labels : forall df,
  names (fold_left (fun s x => cleared x s) labels df) = names df.
Proof.
  induction labels as [|l labels IH]; intro df; cbn [fold_left]; [reflexivity|].
  rewrite IH. apply names_cleared.
Qed.

Lemma columns_cleared label df c' :
  In c' (columns (cleared label df)) ->
  exists c, In c (columns df) /\ name c' = name c /\ dtype c' = dtype c.
Proof.
  unfold cleared. destruct (find_column _ _) as [c0|]; [|intro H; exists c'; auto].
  destruct (String.eqb _ _); [|intro H; exists c'; auto].
  unfold keep_rows. cbn [columns]. intro H. apply in_map_iff in H.
  destruct H as [c [Hc Hin]]. exists c. subst c'. auto.
Qed.

Lemma columns_after_loop labels : forall df c',
  In c' (columns (fold_left (fun s x => cleared x s) labels df)) ->
  exists c, In c (columns df) /\ name c' = name c /\ dtype c' = dtype c.
Proof.
  induction labels as [|l labels IH]; intros df c' H; cbn [fold_left] in H.
  - exists c'. auto.
  - destruct (IH _ _ H) as [c1 [H1 [Hn Hd]]].
    destruct (columns_cleared _ _ _ H1) as [c [Hc [Hn' Hd']]].
    exists c. split; [exact Hc|]. split; congruence.
Qed.

Lemma clear_numeric_nan_result df :
  exists out,
    Lib.clear_numeric_nan df =
    (out, Ok (fold_left (fun s x => cleared x s) (names df) df)).
Proof.
  unfold Lib.clear_numeric_nan.
  destruct (for_each_pure Lib.clear_column cleared (fun s => names s = names df)) with
    (l := names df) (s := df) as [out H].
  - intros x s Hs. rewrite names_cleared. exact Hs.
  - intros x s Hx Hs. apply clear_column_cleared. rewrite Hs. exact Hx.
  - reflexivity.
  - rewrite H, bind_ok. eexists. cbn [fst snd print bind ret]. reflexivity.
Qed.

Lemma for_each_print (g : string -> string) (l : list string) :
  for_each l (fun x (_ : unit) => print (g x)) tt =
  (map (fun x => g x +++ newline) l, Ok tt).
Proof.
  induction l as [|x l IH]; [reflexivity|].
  cbn [for_each map]. unfold print at 1. rewrite bind_ok, IH. reflexivity.
Qed.

Lemma NoDup_names_filter (f : column -> bool) cols :
  NoDup (map name cols) -> NoDup (map name (filter f cols)).
Proof.
  induction cols as [|c cols IH]; cbn [map filter]; [intro; constructor|].
  intro H. inversion H as [|? ? Hnot Hnd]; subst.
  destruct (f c); [|apply IH, Hnd].
  cbn [map]. constructor; [|apply IH, Hnd].
  intro Hin. apply Hnot. apply in_map_iff in Hin. destruct Hin as [c' [Hn Hc']].
  apply filter_In in Hc'. rewrite <- Hn. apply in_map, Hc'.
Qed.




(** ** Tree extraction *)

Section TreeFacts.

Import TreeExtractor TreeSpec.

Variable float64 : Type.
Variable format_float : float64 -> string.

Lemma append_nil_r (s : string) : s +++ "" = s.
Proof. induction s as [|c s IH]; [reflexivity|]. cbn [append]. rewrite IH. reflexivity. Qed.

Lemma append_assoc (a b c : string) : (a +++ b) +++ c = a +++ b +++ c.
Proof. induction a as [|x a IH]; [reflexivity|]. cbn [append]. rewrite IH. reflexivity. Qed.

Lemma py_index_0 {A} (a : A) (l : list A) : py_index (a :: l) 0 = ret a.
Proof. exact (py_index_nth (a :: l) 0 a eq_refl). Qed.

Lemma py_index_1 {A} (a b : A) (l : list A) : py_index (a :: b :: l) 1 = ret b.
Proof. exact (py_index_nth (a :: b :: l) 1 b eq_refl). Qed.

Lemma pop_snoc {A} (l : list A) (x : A) : pop (l ++ [x]) = ret (x, l).
Proof.
  induction l as [|y l IH]; [reflexivity|].
  cbn [app pop]. rewrite IH, bind_ret. cbn [fst snd].
  destruct (l ++ [x]) eqn:E; [destruct l; discriminate|reflexivity].
Qed.

Lemma join_antecedents (init : list string) (acc : string) :
  for_each (map (fun a => Some (Str a)) init)
           (fun antecedent rule_str =>
              a <- as_str antecedent ;; ret (rule_str +++ a +++ " AND "))
           acc =
  ret (acc +++ and_prefix init).
Proof.
  revert acc. induction init as [|a init IH]; intro acc; cbn [map for_each and_prefix].
  - rewrite append_nil_r. reflexivity.
  - cbn [as_str]. rewrite !bind_ret, IH. rewrite !append_assoc. reflexivity.
Qed.

Lemma concat_snoc (init : list string) (last : string) :
  String.concat " AND " (init ++ [last]) = and_prefix init +++ last.
Proof.
  induction init as [|a init IH]; [reflexivity|].
  cbn [app and_prefix]. rewrite !append_assoc, <- IH.
  destruct init; reflexivity.
Qed.

(** [print_rule] on one or more antecedents and a string consequent. *)
Lemma print_rule_line (init : list string) (last c : string) :
  print_rule (map (fun a => Some (Str a)) (init ++ [last]) ++ [Some (Str c)]) =
  ([String.concat " AND " (init ++ [last]) +++ " => " +++ c +++ newline], Ok tt).
Proof.
  unfold print_rule. rewrite pop_snoc, bind_ret. cbn [fst snd].
  rewrite map_app. cbn [map]. rewrite pop_snoc, bind_ret. cbn [fst snd].
  rewrite join_antecedents, bind_ret. cbn [as_str]. rewrite !bind_ret.
  unfold print. rewrite concat_snoc, !append_assoc. reflexivity.
Qed.

Variable tree_ : Tree float64.
Variable feature_name feature_type : list string.

(** A leaf prints one rule, with the consequent its vote selects. *)
Lemma recurse_leaf (neg pos : string) (rest : list cell) (fuel : nat) (node depth : Z)
  (init : list string) (last : string) (dd : domain_table) (vote : Q) (others : list Q) :
  py_index (feature tree_) node = ret TREE_UNDEFINED ->
  py_index (value tree_) node = ret (vote :: others) ->
  recurse format_float tree_ feature_name feature_type
          (Some (Str neg) :: Some (Str pos) :: rest)
          (S fuel) node depth (init ++ [last]) dd =
  ([String.concat " AND " (init ++ [last]) +++ " => " +++
    consequent_of neg pos vote +++ newline], Ok tt).
Proof.
  intros Hleaf Hvote. cbn [recurse]. rewrite Hleaf, bind_ret.
  change (negb (TREE_UNDEFINED =? TREE_UNDEFINED)%Z) with false. cbv iota.
  rewrite Hvote, bind_ret.
  rewrite py_index_0, bind_ret.
  unfold consequent_of. destruct (Qeq_bool vote 0); cbn [negb].
  - rewrite py_index_1, bind_ret. apply print_rule_line.
  - rewrite py_index_0, bind_ret. apply print_rule_line.
Qed.

Section Split.

Variable class_attr_domain : list cell.
Variables (fuel : nat) (node depth : Z) (antecedents : list string) (dd : domain_table).
Variables (f : Z) (name type : string) (thr : float64) (l r : Z).

Hypothesis Hf : py_index (feature tree_) node = ret f.
Hypothesis Hsplit : f <> TREE_UNDEFINED.
Hypothesis Hname : py_index feature_name node = ret name.
Hypothesis Htype : py_index feature_type node = ret type.
Hypothesis Hthr : py_index (threshold tree_) node = ret thr.
Hypothesis Hl : py_index (children_left tree_) node = ret l.
Hypothesis Hr : py_index (children_right tree_) node = ret r.

Let go := recurse format_float tree_ feature_name feature_type class_attr_domain fuel.
Let run := recurse format_float tree_ feature_name feature_type class_attr_domain
                   (S fuel) node depth antecedents dd.

Lemma recurse_enter :
  run =
  (if String.eqb type "float64" then
     go l (depth + 1)%Z
        (antecedents ++ ["(" +++ name +++ " <= " +++ format_float thr +++ ")"]) dd ;;
     go r (depth + 1)%Z
        (antecedents ++ ["(" +++ name +++ " > " +++ format_float thr +++ ")"]) dd
   else if String.eqb type "int64" then
     d <- Dict.lookup dd name ;;
     go l (depth + 1)%Z (antecedents ++ ["(" +++ name +++ " = " +++ fst d +++ ")"]) dd ;;
     d <- Dict.lookup dd name ;;
     go r (depth + 1)%Z (antecedents ++ ["(" +++ name +++ " = " +++ snd d +++ ")"]) dd
   else
     exit_msg ("Error: couldn't translate attribute " +++ name +++ " of type " +++
               type +++ "." +++ newline)).
Proof.
  unfold run, go. cbn [recurse]. rewrite Hf, bind_ret.
  assert (E : negb (f =? TREE_UNDEFINED)%Z = true).
  { apply negb_true_iff, Z.eqb_neq, Hsplit. }
  rewrite E, Hname, bind_ret, Htype, bind_ret, Hthr, bind_ret.
  destruct (String.eqb type "float64").
  - rewrite Hl, Hr, !bind_ret. reflexivity.
  - destruct (String.eqb type "int64"); [|reflexivity].
    unfold Dict.lookup. destruct (Dict.get dd name) as [d|]; [|reflexivity].
    rewrite !bind_ret, Hl, Hr, !bind_ret. reflexivity.
Qed.

End Split.

End TreeFacts.

Section TreeSound.

Import TreeExtractor TreeSpec.

Variable float64 : Type.
Variable format_float : float64 -> string.

Lemma py_index_map {A B} (g : A -> B) (l : list A) (i : Z) (a : A) :
  py_index l i = ret a -> py_index (map g l) i = ret (g a).
Proof.
  unfold py_index. rewrite length_map.
  destruct (_ || _)%bool; [discriminate|].
  rewrite nth_error_map. destruct (nth_error l _) as [x|]; [|discriminate].
  intro H. inversion H. reflexivity.
Qed.

Lemma map_py_pure {A B} (g : A -> Py B) (h : A -> B) (l : list A) :
  Forall (fun x => g x = ret (h x)) l -> map_py g l = ret (map h l).
Proof.
  induction 1 as [|x l Hx Hl IH]; [reflexivity|].
  cbn [map_py map]. rewrite Hx, bind_ret, IH, !bind_ret. reflexivity.
Qed.

Lemma per_node_defined proj features (tree_ : Tree float64) :
  features_defined tree_ features ->
  per_node proj features tree_ = ret (map (described proj features) (feature tree_)).
Proof.
  intro H. unfold per_node. apply map_py_pure.
  eapply Forall_impl; [|exact H]. intros i [Hi|[f Hf]]; unfold described.
  - subst i. reflexivity.
  - destruct (i =? TREE_UNDEFINED)%Z; [reflexivity|].
    rewrite Hf, bind_ret. reflexivity.
Qed.

Lemma described_split proj features i f :
  i <> TREE_UNDEFINED -> py_index features i = ret f -> described proj features i = proj f.
Proof.
  intros Hi Hf. unfold described.
  apply Z.eqb_neq in Hi. rewrite Hi, Hf. reflexivity.
Qed.

Lemma leaf_rules_length dd (t : dtree float64) : forall ants,
  List.length (leaf_rules format_float dd t ants) = leaves t.
Proof.
  induction t as [vote|name type thr l IHl r IHr]; intro ants; cbn [leaf_rules leaves].
  - reflexivity.
  - rewrite length_app, IHl, IHr. reflexivity.
Qed.

Variable tree_ : Tree float64.
Variable features : list feature_desc.
Variables (neg pos : string) (rest : list cell).
Variable dd : domain_table.

Let fn := map (described fname features) (feature tree_).
Let ft := map (described ftype features) (feature tree_).
Let cd := Some (Str neg) :: Some (Str pos) :: rest.

(** One step into a supported split. *)
Lemma recurse_split fuel node depth ants name type thr l r :
  represents tree_ features node (DNode name type thr l r) ->
  supported dd (DNode name type thr l r) ->
  exists nl nr,
    represents tree_ features nl l /\ represents tree_ features nr r /\
    recurse format_float tree_ fn ft cd (S fuel) node depth ants dd =
    (recurse format_float tree_ fn ft cd fuel nl (depth + 1)
             (ants ++ [left_antecedent format_float dd name type thr]) dd ;;
     recurse format_float tree_ fn ft cd fuel nr (depth + 1)
             (ants ++ [right_antecedent format_float dd name type thr]) dd).
Proof.
  intros Hrep Hsup. cbn [represents] in Hrep.
  destruct Hrep as (f & nl & nr & Hf & Hsplit & Hfeat & Hthr & Hl & Hr & Hrl & Hrr).
  exists nl, nr. split; [exact Hrl|]. split; [exact Hrr|].
  assert (Hname : py_index fn node = ret name).
  { unfold fn. rewrite (py_index_map _ _ _ _ Hf).
    rewrite (described_split fname features f _ Hsplit Hfeat). reflexivity. }
  assert (Htype : py_index ft node = ret type).
  { unfold ft. rewrite (py_index_map _ _ _ _ Hf).
    rewrite (described_split ftype features f _ Hsplit Hfeat). reflexivity. }
  rewrite (recurse_enter float64 format_float tree_ fn ft cd fuel node depth ants dd
             f name type thr nl nr Hf Hsplit Hname Htype Hthr Hl Hr).
  unfold left_antecedent, right_antecedent.
  destruct Hsup as [[Ht|[Ht [d Hd]]] _]; subst type.
  - reflexivity.
  - cbn [String.eqb Ascii.eqb Bool.eqb]. unfold Dict.lookup. rewrite Hd, !bind_ret.
    reflexivity.
Qed.

Lemma recurse_sound : forall (t : dtree float64) fuel node depth init last,
  represents tree_ features node t -> supported dd t -> (height t < fuel)%nat ->
  recurse format_float tree_ fn ft cd fuel node depth (init ++ [last]) dd =
  (map (rule_line neg pos) (leaf_rules format_float dd t (init ++ [last])), Ok tt).
Proof.
  induction t as [vote|name type thr l IHl r IHr];
    intros fuel node depth init last Hrep Hsup Hfuel.
  - destruct fuel as [|fuel]; [lia|].
    destruct Hrep as [Hleaf [others Hvote]].
    unfold cd. rewrite (recurse_leaf float64 format_float tree_ fn ft neg pos rest fuel node depth
                          init last dd vote others Hleaf Hvote).
    reflexivity.
  - destruct fuel as [|fuel]; [cbn [height] in Hfuel; lia|].
    cbn [height] in Hfuel.
    destruct (recurse_split fuel node depth (init ++ [last]) _ _ _ _ _ Hrep Hsup)
      as (nl & nr & Hrl & Hrr & Hstep).
    rewrite Hstep. destruct Hsup as [_ [Hsl Hsr]].
    rewrite (IHl fuel nl _ (init ++ [last]) _ Hrl Hsl) by lia.
    rewrite bind_ok.
    rewrite (IHr fuel nr _ (init ++ [last]) _ Hrr Hsr) by lia.
    cbn [fst snd leaf_rules]. rewrite map_app. reflexivity.
Qed.

(** The whole extraction, for a tree whose root is a split. *)
Lemma tree_to_ruleset_sound name type thr l r fuel :
  let t := DNode name type thr l r in
  features_defined tree_ features ->
  represents tree_ features 0 t -> supported dd t -> (height t < fuel)%nat ->
  tree_to_ruleset format_float fuel tree_ features cd dd =
  (map (rule_line neg pos) (leaf_rules format_float dd t []), Ok tt).
Proof.
  intros t Hdef Hrep Hsup Hfuel. unfold tree_to_ruleset.
  rewrite !per_node_defined, !bind_ret by exact Hdef. fold fn. fold ft.
  destruct fuel as [|fuel]; [lia|]. cbn [height] in Hfuel.
  destruct (recurse_split fuel 0 1 [] _ _ _ _ _ Hrep Hsup) as (nl & nr & Hrl & Hrr & Hstep).
  rewrite Hstep. destruct Hsup as [_ [Hsl Hsr]].
  rewrite (recurse_sound l fuel nl _ [] _ Hrl Hsl) by (unfold t in Hfuel; cbn [height] in Hfuel; lia).
  rewrite bind_ok.
  rewrite (recurse_sound r fuel nr _ [] _ Hrr Hsr) by (unfold t in Hfuel; cbn [height] in Hfuel; lia).
  cbn [fst snd]. unfold t. cbn [leaf_rules]. rewrite map_app. reflexivity.
Qed.

End TreeSound.

Section TreeClaims.

Import TreeExtractor TreeSpec.

(** C3.  At a leaf reached with at least one antecedent, [recurse] prints
    exactly one rule; its consequent is [class_attr_domain[1]] when the
    leaf's vote [value[node].T[0]] is 0 and [class_attr_domain[0]]
    otherwise. *)
Theorem leaf_consequent_polarity
  (float64 : Type) (format_float : float64 -> string) (tree_ : Tree float64)
  (feature_name feature_type : list string) (neg pos : string) (rest : list cell)
  (fuel : nat) (node depth : Z) (init : list string) (last : string)
  (domain_decode : domain_table) (vote : Q) (others : list Q)
  (Hleaf : py_index (feature tree_) node = ret TREE_UNDEFINED)
  (Hvote : py_index (value tree_) node = ret (vote :: others)) :
  recurse format_float tree_ feature_name feature_type
          (Some (Str neg) :: Some (Str pos) :: rest)
          (S fuel) node depth (init ++ [last]) domain_decode =
  ([String.concat " AND " (init ++ [last]) +++ " => " +++
    (if Qeq_bool vote 0 then pos else neg) +++ newline], Ok tt).
Proof. apply recurse_leaf with (others := others); assumption. Qed.

(** The iris scenario: the two leaves, and the whole extraction. *)
Lemma leaf_consequent_polarity_witness :
  recurse (fun x => x) iris_tree ["sepal_length"; "undefined!"; "undefined!"]
          ["float64"; "undefined!"; "undefined!"] iris_domain
          1 1 2 ([] ++ ["(sepal_length <= 5.0)"]) [] =
    (["(sepal_length <= 5.0) => versicolor" +++ newline], Ok tt) /\
  recurse (fun x => x) iris_tree ["sepal_length"; "undefined!"; "undefined!"]
          ["float64"; "undefined!"; "undefined!"] iris_domain
          1 2 2 ([] ++ ["(sepal_length > 5.0)"]) [] =
    (["(sepal_length > 5.0) => setosa" +++ newline], Ok tt) /\
  tree_to_ruleset (fun x => x) recursion_limit iris_tree iris_features iris_domain [] =
    (["(sepal_length <= 5.0) => versicolor" +++ newline;
      "(sepal_length > 5.0) => setosa" +++ newline], Ok tt).
Proof.
  split; [|split].
  - apply (leaf_consequent_polarity string (fun x => x) iris_tree _ _
             "setosa" "versicolor" [] 0 1 2 [] "(sepal_length <= 5.0)" [] (0 # 1) [3 # 1]);
      reflexivity.
  - apply (leaf_consequent_polarity string (fun x => x) iris_tree _ _
             "setosa" "versicolor" [] 0 2 2 [] "(sepal_length > 5.0)" [] (3 # 1) [0 # 1]);
      reflexivity.
  - reflexivity.
Defined.






End TreeClaims.

(* ===================================================================== *)
(** * Further properties of the scripts and of [lib.py] *)
(* ===================================================================== *)

(** ** Errors before the data is prepared *)

(** A frame with fewer than two columns has no second-to-last column:
    [get_class_attr] raises [IndexError], and so do both scripts, before
    anything is printed. *)
Theorem class_attr_needs_two_columns (train : DataFrame)
  (Hcols : (List.length (columns train) < 2)%nat) :
  Lib.get_class_attr train = ([], Raise IndexError) /\
  (forall learn classifier th,
      Wittgenstein.main learn classifier train th = ([], Raise IndexError)) /\
  (forall float64 (format_float : float64 -> string) booleanize fit fuel classifier th,
      Sklearn.main float64 format_float booleanize fit fuel classifier train th =
      ([], Raise IndexError)).
Proof.
  assert (H : Lib.get_class_attr train = ([], Raise IndexError)).
  { unfold Lib.get_class_attr, names, py_index. rewrite length_map.
    change (-2 <? 0)%Z with true. cbv iota.
    assert (E : (-2 + Z.of_nat (List.length (columns train)) <? 0)%Z = true)
      by (apply Z.ltb_lt; lia).
    rewrite E. reflexivity. }
  split; [exact H|]. split; intros.
  - unfold Wittgenstein.main. rewrite H. reflexivity.
  - unfold Sklearn.main. rewrite H. reflexivity.
Qed.

Lemma class_attr_needs_two_columns_witness :
  Lib.get_class_attr one_column_table = ([], Raise IndexError) /\
  Wittgenstein.main (fun _ _ _ _ _ _ => ret ([], [])) "IREP" one_column_table (1 # 10) =
    ([], Raise IndexError) /\
  Sklearn.main string (fun x => x) (fun df => ret (df, [])) (fun _ _ => ret iris_tree)
               recursion_limit "CART" one_column_table (1 # 10) = ([], Raise IndexError).
Proof.
  assert (H : (List.length (columns one_column_table) < 2)%nat) by (vm_compute; lia).
  destruct (class_attr_needs_two_columns one_column_table H) as [H1 [H2 H3]].
  split; [exact H1|]. split; [apply H2|apply H3].
Defined.

(** A class attribute with more than two distinct present values stops
    the rule-list script: it prints its one-line error and exits, and
    nothing else is printed. *)
Theorem non_binary_class_exits
  (train : DataFrame) (class_attr : string) (col : column)
  (Hattr : Lib.get_class_attr train = ret class_attr)
  (Hcol : get_column train class_attr = ret col)
  (Hmany : (2 < nunique col)%nat) :
  forall learn classifier th,
    Wittgenstein.main learn classifier train th =
    (["Error: class attribute is not binary" +++ newline], Raise (SystemExit None)).
Proof.
  intros learn classifier th.
  unfold Wittgenstein.main. rewrite Hattr, bind_ret.
  unfold Wittgenstein.run, Wittgenstein.class_domain. rewrite Hcol, bind_ret.
  assert (Hbin : Lib.is_binary col = false).
  { unfold Lib.is_binary. apply Nat.leb_gt. exact Hmany. }
  rewrite Hbin. reflexivity.
Qed.

Lemma non_binary_class_exits_witness :
  Wittgenstein.main (fun _ _ _ _ _ _ => ret ([], [])) "IREP" three_class_table (1 # 10) =
  (["Error: class attribute is not binary" +++ newline], Raise (SystemExit None)).
Proof.
  apply (non_binary_class_exits three_class_table "outcome"
           (Column "outcome" "object" [Some (Str "paid"); Some (Str "late"); Some (Str "lost")])).
  - reflexivity.
  - reflexivity.
  - vm_compute. lia.
Defined.



(** Both scripts drop the column [__ID_piton__] by name; on a table
    without it they stop with [KeyError] before any cleaning, the
    rule-list script after its class domain has been found. *)
Theorem missing_id_column_raises (train : DataFrame) (class_attr : string)
  (Hattr : Lib.get_class_attr train = ret class_attr)
  (Hnoid : existsb (String.eqb "__ID_piton__") (names train) = false) :
  (forall float64 (format_float : float64 -> string) booleanize fit fuel classifier th,
      Sklearn.main float64 format_float booleanize fit fuel classifier train th =
      ([], Raise (KeyError "__ID_piton__"))) /\
  (forall cd, Wittgenstein.class_domain train class_attr = ret cd ->
   forall learn classifier th,
      Wittgenstein.main learn classifier train th = ([], Raise (KeyError "__ID_piton__"))).
Proof.
  split.
  - intros. unfold Sklearn.main. rewrite Hattr, bind_ret.
    unfold Sklearn.run. cbn [drop_columns]. rewrite Hnoid. reflexivity.
  - intros cd Hcd learn classifier th.
    unfold Wittgenstein.main. rewrite Hattr, bind_ret.
    unfold Wittgenstein.run. rewrite Hcd, bind_ret.
    cbn [drop_columns]. rewrite Hnoid. reflexivity.
Qed.

Lemma missing_id_column_raises_witness :
  Sklearn.main string (fun x => x) (fun df => ret (df, [])) (fun _ _ => ret iris_tree)
               recursion_limit "CART" no_id_table (1 # 10) =
    ([], Raise (KeyError "__ID_piton__")) /\
  Wittgenstein.main (fun _ _ _ _ _ _ => ret ([], [])) "IREP" no_id_table (1 # 10) =
    ([], Raise (KeyError "__ID_piton__")).
Proof.
  destruct (missing_id_column_raises no_id_table "outcome" eq_refl eq_refl) as [H1 H2].
  split; [apply H1|].
  apply (H2 [Some (Str "NO_paid"); Some (Str "paid")]). reflexivity.
Defined.

(** ** Which rows and columns conditioning keeps *)

Lemma filter_by_nil {A} (mask : list bool) : filter_by mask (@nil A) = [].
Proof. destruct mask; reflexivity. Qed.

Lemma filter_by_twice {A} (m b : list bool) : forall (l : list A),
  filter_by (filter_by m b) (filter_by m l) = filter_by (and_mask m b) l.
Proof.
  revert b. induction m as [|x m IH]; intros b l; [reflexivity|].
  destruct b as [|y b]; [cbn [filter_by and_mask]; rewrite ?filter_by_nil; reflexivity|].
  destruct l as [|z l]; [rewrite !filter_by_nil; reflexivity|].
  destruct x; cbn [filter_by and_mask andb].
  - destruct y; [f_equal|]; apply IH.
  - apply IH.
Qed.

Lemma filter_by_map {A B} (g : A -> B) (m : list bool) : forall (l : list A),
  filter_by m (map g l) = map g (filter_by m l).
Proof.
  induction m as [|x m IH]; intros [|z l]; try reflexivity.
  cbn [map filter_by]. destruct x; cbn [map]; rewrite IH; reflexivity.
Qed.

Lemma and_mask_assoc (a b c : list bool) :
  and_mask (and_mask a b) c = and_mask a (and_mask b c).
Proof.
  revert b c. induction a as [|x a IH]; intros [|y b] [|z c]; try reflexivity.
  cbn [and_mask]. rewrite IH, andb_assoc. reflexivity.
Qed.

Lemma and_mask_true_l (n : nat) : forall (m : list bool),
  (List.length m <= n)%nat -> and_mask (repeat true n) m = m.
Proof.
  induction n as [|n IH]; intros [|x m] H; try reflexivity; cbn [List.length] in H; [lia|].
  cbn [repeat and_mask andb]. rewrite IH by lia. reflexivity.
Qed.

Lemma and_mask_length_r (a b : list bool) : (List.length (and_mask a b) <= List.length b)%nat.
Proof.
  revert b. induction a as [|x a IH]; intros [|y b]; cbn [and_mask List.length]; try lia.
  specialize (IH b). lia.
Qed.

Lemma rows_mask_length dt cols n : (List.length (rows_mask dt cols n) <= n)%nat.
Proof.
  induction cols as [|c cols IH]; cbn [rows_mask].
  - rewrite repeat_length. lia.
  - destruct (String.eqb (dtype c) dt); [|exact IH].
    pose proof (and_mask_length_r (map notna (cells c)) (rows_mask dt cols n)). lia.
Qed.

Lemma filter_by_all {A} (n : nat) : forall (l : list A),
  (List.length l <= n)%nat -> filter_by (repeat true n) l = l.
Proof.
  induction n as [|n IH]; intros [|z l] H; try reflexivity; cbn [List.length] in H; [lia|].
  cbn [repeat filter_by]. rewrite IH by lia. reflexivity.
Qed.

Lemma keep_rows_twice (m b : list bool) (df : DataFrame) :
  keep_rows (filter_by m b) (keep_rows m df) = keep_rows (and_mask m b) df.
Proof.
  unfold keep_rows. cbn [index columns]. rewrite filter_by_twice. f_equal.
  rewrite map_map. apply map_ext. intro c. cbn [name dtype cells].
  rewrite filter_by_twice. reflexivity.
Qed.

Lemma keep_rows_all (df : DataFrame) :
  well_formed df -> keep_rows (repeat true (List.length (index df))) df = df.
Proof.
  intro Hwf. destruct df as [idx cols]. unfold keep_rows, well_formed in *.
  cbn [index columns] in *. rewrite filter_by_all by lia. f_equal.
  rewrite <- (map_id cols) at 2. apply map_ext_in. intros c Hc.
  rewrite Forall_forall in Hwf. specialize (Hwf c Hc).
  rewrite filter_by_all by lia. destruct c; reflexivity.
Qed.

Lemma and_mask_true_r (m : list bool) : and_mask m (repeat true (List.length m)) = m.
Proof.
  induction m as [|x m IH]; [reflexivity|].
  cbn [List.length repeat and_mask]. rewrite andb_true_r, IH. reflexivity.
Qed.

(** One turn of the loop on a frame that is the input with some rows
    removed. *)
Lemma cleared_for_keep_rows dt (c : column) (m : list bool) (df : DataFrame) :
  find_column (columns df) (name c) = Some c ->
  cleared_for dt (name c) (keep_rows m df) =
  keep_rows (and_mask m (if String.eqb (dtype c) dt then map notna (cells c)
                         else repeat true (List.length m))) df.
Proof.
  intro Hfind. unfold cleared_for.
  unfold keep_rows at 1. cbn [columns].
  rewrite find_column_keep_rows, Hfind. cbn [option_map dtype cells].
  destruct (String.eqb (dtype c) dt).
  - rewrite <- filter_by_map. apply keep_rows_twice.
  - rewrite and_mask_true_r. reflexivity.
Qed.

Lemma and_mask_length (a b : list bool) (n : nat) :
  List.length a = n -> List.length b = n -> List.length (and_mask a b) = n.
Proof.
  revert b n. induction a as [|x a IH]; intros [|y b] n Ha Hb; cbn [and_mask List.length] in *;
    try lia.
  destruct n as [|n]; [lia|]. rewrite (IH b n) by lia. reflexivity.
Qed.

Lemma loop_keep_rows dt (df : DataFrame) (n : nat) : forall (cs : list column) (m : list bool),
  (forall c, In c cs -> find_column (columns df) (name c) = Some c) ->
  (forall c, In c cs -> List.length (cells c) = n) ->
  List.length m = n ->
  fold_left (fun s x => cleared_for dt x s) (map name cs) (keep_rows m df) =
  keep_rows (and_mask m (rows_mask dt cs n)) df.
Proof.
  induction cs as [|c cs IH]; intros m Hfind Hcells Hlen; cbn [map fold_left rows_mask].
  - subst n. rewrite and_mask_true_r. reflexivity.
  - rewrite cleared_for_keep_rows by (apply Hfind; left; reflexivity).
    assert (Hf' : forall c0, In c0 cs -> find_column (columns df) (name c0) = Some c0)
      by (intros; apply Hfind; right; assumption).
    assert (Hc' : forall c0, In c0 cs -> List.length (cells c0) = n)
      by (intros; apply Hcells; right; assumption).
    destruct (String.eqb (dtype c) dt).
    + rewrite IH; auto.
      * rewrite and_mask_assoc. reflexivity.
      * apply and_mask_length; [exact Hlen|].
        rewrite length_map. apply Hcells. left. reflexivity.
    + rewrite Hlen. rewrite <- Hlen at 1. rewrite and_mask_true_r. apply IH; auto.
Qed.

Lemma clear_numeric_nan_fold (df : DataFrame) :
  exists out,
    Lib.clear_numeric_nan df =
    (out, Ok (fold_left (fun s x => cleared_for "float64" x s) (names df) df)).
Proof. exact (clear_numeric_nan_result df). Qed.

Lemma find_own_columns (df : DataFrame) :
  NoDup (names df) ->
  forall c, In c (columns df) -> find_column (columns df) (name c) = Some c.
Proof. intros Hnd c Hc. apply find_column_nodup; assumption. Qed.

Lemma loop_rows dt (df : DataFrame) :
  well_formed df -> NoDup (names df) ->
  fold_left (fun s x => cleared_for dt x s) (names df) df =
  keep_rows (rows_mask dt (columns df) (List.length (index df))) df.
Proof.
  intros Hwf Hnd.
  transitivity (fold_left (fun s x => cleared_for dt x s) (map name (columns df))
                          (keep_rows (repeat true (List.length (index df))) df)).
  { rewrite keep_rows_all by exact Hwf. reflexivity. }
  rewrite (loop_keep_rows dt df (List.length (index df))).
  - rewrite and_mask_true_l by apply rows_mask_length. reflexivity.
  - apply find_own_columns, Hnd.
  - intros c Hc. unfold well_formed in Hwf. rewrite Forall_forall in Hwf. apply Hwf, Hc.
  - apply repeat_length.
Qed.

Lemma and_mask_notna_nth (l : list cell) : forall (r : list bool) (i : nat) (b : bool),
  (i < List.length l)%nat -> nth_error r i = Some b ->
  nth_error (and_mask (map notna l) r) i = Some (notna (nth i l None) && b).
Proof.
  induction l as [|x l IH]; intros r i b Hi Hr; cbn [List.length] in Hi; [lia|].
  destruct r as [|y r]; [destruct i; discriminate|].
  destruct i as [|i]; cbn [map and_mask nth_error nth] in *.
  - inversion Hr. reflexivity.
  - apply IH; [lia|exact Hr].
Qed.

(** What [rows_mask] says row by row. *)
Lemma rows_mask_row dt (n : nat) : forall (cols : list column) (i : nat),
  (forall c, In c cols -> List.length (cells c) = n) ->
  (i < n)%nat ->
  nth_error (rows_mask dt cols n) i =
  Some (forallb (fun c => negb (String.eqb (dtype c) dt) || notna (nth i (cells c) None)) cols).
Proof.
  induction cols as [|c cols IH]; intros i Hlen Hi; cbn [rows_mask forallb].
  - rewrite nth_error_repeat by exact Hi. reflexivity.
  - assert (Hc : List.length (cells c) = n) by (apply Hlen; left; reflexivity).
    assert (IH' := IH i (fun c0 H0 => Hlen c0 (or_intror H0)) Hi).
    destruct (String.eqb (dtype c) dt); cbn [negb orb]; [|exact IH'].
    apply and_mask_notna_nth; [lia|exact IH'].
Qed.

Lemma rows_mask_full dt (n : nat) : forall (cols : list column),
  (forall c, In c cols -> List.length (cells c) = n) ->
  List.length (rows_mask dt cols n) = n.
Proof.
  induction cols as [|c cols IH]; intro Hlen; cbn [rows_mask].
  - apply repeat_length.
  - assert (IH' := IH (fun c0 H0 => Hlen c0 (or_intror H0))).
    destruct (String.eqb (dtype c) dt); [|exact IH'].
    apply and_mask_length; [|exact IH'].
    rewrite length_map. apply Hlen. left. reflexivity.
Qed.

(** [clear_numeric_nan] keeps exactly the rows in which every [float64]
    column has a value: columns, their order and the order of the rows
    stay, and a missing value in a column of another type removes no row. *)
Theorem clear_numeric_nan_rows (df : DataFrame)
  (Hwf : well_formed df) (Hnames : NoDup (names df)) :
  exists out mask,
    Lib.clear_numeric_nan df = (out, Ok (keep_rows mask df)) /\
    List.length mask = List.length (index df) /\
    forall i, (i < List.length (index df))%nat ->
              nth_error mask i = Some (row_complete "float64" (columns df) i).
Proof.
  destruct (clear_numeric_nan_fold df) as [out H]. exists out.
  exists (rows_mask "float64" (columns df) (List.length (index df))).
  assert (Hlen : forall c, In c (columns df) -> List.length (cells c) = List.length (index df)).
  { unfold well_formed in Hwf. rewrite Forall_forall in Hwf. exact Hwf. }
  split; [|split].
  - rewrite H, loop_rows by assumption. reflexivity.
  - apply rows_mask_full, Hlen.
  - intros i Hi. apply rows_mask_row; assumption.
Qed.

Ltac frame_shape :=
  match goal with
  | |- well_formed _ => repeat constructor
  | |- NoDup _ => vm_compute; repeat (constructor; [cbn [In]; intuition discriminate|]); constructor
  end.

Lemma clear_numeric_nan_rows_witness :
  exists out mask,
    Lib.clear_numeric_nan gappy = (out, Ok (keep_rows mask gappy)) /\
    List.length mask = List.length (index gappy) /\
    forall i, (i < List.length (index gappy))%nat ->
              nth_error mask i = Some (row_complete "float64" (columns gappy) i).
Proof. apply (clear_numeric_nan_rows gappy); frame_shape. Defined.

Lemma clean_dataframe_steps (df : DataFrame) (cp : Q) :
  exists out1,
    Lib.clean_dataframe df cp =
    (let r := Lib.clear_numeric_nan
                (dropna_columns df (Lib.threshold cp (Lib.nrows df))) in
     (out1 ++ fst r, snd r)).
Proof.
  unfold Lib.clean_dataframe.
  set (na_free := dropna_columns df (Lib.threshold cp (Lib.nrows df))).
  eexists. rewrite for_each_print. unfold print. rewrite !bind_ok. cbn [fst snd].
  cbv zeta. rewrite !app_assoc. reflexivity.
Qed.

Lemma well_formed_dropna (df : DataFrame) th :
  well_formed df -> well_formed (dropna_columns df th).
Proof.
  unfold well_formed, dropna_columns. cbn [index columns]. intro H.
  rewrite Forall_forall in *. intros c Hc. apply filter_In in Hc. apply H, Hc.
Qed.



Lemma threshold_zero (n : Z) : Lib.threshold 0 n = n.
Proof.
  unfold Lib.threshold.
  rewrite (Qceiling_comp ((1 - 0) * inject_Z n) (inject_Z n)) by ring.
  apply Qceiling_Z.
Qed.

Lemma threshold_full (cp : Q) (n : Z) :
  (1 <= cp)%Q -> (0 <= n)%Z -> (Lib.threshold cp n <= 0)%Z.
Proof.
  intros Hcp Hn. unfold Lib.threshold.
  change 0%Z with (Qceiling 0). apply Qceiling_resp_le.
  assert (H1 : (0 <= cp - 1)%Q).
  { unfold Qminus. rewrite <- Qle_minus_iff. exact Hcp. }
  assert (H2 : (0 <= inject_Z n)%Q).
  { change 0%Q with (inject_Z 0). rewrite <- Zle_Qle. exact Hn. }
  pose proof (Qmult_le_0_compat _ _ H1 H2) as H3.
  setoid_replace ((1 - cp) * inject_Z n)%Q with (- ((cp - 1) * inject_Z n))%Q by ring.
  apply Qopp_le_compat in H3. exact H3.
Qed.

Lemma filter_full_length {A} (f : A -> bool) (l : list A) :
  List.length (filter f l) = List.length l -> forallb f l = true.
Proof.
  induction l as [|x l IH]; [reflexivity|]. cbn [filter forallb List.length].
  destruct (f x); cbn [List.length andb].
  - intro H. apply IH. lia.
  - intro H. pose proof (filter_length_le f l). lia.
Qed.

Lemma forallb_filter_id {A} (f : A -> bool) (l : list A) :
  forallb f l = true -> filter f l = l.
Proof.
  induction l as [|x l IH]; [reflexivity|]. cbn [filter forallb].
  destruct (f x); [|discriminate]. intro H. rewrite IH by exact H. reflexivity.
Qed.

Lemma complete_iff_count (c : column) (n : nat) :
  List.length (cells c) = n ->
  (Z.of_nat n <=? count_notna c)%Z = forallb notna (cells c).
Proof.
  intro Hlen. unfold count_notna.
  destruct (forallb notna (cells c)) eqn:E.
  - apply Z.leb_le. rewrite forallb_filter_id by exact E. lia.
  - apply Z.leb_gt.
    pose proof (filter_length_le notna (cells c)) as Hle.
    destruct (Nat.eq_dec (List.length (filter notna (cells c))) (List.length (cells c))) as [Heq|Hne].
    + apply filter_full_length in Heq. congruence.
    + lia.
Qed.

Lemma rows_mask_complete dt (n : nat) : forall (cols : list column),
  (forall c, In c cols -> List.length (cells c) = n) ->
  (forall c, In c cols -> String.eqb (dtype c) dt = true -> forallb notna (cells c) = true) ->
  rows_mask dt cols n = repeat true n.
Proof.
  induction cols as [|c cols IH]; intros Hlen Hfull; cbn [rows_mask]; [reflexivity|].
  rewrite IH; [|intros c0 H0; apply Hlen; right; exact H0
               |intros c0 H0; apply Hfull; right; exact H0].
  destruct (String.eqb (dtype c) dt) eqn:E; [|reflexivity].
  assert (Hc : forallb notna (cells c) = true) by (apply Hfull; [left; reflexivity|exact E]).
  assert (Hl : List.length (cells c) = n) by (apply Hlen; left; reflexivity).
  subst n. revert Hc. generalize (cells c) as l. clear.
  induction l as [|x l IH]; [reflexivity|]. cbn [forallb map List.length repeat and_mask].
  intro H. apply andb_true_iff in H. destruct H as [Hx Hl].
  rewrite Hx, IH by exact Hl. reflexivity.
Qed.

(** With a tolerance of 0 a column stays only if it has no missing value
    at all, and then no row is removed: the result is the input restricted
    to its complete columns. *)
Theorem zero_tolerance_keeps_complete_columns (df : DataFrame)
  (Hwf : well_formed df) (Hnames : NoDup (names df)) :
  exists out,
    Lib.clean_dataframe df 0 =
    (out, Ok (Frame (index df) (filter (fun c => forallb notna (cells c)) (columns df)))).
Proof.
  destruct (clean_dataframe_steps df 0) as [out1 Hsteps].
  unfold Lib.nrows in Hsteps. rewrite threshold_zero in Hsteps.
  set (na_free := dropna_columns df (Z.of_nat (List.length (index df)))) in *.
  assert (Hlen : forall c, In c (columns df) -> List.length (cells c) = List.length (index df)).
  { unfold well_formed in Hwf. rewrite Forall_forall in Hwf. exact Hwf. }
  assert (Hfree : na_free =
                  Frame (index df) (filter (fun c => forallb notna (cells c)) (columns df))).
  { unfold na_free, dropna_columns. f_equal. apply filter_ext_in.
    intros c Hc. apply complete_iff_count, Hlen, Hc. }
  assert (Hwf' : well_formed na_free) by apply well_formed_dropna, Hwf.
  assert (Hnd' : NoDup (names na_free)) by apply NoDup_names_filter, Hnames.
  destruct (clear_numeric_nan_fold na_free) as [out2 H2].
  rewrite loop_rows in H2 by assumption.
  rewrite rows_mask_complete in H2.
  - rewrite keep_rows_all in H2 by exact Hwf'.
    exists (out1 ++ out2). rewrite Hsteps, H2, Hfree. reflexivity.
  - unfold well_formed in Hwf'. rewrite Forall_forall in Hwf'. exact Hwf'.
  - intros c Hc _. rewrite Hfree in Hc. cbn [columns] in Hc.
    apply filter_In in Hc. apply Hc.
Qed.

Lemma zero_tolerance_keeps_complete_columns_witness :
  exists out,
    Lib.clean_dataframe gappy 0 =
    (out, Ok (Frame (index gappy) (filter (fun c => forallb notna (cells c)) (columns gappy)))).
Proof. apply (zero_tolerance_keeps_complete_columns gappy); frame_shape. Defined.

Lemma filter_by_none {A} (m : list bool) : forall (l : list A),
  Forall (fun b => b = false) m -> filter_by m l = [].
Proof.
  induction m as [|x m IH]; intros [|z l] H; try reflexivity.
  inversion H; subst. cbn [filter_by]. apply IH. assumption.
Qed.

Lemma and_mask_false_l (a b : list bool) :
  Forall (fun x => x = false) a -> Forall (fun x => x = false) (and_mask a b).
Proof.
  revert b. induction a as [|x a IH]; intros [|y b] H; cbn [and_mask]; try constructor.
  - inversion H; subst. reflexivity.
  - inversion H; subst. apply IH. assumption.
Qed.

Lemma and_mask_false_r (a b : list bool) :
  Forall (fun x => x = false) b -> Forall (fun x => x = false) (and_mask a b).
Proof.
  revert b. induction a as [|x a IH]; intros [|y b] H; cbn [and_mask]; try constructor.
  - inversion H; subst. apply andb_false_r.
  - inversion H; subst. apply IH. assumption.
Qed.

Lemma rows_mask_none dt (n : nat) (c : column) : forall (cols : list column),
  In c cols -> String.eqb (dtype c) dt = true ->
  forallb (fun x => negb (notna x)) (cells c) = true ->
  Forall (fun b => b = false) (rows_mask dt cols n).
Proof.
  induction cols as [|c0 cols IH]; intros Hin Hd Hnone; [destruct Hin|].
  cbn [rows_mask]. destruct Hin as [->|Hin].
  - rewrite Hd. apply and_mask_false_l.
    revert Hnone. generalize (cells c) as l. clear.
    induction l as [|x l IH]; cbn [forallb map]; [constructor|].
    intro H. apply andb_true_iff in H. destruct H as [Hx Hl].
    constructor; [apply negb_true_iff, Hx|apply IH, Hl].
  - destruct (String.eqb (dtype c0) dt); [apply and_mask_false_r|]; apply IH; assumption.
Qed.



Lemma not_in_own_index (l : list nat) :
  filter (fun i => negb (existsb (Nat.eqb i) l)) l = [].
Proof.
  assert (G : forall l0, (forall x, In x l0 -> In x l) ->
                         filter (fun i => negb (existsb (Nat.eqb i) l)) l0 = []).
  { induction l0 as [|x l0 IH]; intro H; [reflexivity|]. cbn [filter].
    assert (E : existsb (Nat.eqb x) l = true).
    { apply existsb_exists. exists x. split; [apply H; left; reflexivity|apply Nat.eqb_refl]. }
    rewrite E. cbn [negb]. apply IH. intros y Hy. apply H. right. exact Hy. }
  apply G. auto.
Qed.

Lemma notna_mask_full (l : list cell) :
  forallb notna l = true -> map notna l = repeat true (List.length l).
Proof.
  induction l as [|x l IH]; [reflexivity|]. cbn [forallb map List.length repeat].
  intro H. apply andb_true_iff in H. destruct H as [Hx Hl].
  rewrite Hx, IH by exact Hl. reflexivity.
Qed.

Lemma clear_column_complete (df : DataFrame) (label : string) :
  well_formed df -> In label (names df) ->
  (forall c, In c (columns df) -> dtype c = "float64" -> forallb notna (cells c) = true) ->
  Lib.clear_column label df = ret df.
Proof.
  intros Hwf Hin Hfull. unfold Lib.clear_column, get_column.
  destruct (find_column_in _ _ Hin) as [c Hc]. rewrite Hc, bind_ret.
  destruct (String.eqb (dtype c) "float64") eqn:E; [|reflexivity].
  apply String.eqb_eq in E.
  destruct (find_column_name _ _ _ Hc) as [_ Hcin].
  unfold dropna_subset, get_column. rewrite Hc, !bind_ret.
  rewrite notna_mask_full by (apply Hfull; assumption).
  assert (Hlen : List.length (cells c) = List.length (index df)).
  { unfold well_formed in Hwf. rewrite Forall_forall in Hwf. apply Hwf, Hcin. }
  rewrite Hlen, keep_rows_all by exact Hwf.
  rewrite not_in_own_index. cbn [List.length Nat.eqb negb]. rewrite !bind_ret. reflexivity.
Qed.

Lemma clear_complete_frame (df : DataFrame) :
  well_formed df ->
  (forall c, In c (columns df) -> dtype c = "float64" -> forallb notna (cells c) = true) ->
  Lib.clear_numeric_nan df = ([newline +++ newline], Ok df).
Proof.
  intros Hwf Hfull.
  unfold Lib.clear_numeric_nan.
  assert (G : forall labels, (forall l, In l labels -> In l (names df)) ->
                             for_each labels Lib.clear_column df = ret df).
  { induction labels as [|l labels IH]; intro H; [reflexivity|].
    cbn [for_each]. rewrite clear_column_complete; auto.
    - rewrite bind_ret. apply IH. intros l0 H0. apply H. right. exact H0.
    - apply H. left. reflexivity. }
  rewrite G by auto. rewrite bind_ret. reflexivity.
Qed.

(** A frame without a missing numeric value goes through
    [clear_numeric_nan] unchanged, and only the closing blank lines are
    printed. *)
Theorem clear_numeric_nan_complete (df : DataFrame)
  (Hwf : well_formed df)
  (Hfull : forall c, In c (columns df) -> dtype c = "float64" ->
                     forallb notna (cells c) = true) :
  Lib.clear_numeric_nan df = ([newline +++ newline], Ok df).
Proof. apply clear_complete_frame; assumption. Qed.

Lemma clear_numeric_nan_complete_witness :
  Lib.clear_numeric_nan one_class_table = ([newline +++ newline], Ok one_class_table).
Proof.
  apply (clear_numeric_nan_complete one_class_table); [frame_shape|].
  intros c Hc _. cbn in Hc. repeat (destruct Hc as [<-|Hc]; [reflexivity|]). destruct Hc.
Defined.

Lemma filter_by_same_length {A B} (m : list bool) : forall (l1 : list A) (l2 : list B),
  List.length l1 = List.length l2 ->
  List.length (filter_by m l1) = List.length (filter_by m l2).
Proof.
  induction m as [|x m IH]; intros [|a l1] [|b l2] H; try reflexivity; try discriminate.
  cbn [filter_by]. cbn [List.length] in H.
  destruct x; cbn [List.length]; rewrite (IH l1 l2) by lia; reflexivity.
Qed.

Lemma well_formed_keep_rows (m : list bool) (df : DataFrame) :
  well_formed df -> well_formed (keep_rows m df).
Proof.
  unfold well_formed, keep_rows. cbn [index columns]. intro H.
  rewrite Forall_forall in *. intros c Hc. apply in_map_iff in Hc.
  destruct Hc as [c0 [<- Hc0]]. cbn [cells]. apply filter_by_same_length, H, Hc0.
Qed.

(** Running [clear_numeric_nan] on its own result changes nothing. *)
Theorem clear_numeric_nan_twice (df : DataFrame)
  (Hwf : well_formed df) (Hnames : NoDup (names df)) :
  exists out df',
    Lib.clear_numeric_nan df = (out, Ok df') /\
    Lib.clear_numeric_nan df' = ([newline +++ newline], Ok df').
Proof.
  destruct (clear_numeric_nan_result df) as [out H].
  exists out. eexists. split; [exact H|].
  set (df' := fold_left (fun s x => cleared x s) (names df) df).
  apply clear_complete_frame.
  - unfold df'. change (fun s x => cleared x s) with (fun s x => cleared_for "float64" x s).
    rewrite loop_rows by assumption. apply well_formed_keep_rows, Hwf.
  - intros c Hc Hd.
    assert (Hnd : NoDup (names df')) by (unfold df'; rewrite names_after_loop; exact Hnames).
    pose proof (find_column_nodup _ _ Hnd Hc) as Hfind.
    assert (Hclean : clean_at (name c) df').
    { apply clean_after_loop. left.
      rewrite <- (names_after_loop (names df) df). apply in_map, Hc. }
    apply forallb_forall. intros x Hx.
    specialize (Hclean c Hfind Hd). rewrite Forall_forall in Hclean. apply Hclean, Hx.
Qed.

Lemma clear_numeric_nan_twice_witness :
  exists out df',
    Lib.clear_numeric_nan gappy = (out, Ok df') /\
    Lib.clear_numeric_nan df' = ([newline +++ newline], Ok df').
Proof. apply (clear_numeric_nan_twice gappy); frame_shape. Defined.

(** ** The other helpers of [lib.py] *)

Lemma clear_categorical_column_cleared label df :
  In label (names df) ->
  exists out, Lib.clear_categorical_column label df = (out, Ok (cleared_for "object" label df)).
Proof.
  intro Hin. unfold Lib.clear_categorical_column, cleared_for, get_column.
  destruct (find_column_in _ _ Hin) as [c Hc]. rewrite Hc, bind_ret.
  destruct (String.eqb (dtype c) "object"); [|exists []; reflexivity].
  unfold dropna_subset, get_column. rewrite Hc, !bind_ret.
  match goal with |- context [if ?b then _ else _] => destruct b end.
  - eexists. unfold print. rewrite bind_ok. cbn [fst snd]. reflexivity.
  - exists []. reflexivity.
Qed.

Lemma names_cleared_for dt label df : names (cleared_for dt label df) = names df.
Proof.
  unfold cleared_for. destruct (find_column _ _) as [c|]; [|reflexivity].
  destruct (String.eqb _ _); [apply names_keep_rows|reflexivity].
Qed.

(** [clear_categorical_nan] keeps exactly the rows in which every
    [object] column has a value; numeric columns play no role. *)
Theorem clear_categorical_nan_rows (df : DataFrame)
  (Hwf : well_formed df) (Hnames : NoDup (names df)) :
  exists out mask,
    Lib.clear_categorical_nan df = (out, Ok (keep_rows mask df)) /\
    List.length mask = List.length (index df) /\
    forall i, (i < List.length (index df))%nat ->
              nth_error mask i = Some (row_complete "object" (columns df) i).
Proof.
  assert (H : exists out,
             Lib.clear_categorical_nan df =
             (out, Ok (fold_left (fun s x => cleared_for "object" x s) (names df) df))).
  { unfold Lib.clear_categorical_nan.
    destruct (for_each_pure Lib.clear_categorical_column (cleared_for "object")
                (fun s => names s = names df)) with (l := names df) (s := df) as [out H].
    - intros x s Hs. rewrite names_cleared_for. exact Hs.
    - intros x s Hx Hs. apply clear_categorical_column_cleared. rewrite Hs. exact Hx.
    - reflexivity.
    - rewrite H, bind_ok. eexists. cbn [fst snd print bind ret]. reflexivity. }
  destruct H as [out H]. exists out.
  exists (rows_mask "object" (columns df) (List.length (index df))).
  assert (Hlen : forall c, In c (columns df) -> List.length (cells c) = List.length (index df)).
  { unfold well_formed in Hwf. rewrite Forall_forall in Hwf. exact Hwf. }
  split; [|split].
  - rewrite H, loop_rows by assumption. reflexivity.
  - apply rows_mask_full, Hlen.
  - intros i Hi. apply rows_mask_row; assumption.
Qed.

Lemma clear_categorical_nan_rows_witness :
  exists out mask,
    Lib.clear_categorical_nan gappy = (out, Ok (keep_rows mask gappy)) /\
    List.length mask = List.length (index gappy) /\
    forall i, (i < List.length (index gappy))%nat ->
              nth_error mask i = Some (row_complete "object" (columns gappy) i).
Proof. apply (clear_categorical_nan_rows gappy); frame_shape. Defined.

Lemma value_eqb_eq (a b : value) : value_eqb a b = true <-> a = b.
Proof.
  destruct a, b; cbn [value_eqb]; try (split; [discriminate|intro H; inversion H]).
  - rewrite String.eqb_eq. split; [intros ->; reflexivity|intro H; inversion H; reflexivity].
  - rewrite String.eqb_eq. split; [intros ->; reflexivity|intro H; inversion H; reflexivity].
Qed.

Lemma cell_eqb_eq (a b : cell) : cell_eqb a b = true <-> a = b.
Proof.
  destruct a as [a|], b as [b|]; cbn [cell_eqb]; try (split; [discriminate|intro H; inversion H]).
  - rewrite value_eqb_eq. split; [intros ->; reflexivity|intro H; inversion H; reflexivity].
  - split; reflexivity.
Qed.

(** A cell seen before is skipped, so the first cell with a property is
    also the first distinct cell with it. *)
Lemma unique_first (p : cell -> bool) : forall (l seen : list cell),
  (forall s, In s seen -> p s = false) ->
  hd_error (filter p (unique_acc seen l)) = find p l.
Proof.
  induction l as [|x l IH]; intros seen Hseen; [reflexivity|].
  cbn [unique_acc find]. destruct (existsb (cell_eqb x) seen) eqn:E.
  - apply existsb_exists in E. destruct E as [s [Hs Hxs]].
    apply cell_eqb_eq in Hxs. subst s. rewrite (Hseen x Hs). apply IH, Hseen.
  - cbn [filter]. destruct (p x) eqn:Px; [reflexivity|].
    apply IH. intros s [<-|Hs]; [exact Px|apply Hseen, Hs].
Qed.

Lemma py_index_head {A} (l : list A) :
  py_index l 0 = match hd_error l with Some a => ret a | None => raise IndexError end.
Proof. destruct l as [|a l]; [reflexivity|]. apply py_index_0. Qed.

(** [get_negative_class_value] gives the first cell of the class column
    that is not the string naming that column (a missing cell counts), and
    raises [IndexError] when there is none, as on an empty table. *)
Theorem negative_class_value_is_first_other
  (df : DataFrame) (class_attr : string) (col : column)
  (Hattr : Lib.get_class_attr df = ret class_attr)
  (Hcol : get_column df class_attr = ret col) :
  Lib.get_negative_class_value df =
  match find (fun i => negb (cell_eqb i (Some (Str class_attr)))) (cells col) with
  | Some v => ret v
  | None => raise IndexError
  end.
Proof.
  unfold Lib.get_negative_class_value. rewrite Hattr, bind_ret, Hcol, bind_ret.
  rewrite py_index_head. unfold unique. rewrite unique_first; [reflexivity|].
  intros s [].
Qed.

Lemma negative_class_value_is_first_other_witness :
  Lib.get_negative_class_value no_id_table =
  match find (fun i => negb (cell_eqb i (Some (Str "outcome"))))
             [Some (Str "paid"); Some (Str "NO_paid")] with
  | Some v => ret v
  | None => raise IndexError
  end.
Proof.
  apply (negative_class_value_is_first_other no_id_table "outcome"
           (Column "outcome" "object" [Some (Str "paid"); Some (Str "NO_paid")]));
    reflexivity.
Defined.

Lemma unique_exists (p : cell -> bool) : forall (l seen : list cell),
  (forall s, In s seen -> p s = false) ->
  existsb p (unique_acc seen l) = existsb p l.
Proof.
  induction l as [|x l IH]; intros seen Hseen; [reflexivity|].
  cbn [unique_acc existsb]. destruct (existsb (cell_eqb x) seen) eqn:E.
  - apply existsb_exists in E. destruct E as [s [Hs Hxs]].
    apply cell_eqb_eq in Hxs. subst s. rewrite (Hseen x Hs). apply IH, Hseen.
  - cbn [existsb]. destruct (p x) eqn:Px; [reflexivity|].
    apply IH. intros s [<-|Hs]; [exact Px|apply Hseen, Hs].
Qed.

Lemma filter_nonempty {A} (p : A -> bool) (l : list A) :
  match filter p l with [] => false | _ => true end = existsb p l.
Proof.
  induction l as [|x l IH]; [reflexivity|]. cbn [filter existsb].
  destruct (p x); [reflexivity|exact IH].
Qed.

(** [contains_val] never looks at the attribute and the value it is
    given: it tells whether some cell of the class column is the string
    that names the class column. *)
Theorem contains_val_ignores_arguments
  (df : DataFrame) (class_attr : string) (col : column)
  (Hattr : Lib.get_class_attr df = ret class_attr)
  (Hcol : get_column df class_attr = ret col) :
  forall attr val,
    Lib.contains_val df attr val =
    ret (existsb (fun i => cell_eqb i (Some (Str class_attr))) (cells col)).
Proof.
  intros attr val. unfold Lib.contains_val. rewrite Hattr, bind_ret, Hcol, bind_ret.
  rewrite filter_nonempty. unfold unique. rewrite unique_exists; [reflexivity|].
  intros s [].
Qed.

Lemma contains_val_ignores_arguments_witness :
  Lib.contains_val no_id_table "age" (Some (Num "31.0")) =
  ret (existsb (fun i => cell_eqb i (Some (Str "outcome")))
               [Some (Str "paid"); Some (Str "NO_paid")]).
Proof.
  apply (contains_val_ignores_arguments no_id_table "outcome"
           (Column "outcome" "object" [Some (Str "paid"); Some (Str "NO_paid")]));
    reflexivity.
Defined.

(** ** Tree extraction on any tree *)

Section TreeWalk.

Import TreeExtractor TreeSpec.

Variable float64 : Type.
Variable format_float : float64 -> string.
Variable tree_ : Tree float64.
Variable features : list feature_desc.
Variables (neg pos : string) (rest : list cell).
Variable dd : domain_table.

Let fn := map (described fname features) (feature tree_).
Let ft := map (described ftype features) (feature tree_).
Let cd := Some (Str neg) :: Some (Str pos) :: rest.

Lemma recurse_walk : forall (t : dtree float64) fuel node depth init last,
  represents tree_ features node t -> (height t < fuel)%nat ->
  recurse format_float tree_ fn ft cd fuel node depth (init ++ [last]) dd =
  stopped (walk format_float dd neg pos t (init ++ [last])).
Proof.
  induction t as [vote|name type thr l IHl r IHr]; intros fuel node depth init last Hrep Hfuel.
  - destruct fuel as [|fuel]; [lia|].
    destruct Hrep as [Hleaf [others Hvote]].
    unfold cd. rewrite (recurse_leaf float64 format_float tree_ fn ft neg pos rest fuel node depth
                          init last dd vote others Hleaf Hvote).
    reflexivity.
  - destruct fuel as [|fuel]; [cbn [height] in Hfuel; lia|].
    cbn [height] in Hfuel. cbn [represents] in Hrep.
    destruct Hrep as (f & nl & nr & Hf & Hsplit & Hfeat & Hthr & Hl & Hr & Hrl & Hrr).
    assert (Hname : py_index fn node = ret name).
    { unfold fn. rewrite (py_index_map _ _ _ _ Hf).
      rewrite (described_split fname features f _ Hsplit Hfeat). reflexivity. }
    assert (Htype : py_index ft node = ret type).
    { unfold ft. rewrite (py_index_map _ _ _ _ Hf).
      rewrite (described_split ftype features f _ Hsplit Hfeat). reflexivity. }
    rewrite (recurse_enter float64 format_float tree_ fn ft cd fuel node depth (init ++ [last]) dd
               f name type thr nl nr Hf Hsplit Hname Htype Hthr Hl Hr).
    cbn [walk]. unfold left_antecedent, right_antecedent.
    assert (Hboth : forall la ra,
      (recurse format_float tree_ fn ft cd fuel nl (depth + 1) ((init ++ [last]) ++ [la]) dd ;;
       recurse format_float tree_ fn ft cd fuel nr (depth + 1) ((init ++ [last]) ++ [ra]) dd) =
      stopped (match walk format_float dd neg pos l ((init ++ [last]) ++ [la]) with
               | (out, Some e) => (out, Some e)
               | (out, None) =>
                   (out ++ fst (walk format_float dd neg pos r ((init ++ [last]) ++ [ra])),
                    snd (walk format_float dd neg pos r ((init ++ [last]) ++ [ra])))
               end)).
    { intros la ra.
      rewrite (IHl fuel nl _ (init ++ [last]) la Hrl) by lia.
      rewrite (IHr fuel nr _ (init ++ [last]) ra Hrr) by lia.
      destruct (walk format_float dd neg pos l ((init ++ [last]) ++ [la])) as [o1 [e1|]];
        unfold stopped; cbn [fst snd bind]; [reflexivity|].
      destruct (walk format_float dd neg pos r ((init ++ [last]) ++ [ra])) as [o2 [e2|]];
        reflexivity. }
    destruct (String.eqb type "float64").
    + apply Hboth.
    + destruct (String.eqb type "int64"); [|reflexivity].
      unfold Dict.lookup. destruct (Dict.get dd name) as [d|]; [|reflexivity].
      rewrite !bind_ret. apply Hboth.
Qed.

Lemma tree_to_ruleset_walk name type thr l r fuel :
  let t := DNode name type thr l r in
  features_defined tree_ features ->
  represents tree_ features 0 t -> (height t < fuel)%nat ->
  tree_to_ruleset format_float fuel tree_ features cd dd =
  stopped (walk format_float dd neg pos t []).
Proof.
  intros t Hdef Hrep Hfuel. unfold tree_to_ruleset.
  rewrite !per_node_defined, !bind_ret by exact Hdef. fold fn. fold ft.
  destruct fuel as [|fuel]; [lia|]. unfold t in *. cbn [height] in Hfuel.
  cbn [represents] in Hrep.
  destruct Hrep as (f & nl & nr & Hf & Hsplit & Hfeat & Hthr & Hl & Hr & Hrl & Hrr).
  assert (Hname : py_index fn 0 = ret name).
  { unfold fn. rewrite (py_index_map _ _ _ _ Hf).
    rewrite (described_split fname features f _ Hsplit Hfeat). reflexivity. }
  assert (Htype : py_index ft 0 = ret type).
  { unfold ft. rewrite (py_index_map _ _ _ _ Hf).
    rewrite (described_split ftype features f _ Hsplit Hfeat). reflexivity. }
  rewrite (recurse_enter float64 format_float tree_ fn ft cd fuel 0 1 [] dd
             f name type thr nl nr Hf Hsplit Hname Htype Hthr Hl Hr).
  cbn [walk]. unfold left_antecedent, right_antecedent.
  assert (Hboth : forall la ra,
    (recurse format_float tree_ fn ft cd fuel nl (1 + 1) ([] ++ [la]) dd ;;
     recurse format_float tree_ fn ft cd fuel nr (1 + 1) ([] ++ [ra]) dd) =
    stopped (match walk format_float dd neg pos l ([] ++ [la]) with
             | (out, Some e) => (out, Some e)
             | (out, None) =>
                 (out ++ fst (walk format_float dd neg pos r ([] ++ [ra])),
                  snd (walk format_float dd neg pos r ([] ++ [ra])))
             end)).
  { intros la ra.
    rewrite (recurse_walk l fuel nl _ [] la Hrl) by lia.
    rewrite (recurse_walk r fuel nr _ [] ra Hrr) by lia.
    destruct (walk format_float dd neg pos l ([] ++ [la])) as [o1 [e1|]];
      unfold stopped; cbn [fst snd bind]; [reflexivity|].
    destruct (walk format_float dd neg pos r ([] ++ [ra])) as [o2 [e2|]]; reflexivity. }
  destruct (String.eqb type "float64").
  + apply Hboth.
  + destruct (String.eqb type "int64"); [|reflexivity].
    unfold Dict.lookup. destruct (Dict.get dd name) as [d|]; [|reflexivity].
    rewrite !bind_ret. apply Hboth.
Qed.

End TreeWalk.

Section TreeErrors.

Import TreeExtractor TreeSpec.

Lemma walk_supported (float64 : Type) (format_float : float64 -> string)
  (dd : domain_table) (neg pos : string) : forall (t : dtree float64) ants,
  supported dd t ->
  walk format_float dd neg pos t ants =
  (map (rule_line neg pos) (leaf_rules format_float dd t ants), None).
Proof.
  induction t as [vote|name type thr l IHl r IHr]; intros ants Hsup; [reflexivity|].
  destruct Hsup as [Htype [Hl Hr]]. cbn [walk leaf_rules].
  rewrite IHl, IHr by assumption. cbn [fst snd]. rewrite map_app.
  destruct Htype as [->|[-> [d Hd]]]; [reflexivity|].
  cbn [String.eqb Ascii.eqb Bool.eqb]. rewrite Hd. reflexivity.
Qed.





(** An [int64] split at the root on an attribute without an entry in
    [domain_decode] raises [KeyError] with the attribute's name before
    anything is printed. *)
Theorem int_split_without_entry_raises
  (float64 : Type) (format_float : float64 -> string) (tree_ : Tree float64)
  (features : list feature_desc) (class_attr_domain : list cell)
  (domain_decode : domain_table) (f : Z) (name : string) (thr : float64) (fuel : nat)
  (Hdef : features_defined tree_ features)
  (Hf : py_index (feature tree_) 0 = ret f)
  (Hsplit : f <> TREE_UNDEFINED)
  (Hfeat : py_index features f = ret (Feature name "int64"))
  (Hthr : py_index (threshold tree_) 0 = ret thr)
  (Hmissing : Dict.get domain_decode name = None) :
  tree_to_ruleset format_float (S fuel) tree_ features class_attr_domain domain_decode =
  ([], Raise (KeyError name)).
Proof.
  unfold tree_to_ruleset. rewrite !per_node_defined, !bind_ret by exact Hdef.
  cbn [recurse]. rewrite Hf, bind_ret.
  assert (E : negb (f =? TREE_UNDEFINED)%Z = true) by (apply negb_true_iff, Z.eqb_neq, Hsplit).
  rewrite E.
  rewrite (py_index_map _ _ _ _ Hf), bind_ret.
  rewrite (py_index_map _ _ _ _ Hf), bind_ret.
  rewrite !(described_split _ features f _ Hsplit Hfeat). cbn [fname ftype].
  rewrite Hthr, bind_ret. cbn [String.eqb Ascii.eqb Bool.eqb].
  unfold Dict.lookup. rewrite Hmissing. reflexivity.
Qed.

Lemma int_split_without_entry_raises_witness :
  tree_to_ruleset (fun x => x) (S 999) smoker_tree count_features iris_domain [] =
  ([], Raise (KeyError "visits")).
Proof.
  apply (int_split_without_entry_raises string (fun x => x) smoker_tree count_features
           iris_domain [] 0 "visits" "0.5" 999).
  - constructor; [right; eexists; reflexivity|].
    constructor; [left; reflexivity|]. constructor; [left; reflexivity|constructor].
  - reflexivity.
  - discriminate.
  - reflexivity.
  - reflexivity.
  - reflexivity.
Defined.

(** A fitted tree that is a single leaf makes [print_rule] pop an
    antecedent from a rule that has none: [IndexError], and no rule. *)
Theorem single_leaf_tree_raises
  (float64 : Type) (format_float : float64 -> string) (tree_ : Tree float64)
  (features : list feature_desc) (c0 c1 : cell) (rest : list cell)
  (domain_decode : domain_table) (vote : Q) (others : list Q) (fuel : nat)
  (Hdef : features_defined tree_ features)
  (Hleaf : py_index (feature tree_) 0 = ret TREE_UNDEFINED)
  (Hvote : py_index (value tree_) 0 = ret (vote :: others)) :
  tree_to_ruleset format_float (S fuel) tree_ features (c0 :: c1 :: rest) domain_decode =
  ([], Raise IndexError).
Proof.
  unfold tree_to_ruleset. rewrite !per_node_defined, !bind_ret by exact Hdef.
  cbn [recurse]. rewrite Hleaf, bind_ret.
  change (negb (TREE_UNDEFINED =? TREE_UNDEFINED)%Z) with false. cbv iota.
  rewrite Hvote, bind_ret, py_index_0, bind_ret.
  destruct (negb (Qeq_bool vote 0)).
  - rewrite py_index_0, bind_ret. reflexivity.
  - rewrite py_index_1, bind_ret. reflexivity.
Qed.

Lemma single_leaf_tree_raises_witness :
  tree_to_ruleset (fun x => x) (S 999) stump iris_features
                  (Some (Str "setosa") :: Some (Str "versicolor") :: []) [] =
  ([], Raise IndexError).
Proof.
  apply (single_leaf_tree_raises string (fun x => x) stump iris_features
           (Some (Str "setosa")) (Some (Str "versicolor")) [] [] (3 # 1) [3 # 1] 999).
  - constructor; [left; reflexivity|constructor].
  - reflexivity.
  - reflexivity.
Defined.

End TreeErrors.

(** ** The attribute codec *)

Lemma to_int_not_nil (z : Z) : Z.to_int z <> Decimal.Pos Decimal.Nil /\
                               Z.to_int z <> Decimal.Neg Decimal.Nil.
Proof.
  split; intro H; pose proof (f_equal Z.of_int H) as H'; rewrite DecimalZ.of_to in H';
    cbn in H'; subst z; discriminate H.
Qed.

Lemma str_int_inj (a b : Z) : PyStr.str_int a = PyStr.str_int b -> a = b.
Proof.
  unfold PyStr.str_int. intro H.
  apply DecimalZ.to_int_inj.
  destruct (to_int_not_nil a) as [Ha1 Ha2], (to_int_not_nil b) as [Hb1 Hb2].
  pose proof (NilZero.isi _ Ha1 Ha2) as Ia. pose proof (NilZero.isi _ Hb1 Hb2) as Ib.
  rewrite H in Ia. rewrite Ia in Ib. inversion Ib. reflexivity.
Qed.

Lemma append_inj_l (p a b : string) : p +++ a = p +++ b -> a = b.
Proof. induction p as [|c p IH]; cbn [append]; [auto|]. intro H. inversion H. auto. Qed.

Lemma append_inj_r (a b : string) (c : ascii) :
  a +++ String c "" = b +++ String c "" -> a = b.
Proof.
  revert b. induction a as [|x a IH]; intros [|y b]; cbn [append]; intro H.
  - reflexivity.
  - inversion H. destruct b; discriminate.
  - inversion H. destruct a; discriminate.
  - inversion H. f_equal. apply IH. assumption.
Qed.

Lemma token_inj (a b : Z) : Wittgenstein.token a = Wittgenstein.token b -> a = b.
Proof.
  unfold Wittgenstein.token. intro H.
  apply append_inj_l in H. apply append_inj_r in H. apply str_int_inj, H.
Qed.

Lemma set_absent {V} (d : Dict.t V) (k : string) (v : V) :
  ~ In k (Dict.keys d) -> Dict.set d k v = d ++ [(k, v)].
Proof.
  unfold Dict.keys. induction d as [|[k0 v0] d IH]; cbn [Dict.set map fst app In]; [reflexivity|].
  intro H. destruct (String.eqb k0 k) eqn:E.
  - apply String.eqb_eq in E. exfalso. apply H. left. exact E.
  - rewrite IH; [reflexivity|]. intro Hin. apply H. right. exact Hin.
Qed.

Lemma keys_combine (ks vs : list string) :
  List.length ks = List.length vs -> Dict.keys (combine ks vs) = ks.
Proof.
  unfold Dict.keys. revert vs. induction ks as [|k ks IH]; intros [|v vs] H;
    try reflexivity; try discriminate.
  cbn [combine map fst]. rewrite IH; [reflexivity|]. cbn [List.length] in H. lia.
Qed.

Lemma tokens_from_length i n : List.length (tokens_from i n) = n.
Proof. unfold tokens_from. rewrite length_map, length_seq. reflexivity. Qed.

Lemma encode_from_distinct : forall (attributes : list string) (i : nat) (enc : Dict.t string),
  NoDup attributes ->
  (forall a, In a attributes -> ~ In a (Dict.keys enc)) ->
  Wittgenstein.encode_from (Z.of_nat i) attributes enc =
  (enc ++ combine attributes (tokens_from i (List.length attributes)),
   Z.of_nat (i + List.length attributes)).
Proof.
  induction attributes as [|a attributes IH]; intros i enc Hnd Hfresh.
  - cbn. rewrite app_nil_r, Nat.add_0_r. reflexivity.
  - cbn [Wittgenstein.encode_from List.length].
    rewrite set_absent by (apply Hfresh; left; reflexivity).
    replace (Z.of_nat i + 1)%Z with (Z.of_nat (S i)) by lia.
    inversion Hnd as [|? ? Hnot Hnd']; subst.
    rewrite IH; [|exact Hnd'|].
    + unfold tokens_from. cbn [seq map combine]. rewrite <- app_assoc. cbn [app].
      f_equal. f_equal. lia.
    + intros b Hb Hin. unfold Dict.keys in Hin. rewrite map_app in Hin.
      apply in_app_or in Hin. destruct Hin as [Hin|[Hin|[]]].
      * apply (Hfresh b); [right; exact Hb|exact Hin].
      * cbn in Hin. subst b. apply Hnot, Hb.
Qed.

Lemma attribute_encode_by_position_aux (attributes : list string) :
  NoDup attributes ->
  Wittgenstein.attribute_encode attributes =
  (combine attributes (tokens_from 0 (List.length attributes)),
   Z.of_nat (List.length attributes)).
Proof.
  intro Hnames. unfold Wittgenstein.attribute_encode.
  change 0%Z with (Z.of_nat 0).
  rewrite (encode_from_distinct attributes 0 [] Hnames); [reflexivity|].
  intros a _ [].
Qed.

(** With distinct column names, the encoding gives the [k]-th name the
    token [X<k>X], counting from 0, and the next free index is the number
    of columns. *)
Theorem attribute_encode_by_position (attributes : list string)
  (Hnames : NoDup attributes) :
  Wittgenstein.attribute_encode attributes =
  (combine attributes (tokens_from 0 (List.length attributes)),
   Z.of_nat (List.length attributes)).
Proof. apply attribute_encode_by_position_aux, Hnames. Qed.

Lemma attribute_encode_by_position_witness :
  Wittgenstein.attribute_encode sample_attributes =
  (combine sample_attributes (tokens_from 0 (List.length sample_attributes)),
   Z.of_nat (List.length sample_attributes)).
Proof.
  apply (attribute_encode_by_position sample_attributes).
  vm_compute. repeat (constructor; [cbn [In]; intuition discriminate|]). constructor.
Defined.

Lemma tokens_from_fresh (i n k : nat) :
  (k < i)%nat -> ~ In (Wittgenstein.token (Z.of_nat k)) (tokens_from i n).
Proof.
  intros Hk Hin. unfold tokens_from in Hin. apply in_map_iff in Hin.
  destruct Hin as [j [Hj Hin]]. apply token_inj in Hj. apply in_seq in Hin. lia.
Qed.

Lemma tokens_from_NoDup : forall (n i : nat), NoDup (tokens_from i n).
Proof.
  induction n as [|n IH]; intro i; [constructor|].
  change (tokens_from i (S n)) with (Wittgenstein.token (Z.of_nat i) :: tokens_from (S i) n).
  constructor; [apply tokens_from_fresh; lia|apply IH].
Qed.

Lemma invert_from : forall (ks vs : list string) (acc : Dict.t string),
  List.length ks = List.length vs -> NoDup vs ->
  (forall v, In v vs -> ~ In v (Dict.keys acc)) ->
  fold_left (fun d kv => Dict.set d (snd kv) (fst kv)) (combine ks vs) acc =
  acc ++ combine vs ks.
Proof.
  induction ks as [|k ks IH]; intros [|v vs] acc Hlen Hnd Hfresh; try discriminate.
  - cbn. rewrite app_nil_r. reflexivity.
  - cbn [combine fold_left fst snd].
    rewrite set_absent by (apply Hfresh; left; reflexivity).
    inversion Hnd as [|? ? Hnot Hnd']; subst.
    rewrite IH; [rewrite <- app_assoc; reflexivity|cbn [List.length] in Hlen; lia|exact Hnd'|].
    intros w Hw Hin. unfold Dict.keys in Hin. rewrite map_app in Hin.
    apply in_app_or in Hin. destruct Hin as [Hin|[Hin|[]]].
    + apply (Hfresh w); [right; exact Hw|exact Hin].
    + cbn in Hin. subst w. apply Hnot, Hw.
Qed.

Lemma token_starts_with_X (z : Z) : exists rest, Wittgenstein.token z = String "X" rest.
Proof. eexists. reflexivity. Qed.

Lemma not_a_token (c : ascii) (k : string) (i n : nat) :
  c <> "X"%char -> ~ In (String c k) (tokens_from i n).
Proof.
  intros Hc Hin. unfold tokens_from in Hin. apply in_map_iff in Hin.
  destruct Hin as [j [Hj _]]. unfold Wittgenstein.token in Hj. cbn [append] in Hj.
  inversion Hj. congruence.
Qed.

(** The decoding table for distinct column names: the tokens in column
    order, each with its name, and then the seven entries for the
    operators. *)
Lemma attribute_decode_table (attributes : list string) (class_attr_domain : list cell)
  (pos : string) :
  NoDup attributes ->
  py_index class_attr_domain 1 = ret (Some (Str pos)) ->
  Wittgenstein.attribute_decode (fst (Wittgenstein.attribute_encode attributes))
                                class_attr_domain =
  ret (combine (tokens_from 0 (List.length attributes)) attributes ++ structural_entries pos).
Proof.
  intros Hnd Hpos. unfold Wittgenstein.attribute_decode.
  change 0%Z with (Z.of_nat 0).
  unfold Wittgenstein.attribute_encode. change 0%Z with (Z.of_nat 0).
  rewrite (encode_from_distinct attributes 0 [] Hnd) by (intros a _ []).
  cbn [fst app]. rewrite Hpos, bind_ret. cbn [as_str]. rewrite bind_ret.
  unfold Wittgenstein.invert.
  rewrite invert_from;
    [|rewrite tokens_from_length; reflexivity|apply tokens_from_NoDup|intros v _ []].
  cbn [app].
  set (T := combine (tokens_from 0 (List.length attributes)) attributes).
  assert (HT : Dict.keys T = tokens_from 0 (List.length attributes)).
  { unfold T. apply keys_combine. apply tokens_from_length. }
  assert (Hfresh : forall c k (l : Dict.t string),
             c <> "X"%char -> ~ In (String c k) (Dict.keys l) ->
             ~ In (String c k) (Dict.keys (T ++ l))).
  { intros c k l Hc Hl Hin. unfold Dict.keys in Hin. rewrite map_app in Hin.
    apply in_app_or in Hin. destruct Hin as [Hin|Hin]; [|exact (Hl Hin)].
    fold (Dict.keys T) in Hin. rewrite HT in Hin. exact (not_a_token c k _ _ Hc Hin). }
  rewrite <- (app_nil_r T) at 1.
  repeat (rewrite (set_absent (T ++ _));
          [rewrite <- app_assoc; cbn [app]
          |apply Hfresh; [discriminate|cbn; intuition discriminate]]).
  reflexivity.
Qed.

Lemma get_app_l {V} (d1 d2 : Dict.t V) (k : string) (v : V) :
  Dict.get d1 k = Some v -> Dict.get (d1 ++ d2) k = Some v.
Proof.
  induction d1 as [|[k0 v0] d1 IH]; cbn [Dict.get app]; [discriminate|].
  destruct (String.eqb k0 k); [auto|exact IH].
Qed.

Lemma get_combine : forall (ks vs : list string) (k v : string),
  NoDup ks -> In (k, v) (combine ks vs) -> Dict.get (combine ks vs) k = Some v.
Proof.
  induction ks as [|k0 ks IH]; intros [|v0 vs] k v Hnd Hin; try destruct Hin.
  - inversion H; subst. cbn [combine Dict.get]. rewrite String.eqb_refl. reflexivity.
  - cbn [combine Dict.get]. inversion Hnd as [|? ? Hnot Hnd']; subst.
    destruct (String.eqb k0 k) eqn:E.
    + apply String.eqb_eq in E. subst k0. exfalso. apply Hnot.
      apply in_combine_l in H. exact H.
    + apply IH; assumption.
Qed.

Lemma combine_swap : forall (ks vs : list string) (k v : string),
  In (k, v) (combine ks vs) -> In (v, k) (combine vs ks).
Proof.
  induction ks as [|k0 ks IH]; intros [|v0 vs] k v Hin; try destruct Hin.
  - inversion H; subst. left. reflexivity.
  - right. apply IH, H.
Qed.

Lemma in_combine_tokens (attributes : list string) (name : string) :
  In name attributes ->
  exists tok, In (name, tok) (combine attributes (tokens_from 0 (List.length attributes))).
Proof.
  generalize 0%nat. induction attributes as [|a attributes IH]; intros i Hin; [destruct Hin|].
  change (tokens_from i (List.length (a :: attributes)))
    with (Wittgenstein.token (Z.of_nat i) :: tokens_from (S i) (List.length attributes)).
  destruct Hin as [->|Hin].
  - eexists. left. reflexivity.
  - destruct (IH (S i) Hin) as [tok Htok]. exists tok. right. exact Htok.
Qed.

(** Looked up as dictionaries, encoding and decoding are inverse: for
    distinct column names, the decoding table maps the token of every
    column back to its name. *)
Theorem decode_lookup_inverts_encode
  (attributes : list string) (class_attr_domain : list cell) (pos : string)
  (Hnames : NoDup attributes)
  (Hpos : py_index class_attr_domain 1 = ret (Some (Str pos))) :
  exists table,
    Wittgenstein.attribute_decode (fst (Wittgenstein.attribute_encode attributes))
                                  class_attr_domain = ret table /\
    forall name, In name attributes ->
      exists tok,
        Dict.get (fst (Wittgenstein.attribute_encode attributes)) name = Some tok /\
        Dict.get table tok = Some name.
Proof.
  eexists. split; [apply attribute_decode_table; eassumption|].
  intros name Hin. destruct (in_combine_tokens attributes name Hin) as [tok Htok].
  exists tok. split.
  - rewrite attribute_encode_by_position_aux by exact Hnames. cbn [fst].
    apply get_combine; assumption.
  - apply get_app_l. apply get_combine; [apply tokens_from_NoDup|].
    apply combine_swap, Htok.
Qed.

Lemma decode_lookup_inverts_encode_witness :
  exists table,
    Wittgenstein.attribute_decode (fst (Wittgenstein.attribute_encode sample_attributes))
                                  sample_domain = ret table /\
    forall name, In name sample_attributes ->
      exists tok,
        Dict.get (fst (Wittgenstein.attribute_encode sample_attributes)) name = Some tok /\
        Dict.get table tok = Some name.
Proof.
  apply (decode_lookup_inverts_encode sample_attributes sample_domain "paid").
  - vm_compute. repeat (constructor; [cbn [In]; intuition discriminate|]). constructor.
  - reflexivity.
Defined.

Lemma uint_digits (u : Decimal.uint) :
  all_chars Re.digit (NilEmpty.string_of_uint u) = true.
Proof. induction u; cbn [NilEmpty.string_of_uint all_chars]; rewrite ?IHu; reflexivity. Qed.

Lemma str_int_digits (k : nat) : all_chars Re.digit (PyStr.str_int (Z.of_nat k)) = true.
Proof.
  unfold PyStr.str_int. destruct (Z.of_nat k) as [|p|p] eqn:E; [reflexivity| |lia].
  cbn [Z.to_int NilZero.string_of_int]. unfold NilZero.string_of_uint.
  destruct (Pos.to_uint p) eqn:Eu; try reflexivity; rewrite <- Eu; apply uint_digits.
Qed.

(** A key that starts with a character the text does not hold occurs
    nowhere in it. *)
Lemma occurs_foreign_start (p : ascii -> bool) (c : ascii) (k : string) :
  p c = false -> forall t, all_chars p t = true -> PyStr.occurs (String c k) t = false.
Proof.
  intros Hc t. induction t as [|x t IH]; intro Ht; [reflexivity|].
  cbn [all_chars] in Ht. apply andb_true_iff in Ht. destruct Ht as [Hx Ht].
  cbn [PyStr.occurs]. rewrite IH by exact Ht. rewrite orb_false_r.
  apply prefix_diff. intro E. subst x. congruence.
Qed.

Lemma all_chars_app (p : ascii -> bool) (a b : string) :
  all_chars p (a +++ b) = all_chars p a && all_chars p b.
Proof.
  induction a as [|x a IH]; [reflexivity|]. cbn [append all_chars].
  rewrite IH, andb_assoc. reflexivity.
Qed.

Lemma all_chars_weaken (p q : ascii -> bool) (s : string) :
  (forall c, p c = true -> q c = true) -> all_chars p s = true -> all_chars q s = true.
Proof.
  intro H. induction s as [|x s IH]; [reflexivity|]. cbn [all_chars].
  intro Hs. apply andb_true_iff in Hs. destruct Hs as [Hx Hs].
  rewrite (H x Hx), IH by exact Hs. reflexivity.
Qed.

Lemma token_chars (k : nat) : all_chars token_char (Wittgenstein.token (Z.of_nat k)) = true.
Proof.
  unfold Wittgenstein.token. cbn [append all_chars].
  rewrite all_chars_app. cbn [all_chars].
  rewrite (all_chars_weaken Re.digit token_char); [reflexivity| |apply str_int_digits].
  intros c Hc. unfold token_char. rewrite Hc. apply orb_true_r.
Qed.

Lemma digit_not_X (c : ascii) : Re.digit c = true -> c <> "X"%char.
Proof. intros H E. subst c. discriminate H. Qed.

Lemma prefix_digits_X : forall (d1 d2 : string),
  all_chars Re.digit d1 = true -> all_chars Re.digit d2 = true ->
  String.prefix (d1 +++ "X") (d2 +++ "X") = true -> d1 = d2.
Proof.
  induction d1 as [|x d1 IH]; intros [|y d2] H1 H2 Hp; cbn [append all_chars] in *.
  - reflexivity.
  - apply andb_true_iff in H2. destruct H2 as [Hy _].
    cbn [String.prefix] in Hp. destruct (ascii_dec "X" y) as [E|E]; [|discriminate].
    subst y. discriminate Hy.
  - apply andb_true_iff in H1. destruct H1 as [Hx _].
    cbn [String.prefix] in Hp. destruct (ascii_dec x "X") as [E|E]; [|discriminate].
    subst x. discriminate Hx.
  - apply andb_true_iff in H1. destruct H1 as [Hx H1].
    apply andb_true_iff in H2. destruct H2 as [Hy H2].
    cbn [String.prefix] in Hp. destruct (ascii_dec x y) as [E|E]; [|discriminate].
    subst y. f_equal. apply IH; assumption.
Qed.

Lemma no_token_inside_digits (k : string) : forall (d : string),
  all_chars Re.digit d = true -> k <> "" ->
  PyStr.occurs (String "X" k) (d +++ "X") = false.
Proof.
  intros d Hd Hk. induction d as [|y d IH]; cbn [append].
  - cbn [PyStr.occurs]. rewrite prefix_same.
    destruct k; [congruence|reflexivity].
  - cbn [all_chars] in Hd. apply andb_true_iff in Hd. destruct Hd as [Hy Hd].
    cbn [PyStr.occurs]. rewrite IH by exact Hd. rewrite orb_false_r.
    apply prefix_diff. intro E. subst y. discriminate Hy.
Qed.

(** No token occurs inside the token of another position. *)
Lemma tokens_do_not_nest (j i : nat) :
  j <> i ->
  PyStr.occurs (Wittgenstein.token (Z.of_nat j)) (Wittgenstein.token (Z.of_nat i)) = false.
Proof.
  intro Hji. unfold Wittgenstein.token. cbn [append PyStr.occurs].
  rewrite prefix_same.
  rewrite no_token_inside_digits;
    [|apply str_int_digits|destruct (PyStr.str_int (Z.of_nat j)); discriminate].
  rewrite orb_false_r.
  destruct (String.prefix _ _) eqn:E; [|reflexivity].
  apply prefix_digits_X in E; try apply str_int_digits.
  apply str_int_inj in E. lia.
Qed.

(** Whatever the two positions, the token of one never occurs inside the
    token of the other: the closing [X] keeps [X1X] out of [X10X] and
    [X16X]. *)
Theorem tokens_never_overlap (j i : nat) (Hdiff : j <> i) :
  PyStr.occurs (Wittgenstein.token (Z.of_nat j)) (Wittgenstein.token (Z.of_nat i)) = false.
Proof. apply tokens_do_not_nest, Hdiff. Qed.

Lemma tokens_never_overlap_witness :
  PyStr.occurs (Wittgenstein.token (Z.of_nat 1)) (Wittgenstein.token (Z.of_nat 10)) = false.
Proof. apply (tokens_never_overlap 1 10). discriminate. Defined.

Lemma replace_from_skip_all (old new : string) : forall (s : string) (k : nat),
  (String.length s <= k)%nat -> PyStr.replace_from k old new s = "".
Proof.
  induction s as [|c s IH]; intros k Hk; [reflexivity|].
  cbn [String.length] in Hk. destruct k as [|k]; [lia|].
  cbn [PyStr.replace_from]. apply IH. lia.
Qed.

Lemma prefix_refl (s : string) : String.prefix s s = true.
Proof. induction s as [|c s IH]; [reflexivity|]. rewrite prefix_same. exact IH. Qed.

Lemma replace_whole (s new : string) : s <> "" -> PyStr.replace s s new = new.
Proof.
  intro Hs. destruct s as [|c s]; [congruence|].
  unfold PyStr.replace. cbn [PyStr.replace_from]. rewrite prefix_refl.
  rewrite replace_from_skip_all by (cbn [String.length]; lia).
  apply append_nil_r.
Qed.

(** Decoding a text that is exactly one key of the table. *)
Lemma decode_one_key : forall (entries : Dict.t string) (tok name : string),
  tok <> "" ->
  Dict.get entries tok = Some name ->
  (forall k, In k (Dict.keys entries) -> k <> tok -> PyStr.occurs k tok = false) ->
  (forall k, In k (Dict.keys entries) -> PyStr.occurs k name = false) ->
  replace_words tok entries = name.
Proof.
  induction entries as [|[k v] entries IH]; intros tok name Htok Hget Hother Hname;
    [discriminate|].
  cbn [Dict.get] in Hget. cbn [replace_words].
  destruct (String.eqb k tok) eqn:E.
  - apply String.eqb_eq in E. subst k. inversion Hget; subst v.
    rewrite replace_whole by exact Htok.
    apply replace_words_absent. intros k Hk. apply Hname. right. exact Hk.
  - apply String.eqb_neq in E.
    rewrite replace_absent by (apply Hother; [left; reflexivity|exact E]).
    apply IH; try assumption.
    + intros k0 Hk0. apply Hother. right. exact Hk0.
    + intros k0 Hk0. apply Hname. right. exact Hk0.
Qed.

Lemma in_tokens_from (i n : nat) (k : string) :
  In k (tokens_from i n) -> exists j, k = Wittgenstein.token (Z.of_nat j).
Proof.
  unfold tokens_from. intro H. apply in_map_iff in H. destruct H as [j [Hj _]].
  exists j. symmetry. exact Hj.
Qed.

Lemma in_combine_tokens_pos (attributes : list string) (name : string) :
  In name attributes ->
  exists j, In (name, Wittgenstein.token (Z.of_nat j))
               (combine attributes (tokens_from 0 (List.length attributes))).
Proof.
  generalize 0%nat. induction attributes as [|a attributes IH]; intros i Hin; [destruct Hin|].
  change (tokens_from i (List.length (a :: attributes)))
    with (Wittgenstein.token (Z.of_nat i) :: tokens_from (S i) (List.length attributes)).
  destruct Hin as [->|Hin].
  - exists i. left. reflexivity.
  - destruct (IH (S i) Hin) as [j Hj]. exists j. right. exact Hj.
Qed.

(** The substitution pass restores a name from its token when no key of
    the decoding table occurs in the name: for distinct column names and
    such a name, [replace_words] on the token gives the name. *)
Theorem decode_restores_plain_name
  (attributes : list string) (class_attr_domain : list cell) (pos name : string)
  (Hnames : NoDup attributes)
  (Hpos : py_index class_attr_domain 1 = ret (Some (Str pos)))
  (Hin : In name attributes)
  (Hplain : forall k,
      In k (tokens_from 0 (List.length attributes) ++ Dict.keys (structural_entries pos)) ->
      PyStr.occurs k name = false) :
  exists table tok,
    Wittgenstein.attribute_decode (fst (Wittgenstein.attribute_encode attributes))
                                  class_attr_domain = ret table /\
    Dict.get (fst (Wittgenstein.attribute_encode attributes)) name = Some tok /\
    replace_words tok table = name.
Proof.
  destruct (in_combine_tokens_pos attributes name Hin) as [j Hj].
  eexists. exists (Wittgenstein.token (Z.of_nat j)).
  split; [apply attribute_decode_table; eassumption|]. split.
  - rewrite attribute_encode_by_position_aux by exact Hnames. cbn [fst].
    apply get_combine; assumption.
  - assert (Hkeys : Dict.keys (combine (tokens_from 0 (List.length attributes)) attributes ++
                               structural_entries pos) =
                    tokens_from 0 (List.length attributes) ++
                    Dict.keys (structural_entries pos)).
    { unfold Dict.keys. rewrite map_app. f_equal.
      apply keys_combine, tokens_from_length. }
    apply decode_one_key.
    + discriminate.
    + apply get_app_l. apply get_combine; [apply tokens_from_NoDup|].
      apply combine_swap, Hj.
    + intros k Hk Hne. rewrite Hkeys in Hk. apply in_app_or in Hk. destruct Hk as [Hk|Hk].
      * destruct (in_tokens_from _ _ _ Hk) as [i ->].
        apply tokens_do_not_nest. intro E. subst i. congruence.
      * cbn in Hk.
        repeat (destruct Hk as [<-|Hk];
                [apply (occurs_foreign_start token_char); [reflexivity|apply token_chars]|]).
        destruct Hk.
    + intros k Hk. rewrite Hkeys in Hk. apply Hplain, Hk.
Qed.

Lemma decode_restores_plain_name_witness :
  exists table tok,
    Wittgenstein.attribute_decode (fst (Wittgenstein.attribute_encode sample_attributes))
                                  sample_domain = ret table /\
    Dict.get (fst (Wittgenstein.attribute_encode sample_attributes)) "job" = Some tok /\
    replace_words tok table = "job".
Proof.
  apply (decode_restores_plain_name sample_attributes sample_domain "paid" "job").
  - vm_compute. repeat (constructor; [cbn [In]; intuition discriminate|]). constructor.
  - reflexivity.
  - right. left. reflexivity.
  - intros k Hk. vm_compute in Hk.
    repeat (destruct Hk as [<-|Hk]; [reflexivity|]). destruct Hk.
Defined.

(** ** The matcher and the range pass *)

Lemma star_sound (p : ascii -> bool) (k : string -> option (string * string))
  (P : string -> Prop) :
  (forall s m r, k s = Some (m, r) -> s = m +++ r /\ P m) ->
  forall s m r, Re.star p k s = Some (m, r) ->
    s = m +++ r /\
    exists seg m', m = seg +++ m' /\ all_chars p seg = true /\ P m'.
Proof.
  intros Hk. induction s as [|c s IH]; intros m r H; cbn [Re.star] in H.
  - destruct (Hk _ _ _ H) as [E Pm]. split; [exact E|]. exists "", m. auto.
  - destruct (p c) eqn:Pc.
    + destruct (Re.star p k s) as [[m1 r1]|] eqn:E1.
      * inversion H; subst. destruct (IH _ _ eq_refl) as [Es [seg [m' [Em [Hseg Pm']]]]].
        split; [cbn [append]; rewrite Es; reflexivity|].
        exists (String c seg), m'. cbn [append all_chars]. rewrite Em, Pc, Hseg. auto.
      * destruct (Hk _ _ _ H) as [E Pm]. split; [exact E|]. exists "", m. auto.
    + destruct (Hk _ _ _ H) as [E Pm]. split; [exact E|]. exists "", m. auto.
Qed.

Lemma match_here_sound : forall (pat : Re.pattern) (s m r : string),
  Re.match_here pat s = Some (m, r) -> s = m +++ r /\ in_lang pat m.
Proof.
  induction pat as [|[p q] pat IH]; intros s m r H.
  - cbn in H. inversion H; subst. split; reflexivity.
  - destruct q; cbn [Re.match_here] in H.
    + (* One *)
      destruct s as [|c s]; [discriminate|]. destruct (p c) eqn:Pc; [|discriminate].
      destruct (Re.match_here pat s) as [[m1 r1]|] eqn:E1; [|discriminate].
      cbn [Re.cons_match] in H. inversion H; subst.
      destruct (IH _ _ _ E1) as [Es Hl]. split; [cbn [append]; rewrite Es; reflexivity|].
      exists (String c ""), m1. cbn [append all_chars String.length count_ok].
      rewrite Pc. auto.
    + (* Opt *)
      assert (Hskip : Re.match_here pat s = Some (m, r) ->
                      s = m +++ r /\ in_lang (Re.Item p Re.Opt :: pat) m).
      { intro E. destruct (IH _ _ _ E) as [Es Hl]. split; [exact Es|].
        exists "", m. cbn [append all_chars String.length count_ok]. auto. }
      destruct s as [|c s]; [auto|]. destruct (p c) eqn:Pc; [|auto].
      destruct (Re.match_here pat s) as [[m1 r1]|] eqn:E1; [|auto].
      inversion H; subst.
      destruct (IH _ _ _ E1) as [Es Hl]. split; [cbn [append]; rewrite Es; reflexivity|].
      exists (String c ""), m1. cbn [append all_chars String.length count_ok].
      rewrite Pc. auto.
    + (* Star *)
      destruct (star_sound p (Re.match_here pat) (in_lang pat) (IH) s m r H)
        as [Es [seg [m' [Em [Hseg Hl]]]]].
      split; [exact Es|]. exists seg, m'. cbn [count_ok]. auto.
    + (* Plus *)
      destruct s as [|c s]; [discriminate|]. destruct (p c) eqn:Pc; [|discriminate].
      destruct (Re.star p (Re.match_here pat) s) as [[m1 r1]|] eqn:E1; [|discriminate].
      cbn [Re.cons_match] in H. inversion H; subst.
      destruct (star_sound p (Re.match_here pat) (in_lang pat) (IH) s m1 r E1)
        as [Es [seg [m' [Em [Hseg Hl]]]]].
      split; [cbn [append]; rewrite Es; reflexivity|].
      exists (String c seg), m'. cbn [append all_chars String.length count_ok].
      rewrite Em, Pc, Hseg. repeat split; auto. lia.
Qed.

Lemma star_complete (p : ascii -> bool) (k : string -> option (string * string)) :
  forall (seg rest : string),
    all_chars p seg = true -> k rest <> None -> Re.star p k (seg +++ rest) <> None.
Proof.
  induction seg as [|c seg IH]; intros rest Hseg Hk; cbn [append].
  - destruct rest as [|x rest]; cbn [Re.star]; [exact Hk|].
    destruct (p x); [|exact Hk]. destruct (Re.star p k rest) as [[m1 r1]|]; [discriminate|exact Hk].
  - cbn [all_chars] in Hseg. apply andb_true_iff in Hseg. destruct Hseg as [Pc Hseg].
    cbn [Re.star]. rewrite Pc.
    destruct (Re.star p k (seg +++ rest)) as [[m1 r1]|] eqn:E; [discriminate|].
    exfalso. exact (IH rest Hseg Hk E).
Qed.

Lemma match_here_complete : forall (pat : Re.pattern) (m r : string),
  in_lang pat m -> Re.match_here pat (m +++ r) <> None.
Proof.
  induction pat as [|[p q] pat IH]; intros m r H.
  - cbn in H. subst m. discriminate.
  - destruct H as [seg [rest [Em [Hseg [Hq Hl]]]]]. subst m.
    rewrite append_assoc. specialize (IH rest r Hl).
    destruct q; cbn [count_ok] in Hq; cbn [Re.match_here].
    + destruct seg as [|c [|c' seg]]; try discriminate. cbn [append].
      cbn [all_chars] in Hseg. rewrite andb_true_r in Hseg. rewrite Hseg.
      destruct (Re.match_here pat (rest +++ r)) as [[m1 r1]|]; [discriminate|congruence].
    + destruct seg as [|c [|c' seg]]; cbn [String.length] in Hq; try lia; cbn [append].
      * destruct (rest +++ r) as [|x s'] eqn:E; [exact IH|].
        destruct (p x); [|exact IH].
        destruct (Re.match_here pat s') as [[m1 r1]|]; [discriminate|exact IH].
      * cbn [all_chars] in Hseg. rewrite andb_true_r in Hseg. rewrite Hseg.
        destruct (Re.match_here pat (rest +++ r)) as [[m1 r1]|]; [discriminate|congruence].
    + apply star_complete; assumption.
    + destruct seg as [|c seg]; cbn [String.length] in Hq; [lia|]. cbn [append].
      cbn [all_chars] in Hseg. apply andb_true_iff in Hseg. destruct Hseg as [Pc Hseg].
      rewrite Pc.
      destruct (Re.star p (Re.match_here pat) (seg +++ rest +++ r)) as [[m1 r1]|] eqn:E;
        [discriminate|].
      exfalso. exact (star_complete p _ seg (rest +++ r) Hseg IH E).
Qed.

Lemma in_lang_app : forall (p1 p2 : Re.pattern) (m : string),
  in_lang (p1 ++ p2) m <->
  exists m1 m2, m = m1 +++ m2 /\ in_lang p1 m1 /\ in_lang p2 m2.
Proof.
  induction p1 as [|[p q] p1 IH]; intros p2 m; cbn [app in_lang].
  - split.
    + intro H. exists "", m. auto.
    + intros (m1 & m2 & E & H1 & H2). subst m1. subst m. exact H2.
  - split.
    + intros (seg & rest & E & Hseg & Hq & Hl). apply IH in Hl.
      destruct Hl as (m1 & m2 & E' & H1 & H2).
      exists (seg +++ m1), m2. split; [rewrite append_assoc; congruence|].
      split; [|exact H2]. exists seg, m1. auto.
    + intros (m1 & m2 & E & (seg & rest & E1 & Hseg & Hq & Hl) & H2).
      exists seg, (rest +++ m2). split; [rewrite <- append_assoc; congruence|].
      split; [exact Hseg|]. split; [exact Hq|]. apply IH. exists rest, m2. auto.
Qed.

Lemma findall_members (pat : Re.pattern) (m : string) : forall (s : string) (skip : nat),
  In m (Re.findall_from skip pat s) -> exists s' r, Re.match_here pat s' = Some (m, r).
Proof.
  induction s as [|c s IH]; intros skip Hin; cbn [Re.findall_from] in Hin.
  - destruct skip; [|destruct Hin].
    destruct (Re.match_here pat "") as [[m1 r1]|] eqn:E; [|destruct Hin].
    destruct Hin as [<-|[]]. eauto.
  - destruct skip as [|k]; [|eapply IH; eassumption].
    destruct (Re.match_here pat (String c s)) as [[m1 r1]|] eqn:E; [|eapply IH; eassumption].
    destruct Hin as [<-|Hin]; [eauto|eapply IH; eassumption].
Qed.

Lemma findall_in_lang (pat : Re.pattern) (s m : string) :
  In m (Re.findall pat s) -> in_lang pat m.
Proof.
  intro H. destruct (findall_members pat m s 0 H) as (s' & r & E).
  apply match_here_sound in E. apply E.
Qed.

Lemma findall_finds (pat : Re.pattern) : forall (pre suf : string),
  Re.match_here pat suf <> None -> Re.findall pat (pre +++ suf) <> [].
Proof.
  unfold Re.findall. induction pre as [|c pre IH]; intros suf H; cbn [append].
  - destruct suf as [|x suf]; cbn [Re.findall_from];
      destruct (Re.match_here pat _) as [[m1 r1]|]; try congruence; discriminate.
  - cbn [Re.findall_from].
    destruct (Re.match_here pat (String c (pre +++ suf))) as [[m1 r1]|]; [discriminate|].
    apply IH, H.
Qed.

Lemma findall_finds_lang (pat : Re.pattern) (pre m suf : string) :
  in_lang pat m -> exists x, py_index (Re.findall pat (pre +++ m +++ suf)) 0 = ret x /\
                             In x (Re.findall pat (pre +++ m +++ suf)).
Proof.
  intro H. pose proof (findall_finds pat pre (m +++ suf) (match_here_complete pat m suf H)) as Hne.
  destruct (Re.findall pat (pre +++ m +++ suf)) as [|x l]; [congruence|].
  exists x. split; [apply py_index_0|left; reflexivity].
Qed.

Lemma in_lang_optional_absent (p : ascii -> bool) : in_lang [Re.Item p Re.Opt] "".
Proof. exists "", "". cbn. auto. Qed.

(** The pieces of the range pattern. *)
Lemma pRange_pieces (m : string) :
  in_lang Normalizer.pRange m ->
  exists m_eq m_ws m_lo m_hy m_hi m_close,
    m = m_eq +++ m_ws +++ m_lo +++ m_hy +++ m_hi +++ m_close /\
    in_lang [Re.Item (Re.lit Normalizer.eq_sign) Re.One] m_eq /\
    in_lang Normalizer.number m_lo /\
    in_lang (tl Normalizer.number) m_hi /\
    in_lang [Re.Item (Re.lit (Normalizer.ch ")")) Re.One] m_close.
Proof.
  intro H.
  change Normalizer.pRange with
    ([Re.Item (Re.lit Normalizer.eq_sign) Re.One] ++ [Re.Item Re.space Re.One] ++
     Normalizer.number ++ [Re.Item (Re.lit (Normalizer.ch "-")) Re.Plus] ++
     tl Normalizer.number ++ [Re.Item (Re.lit (Normalizer.ch ")")) Re.One]) in H.
  apply in_lang_app in H. destruct H as (m_eq & r1 & E1 & Heq & H).
  apply in_lang_app in H. destruct H as (m_ws & r2 & E2 & Hws & H).
  apply in_lang_app in H. destruct H as (m_lo & r3 & E3 & Hlo & H).
  apply in_lang_app in H. destruct H as (m_hy & r4 & E4 & Hhy & H).
  apply in_lang_app in H. destruct H as (m_hi & m_close & E5 & Hhi & Hclose).
  exists m_eq, m_ws, m_lo, m_hy, m_hi, m_close. subst. auto.
Qed.

Lemma split_match_returns (mtch rule : string) :
  in_lang Normalizer.p mtch -> exists r, Normalizer.split_match mtch rule = ret r.
Proof.
  intro H.
  change Normalizer.p with
    ([Re.Item (Re.lit (Normalizer.ch "(")) Re.One;
      Re.Item (Re.not_lit Normalizer.eq_sign) Re.Star] ++ Normalizer.pRange) in H.
  apply in_lang_app in H. destruct H as (m_att & m_rng & E & Hatt & Hrng).
  destruct (pRange_pieces m_rng Hrng)
    as (m_eq & m_ws & m_lo & m_hy & m_hi & m_close & Er & Heq & Hlo & Hhi & Hclose).
  unfold Normalizer.split_match.
  (* the attribute *)
  assert (HpAtt : in_lang Normalizer.pAtt (m_att +++ m_eq)).
  { change Normalizer.pAtt with
      ([Re.Item (Re.lit (Normalizer.ch "(")) Re.One;
        Re.Item (Re.not_lit Normalizer.eq_sign) Re.Star] ++
       [Re.Item (Re.lit Normalizer.eq_sign) Re.One]).
    apply in_lang_app. exists m_att, m_eq. auto. }
  destruct (findall_finds_lang Normalizer.pAtt "" (m_att +++ m_eq)
              (m_ws +++ m_lo +++ m_hy +++ m_hi +++ m_close) HpAtt) as (att & Hatt0 & _).
  cbn [append] in Hatt0.
  replace ((m_att +++ m_eq) +++ m_ws +++ m_lo +++ m_hy +++ m_hi +++ m_close) with mtch in Hatt0
    by (subst; rewrite !append_assoc; reflexivity).
  rewrite Hatt0, bind_ret.
  (* the range *)
  destruct (findall_finds_lang Normalizer.pRange m_att m_rng "" Hrng) as (rng & Hrng0 & Hrin).
  rewrite append_nil_r in Hrng0, Hrin. rewrite <- E in Hrng0, Hrin.
  rewrite Hrng0, bind_ret.
  apply findall_in_lang in Hrin.
  destruct (pRange_pieces rng Hrin)
    as (n_eq & n_ws & n_lo & n_hy & n_hi & n_close & Er' & Heq' & Hlo' & Hhi' & Hclose').
  (* the left bound *)
  destruct (findall_finds_lang Normalizer.pLrng (n_eq +++ n_ws) n_lo
              (n_hy +++ n_hi +++ n_close) Hlo') as (lrng & Hl0 & _).
  replace ((n_eq +++ n_ws) +++ n_lo +++ n_hy +++ n_hi +++ n_close) with rng in Hl0
    by (subst; rewrite !append_assoc; reflexivity).
  rewrite Hl0, bind_ret.
  (* the right bound *)
  assert (HpR : in_lang Normalizer.pRrng (n_hi +++ n_close)).
  { change Normalizer.pRrng with
      ([Re.Item (Re.lit (Normalizer.ch "-")) Re.Opt] ++ tl Normalizer.number ++
       [Re.Item (Re.lit (Normalizer.ch ")")) Re.One]).
    apply in_lang_app. exists "", (n_hi +++ n_close). split; [reflexivity|].
    split; [apply in_lang_optional_absent|].
    apply in_lang_app. exists n_hi, n_close. auto. }
  destruct (findall_finds_lang Normalizer.pRrng (n_eq +++ n_ws +++ n_lo +++ n_hy)
              (n_hi +++ n_close) "" HpR) as (rrng & Hr0 & _).
  replace ((n_eq +++ n_ws +++ n_lo +++ n_hy) +++ (n_hi +++ n_close) +++ "") with rng in Hr0
    by (subst; rewrite !append_assoc, append_nil_r; reflexivity).
  rewrite Hr0, bind_ret. eexists. reflexivity.
Qed.

Lemma split_ranges_returns (rule : string) :
  exists r, Normalizer.split_ranges rule = ret r.
Proof.
  unfold Normalizer.split_ranges.
  assert (G : forall matches, (forall m, In m matches -> in_lang Normalizer.p m) ->
                              forall s, exists r, for_each matches Normalizer.split_match s = ret r).
  { induction matches as [|m matches IH]; intros Hm s; [exists s; reflexivity|].
    cbn [for_each].
    destruct (split_match_returns m s (Hm m (or_introl eq_refl))) as [r1 H1].
    rewrite H1, bind_ret. apply IH. intros m0 H0. apply Hm. right. exact H0. }
  apply G. intros m Hm. eapply findall_in_lang, Hm.
Qed.

(** The range pass never raises: every text the range pattern matches
    holds an attribute part, a range, a left and a right number, so none
    of the four [findall(...)[0]] of the loop can fail. *)
Theorem split_ranges_never_raises (rule : string) :
  exists r, Normalizer.split_ranges rule = ret r.
Proof. exact (split_ranges_returns rule). Qed.

(* ===================================================================== *)
(** ** What the range pass makes of one range condition *)
(* ===================================================================== *)

Lemma match_here_plus p pat c s :
  Re.match_here (Re.Item p Re.Plus :: pat) (String c s) =
  if p c then Re.cons_match c (Re.star p (Re.match_here pat) s) else None.
Proof. reflexivity. Qed.

Lemma match_here_opt p pat c s :
  Re.match_here (Re.Item p Re.Opt :: pat) (String c s) =
  if p c then
    match Re.match_here pat s with
    | Some (m, rest) => Some (String c m, rest)
    | None => Re.match_here pat (String c s)
    end
  else Re.match_here pat (String c s).
Proof. reflexivity. Qed.

Lemma match_here_opt_nil p pat :
  Re.match_here (Re.Item p Re.Opt :: pat) "" = Re.match_here pat "".
Proof. reflexivity. Qed.

Lemma star_greedy (p : ascii -> bool) (k : string -> option (string * string)) :
  forall (seg rest m r : string),
    all_chars p seg = true ->
    (forall c rest', rest = String c rest' -> p c = false) ->
    k rest = Some (m, r) ->
    Re.star p k (seg +++ rest) = Some (seg +++ m, r).
Proof.
  induction seg as [|c seg IH]; intros rest m r Hseg Hnext Hk; cbn [append].
  - destruct rest as [|x rest']; cbn [Re.star]; [exact Hk|].
    rewrite (Hnext x rest' eq_refl). exact Hk.
  - cbn [all_chars] in Hseg. apply andb_true_iff in Hseg. destruct Hseg as [Pc Hseg].
    cbn [Re.star]. rewrite Pc, (IH rest m r Hseg Hnext Hk). reflexivity.
Qed.


(** The two shapes of an unsigned number: digits, or digits, a point and
    digits. *)
Lemma unsigned_shape (hi : string) :
  in_lang (tl Normalizer.number) hi ->
  exists c ds, all_chars Re.digit (String c ds) = true /\
    (hi = String c ds \/
     exists f, all_chars Re.digit f = true /\ hi = String c ds +++ String dot f).
Proof.
  intros (s1 & r1 & E1 & H1 & Q1 & (s2 & r2 & E2 & H2 & Q2 & (s3 & r3 & E3 & H3 & _ & E4))).
  cbn [in_lang] in E4. subst r3. rewrite append_nil_r in E3. subst r2 r1 hi.
  cbn [count_ok] in Q1, Q2.
  destruct s1 as [|c s1]; [cbn in Q1; lia|].
  destruct s2 as [|d [|d' s2]]; [| |cbn in Q2; lia].
  - exists c, (s1 +++ s3). split.
    + change (String c (s1 +++ s3)) with (String c s1 +++ s3).
      rewrite all_chars_app, H1, H3. reflexivity.
    + left. reflexivity.
  - exists c, s1. split; [exact H1|]. right. exists s3. split; [exact H3|].
    cbn [all_chars] in H2. rewrite andb_true_r in H2. unfold Re.lit in H2.
    apply Ascii.eqb_eq in H2. subst d. reflexivity.
Qed.

Lemma match_unsigned (hi : string) (pat' : Re.pattern) (rest m r : string) :
  in_lang (tl Normalizer.number) hi ->
  (forall c rest', rest = String c rest' -> Re.digit c = false /\ c <> dot) ->
  Re.match_here pat' rest = Some (m, r) ->
  Re.match_here (tl Normalizer.number ++ pat') (hi +++ rest) = Some (hi +++ m, r).
Proof.
  intros Hhi Hnext Hk.
  assert (Hd : forall c rest', rest = String c rest' -> Re.digit c = false)
    by (intros c rest' E; apply (Hnext c rest' E)).
  assert (Htail : Re.match_here (Re.Item Re.digit Re.Star :: pat') rest = Some (m, r)).
  { rewrite match_here_star. apply (star_greedy Re.digit _ "" rest m r); auto. }
  assert (Hopt : Re.match_here (Re.Item (Re.lit dot) Re.Opt :: Re.Item Re.digit Re.Star :: pat')
                               rest = Some (m, r)).
  { destruct rest as [|x rest']; [exact Htail|]. rewrite match_here_opt.
    destruct (Hnext x rest' eq_refl) as [_ Hx].
    assert (E : Re.lit dot x = false).
    { unfold Re.lit. apply Ascii.eqb_neq. congruence. }
    rewrite E. exact Htail. }
  destruct (unsigned_shape hi Hhi) as (c & ds & Hds & [E|(f & Hf & E)]); subst hi.
  - cbn [all_chars] in Hds. apply andb_true_iff in Hds. destruct Hds as [Pc Hds].
    change (tl Normalizer.number ++ pat') with
      (Re.Item Re.digit Re.Plus :: Re.Item (Re.lit dot) Re.Opt ::
       Re.Item Re.digit Re.Star :: pat').
    cbn [append]. rewrite match_here_plus, Pc.
    rewrite (star_greedy Re.digit _ ds rest m r Hds Hd Hopt). reflexivity.
  - cbn [all_chars] in Hds. apply andb_true_iff in Hds. destruct Hds as [Pc Hds].
    change (tl Normalizer.number ++ pat') with
      (Re.Item Re.digit Re.Plus :: Re.Item (Re.lit dot) Re.Opt ::
       Re.Item Re.digit Re.Star :: pat').
    rewrite append_assoc. cbn [append]. rewrite match_here_plus, Pc.
    assert (Hafter : Re.match_here (Re.Item (Re.lit dot) Re.Opt ::
                                    Re.Item Re.digit Re.Star :: pat')
                                   (String dot (f +++ rest)) = Some (String dot (f +++ m), r)).
    { rewrite match_here_opt, match_here_star.
      replace (Re.lit dot dot) with true by reflexivity.
      rewrite (star_greedy Re.digit _ f rest m r Hf Hd Hk). reflexivity. }
    rewrite (star_greedy Re.digit _ ds (String dot (f +++ rest)) (String dot (f +++ m)) r Hds);
      [| |exact Hafter].
    + rewrite !append_assoc. reflexivity.
    + intros x rest' E. inversion E; subst. reflexivity.
Qed.

Lemma number_shape (lo : string) :
  in_lang Normalizer.number lo ->
  exists u, in_lang (tl Normalizer.number) u /\ (lo = u \/ lo = String hyphen u).
Proof.
  intros (s1 & r1 & E1 & H1 & Q1 & Hu). cbn [count_ok] in Q1.
  exists r1. split; [exact Hu|].
  destruct s1 as [|c [|c' s1]]; [left; exact E1| |cbn in Q1; lia].
  right. cbn [all_chars] in H1. rewrite andb_true_r in H1. unfold Re.lit in H1.
  apply Ascii.eqb_eq in H1. subst c. exact E1.
Qed.

Lemma match_number (lo : string) (pat' : Re.pattern) (rest m r : string) :
  in_lang Normalizer.number lo ->
  (forall c rest', rest = String c rest' -> Re.digit c = false /\ c <> dot) ->
  Re.match_here pat' rest = Some (m, r) ->
  Re.match_here (Normalizer.number ++ pat') (lo +++ rest) = Some (lo +++ m, r).
Proof.
  intros Hlo Hnext Hk.
  destruct (number_shape lo Hlo) as (u & Hu & [E|E]); subst lo.
  - pose proof (match_unsigned u pat' rest m r Hu Hnext Hk) as Hm.
    destruct (unsigned_shape u Hu) as (c & ds & Hds & Hshape).
    assert (Ec : exists u', u = String c u') by (destruct Hshape as [->|(f & _ & ->)]; cbn [append]; eauto).
    destruct Ec as [u' Ec].
    cbn [all_chars] in Hds. apply andb_true_iff in Hds. destruct Hds as [Pc _].
    change (Normalizer.number ++ pat') with
      (Re.Item (Re.lit hyphen) Re.Opt :: (tl Normalizer.number ++ pat')).
    rewrite Ec in *. cbn [append] in *. rewrite match_here_opt.
    assert (Eh : Re.lit hyphen c = false).
    { unfold Re.lit. apply Ascii.eqb_neq. intro E. subst c. discriminate Pc. }
    rewrite Eh. exact Hm.
  - pose proof (match_unsigned u pat' rest m r Hu Hnext Hk) as Hm.
    change (Normalizer.number ++ pat') with
      (Re.Item (Re.lit hyphen) Re.Opt :: (tl Normalizer.number ++ pat')).
    cbn [append]. rewrite match_here_opt.
    replace (Re.lit hyphen hyphen) with true by reflexivity.
    rewrite Hm. reflexivity.
Qed.

(** Scanning passes over a prefix none of whose suffixes starts a match. *)
Lemma findall_skip_prefix (pat : Re.pattern) : forall (pre s : string),
  (forall a b, pre = a +++ b -> b <> "" -> Re.match_here pat (b +++ s) = None) ->
  Re.findall pat (pre +++ s) = Re.findall pat s.
Proof.
  unfold Re.findall. induction pre as [|c pre IH]; intros s H; [reflexivity|].
  pose proof (H "" (String c pre) eq_refl) as H0. cbn [append] in *.
  cbn [Re.findall_from]. rewrite H0 by discriminate.
  apply IH. intros a b E Hb. apply (H (String c a) b); [cbn [append]; congruence|exact Hb].
Qed.

Lemma findall_head (pat : Re.pattern) (s m r : string) :
  Re.match_here pat s = Some (m, r) -> py_index (Re.findall pat s) 0 = ret m.
Proof.
  intro H. unfold Re.findall. destruct s; cbn [Re.findall_from]; rewrite H; apply py_index_0.
Qed.

Lemma findall_skip_all (pat : Re.pattern) :
  Re.match_here pat "" = None ->
  forall s, Re.findall_from (String.length s) pat s = [].
Proof.
  intros H s. induction s as [|c s IH]; cbn [String.length Re.findall_from].
  - rewrite H. reflexivity.
  - exact IH.
Qed.

Lemma findall_whole (pat : Re.pattern) (s : string) :
  s <> "" -> Re.match_here pat "" = None -> Re.match_here pat s = Some (s, "") ->
  Re.findall pat s = [s].
Proof.
  intros Hs H0 H. destruct s as [|c s]; [congruence|].
  unfold Re.findall. cbn [Re.findall_from]. rewrite H.
  replace (String.length (String c s) - 1)%nat with (String.length s)
    by (cbn [String.length]; lia).
  rewrite (findall_skip_all pat H0). reflexivity.
Qed.

Lemma findall_step_none (pat : Re.pattern) (c : ascii) (s : string) :
  Re.match_here pat (String c s) = None ->
  Re.findall pat (String c s) = Re.findall pat s.
Proof. intro H. unfold Re.findall. cbn [Re.findall_from]. rewrite H. reflexivity. Qed.

Lemma replace_after_prefix (old new : string) (c : ascii) (old' : string) :
  old = String c old' ->
  forall pre, all_chars (Re.not_lit c) pre = true ->
  PyStr.replace (pre +++ old) old new = pre +++ new.
Proof.
  intros E. induction pre as [|x pre IH]; intro Hpre.
  - apply replace_whole. subst old. discriminate.
  - cbn [all_chars] in Hpre. apply andb_true_iff in Hpre. destruct Hpre as [Hx Hpre].
    specialize (IH Hpre). subst old. unfold PyStr.replace in *.
    cbn [append]. cbn [PyStr.replace_from].
    rewrite prefix_diff.
    + rewrite IH. reflexivity.
    + unfold Re.not_lit in Hx. apply negb_true_iff, Ascii.eqb_neq in Hx. exact Hx.
Qed.

Lemma drop_last_snoc (c : ascii) : forall (s : string),
  PyStr.drop_last (s +++ String c "") = s.
Proof.
  induction s as [|x s IH]; [reflexivity|].
  cbn [append PyStr.drop_last]. rewrite IH.
  destruct s; reflexivity.
Qed.

Lemma hyphens_snoc : forall (hy : string),
  all_chars (Re.lit hyphen) hy = true -> String hyphen hy = hy +++ String hyphen "".
Proof.
  induction hy as [|c hy IH]; intro H; [reflexivity|].
  cbn [all_chars] in H. apply andb_true_iff in H. destruct H as [Hc H].
  unfold Re.lit in Hc. apply Ascii.eqb_eq in Hc. subst c.
  cbn [append]. rewrite <- (IH H). reflexivity.
Qed.


Lemma unsigned_chars (u : string) :
  in_lang (tl Normalizer.number) u -> all_chars digit_or_dot u = true.
Proof.
  intro H. destruct (unsigned_shape u H) as (c & ds & Hds & [E|(f & Hf & E)]); subst u.
  - apply (all_chars_weaken Re.digit); [|exact Hds].
    intros x Hx. unfold digit_or_dot. rewrite Hx. reflexivity.
  - rewrite all_chars_app. apply andb_true_iff. split.
    + apply (all_chars_weaken Re.digit); [|exact Hds].
      intros x Hx. unfold digit_or_dot. rewrite Hx. reflexivity.
    + cbn [all_chars]. apply andb_true_iff. split; [reflexivity|].
      apply (all_chars_weaken Re.digit); [|exact Hf].
      intros x Hx. unfold digit_or_dot. rewrite Hx. reflexivity.
Qed.

Lemma unsigned_starts_with_digit (u rest : string) :
  in_lang (tl Normalizer.number) u ->
  forall c rest', u +++ rest = String c rest' -> Re.digit c = true.
Proof.
  intros H c rest' E.
  destruct (unsigned_shape u H) as (x & ds & Hds & Hshape).
  cbn [all_chars] in Hds. apply andb_true_iff in Hds. destruct Hds as [Px _].
  destruct Hshape as [->|(f & _ & ->)]; cbn [append] in E; inversion E; subst; exact Px.
Qed.

(** Two splittings of one text at the first [c] agree. *)
Lemma split_at_first (c : ascii) : forall (x x' y y' : string),
  x +++ String c y = x' +++ String c y' ->
  all_chars (Re.not_lit c) x = true -> all_chars (Re.not_lit c) x' = true -> x = x'.
Proof.
  assert (Hc : Re.not_lit c c = false)
    by (unfold Re.not_lit; rewrite Ascii.eqb_refl; reflexivity).
  induction x as [|a x IH]; intros [|a' x'] y y' E Hx Hx'; cbn [append] in E.
  - reflexivity.
  - inversion E; subst. cbn [all_chars] in Hx'. rewrite Hc in Hx'. discriminate.
  - inversion E; subst. cbn [all_chars] in Hx. rewrite Hc in Hx. discriminate.
  - inversion E; subst. f_equal.
    cbn [all_chars] in Hx, Hx'. apply andb_true_iff in Hx, Hx'.
    eapply IH; [eassumption|apply Hx|apply Hx'].
Qed.


Lemma digit_or_dot_not_paren (s : string) :
  all_chars digit_or_dot s = true -> all_chars (Re.not_lit close_paren) s = true.
Proof.
  apply all_chars_weaken. intros c Hc.
  unfold Re.not_lit. apply negb_true_iff, Ascii.eqb_neq. intro E. subst c. discriminate Hc.
Qed.

Lemma digit_or_dot_no_hyphen (a b : string) :
  all_chars digit_or_dot (a +++ String hyphen b) = true -> False.
Proof.
  rewrite all_chars_app. cbn [all_chars]. intro H.
  apply andb_true_iff in H. destruct H as [_ H]. discriminate H.
Qed.

(** No upper bound is found before the last hyphen of a range. *)
Lemma no_bound_before_last_hyphen (b hi : string) :
  b <> "" -> all_chars (Re.not_lit close_paren) b = true ->
  in_lang (tl Normalizer.number) hi ->
  Re.match_here Normalizer.pRrng (b +++ String hyphen (hi +++ String close_paren "")) = None.
Proof.
  intros Hb Hbp Hhi.
  destruct (Re.match_here _ _) as [[m r]|] eqn:E; [exfalso|reflexivity].
  apply match_here_sound in E. destruct E as [E Hm].
  unfold Normalizer.pRrng in Hm. apply in_lang_app in Hm.
  destruct Hm as (m1 & m2 & Em & H1 & H2). subst m.
  destruct H2 as (seg & rest & E2 & Hseg & Hq & Hrest).
  cbn [in_lang] in Hrest. subst rest. rewrite append_nil_r in E2. subst m2.
  cbn [count_ok] in Hq. destruct seg as [|x [|x' seg]]; try discriminate Hq.
  cbn [all_chars] in Hseg. rewrite andb_true_r in Hseg. unfold Re.lit in Hseg.
  apply Ascii.eqb_eq in Hseg. subst x.
  change (Normalizer.ch ")") with close_paren in E.
  rewrite append_assoc in E. cbn [append] in E.
  change (b +++ String hyphen (hi +++ String close_paren ""))
    with (b +++ (String hyphen hi) +++ String close_paren "") in E.
  rewrite <- append_assoc in E.
  pose proof (unsigned_chars hi Hhi) as Hhic.
  destruct (number_shape m1 H1) as (u & Hu & Hm1).
  pose proof (unsigned_chars u Hu) as Huc.
  apply split_at_first in E.
  - destruct b as [|c b]; [congruence|].
    destruct Hm1 as [->| ->].
    + rewrite <- E in Huc. cbn [append] in Huc.
      apply (digit_or_dot_no_hyphen (String c b) hi Huc).
    + cbn [append] in E. inversion E; subst.
      apply (digit_or_dot_no_hyphen b hi Huc).
  - rewrite all_chars_app, Hbp. cbn [all_chars].
    rewrite (digit_or_dot_not_paren hi Hhic). reflexivity.
  - destruct Hm1 as [->| ->]; [exact (digit_or_dot_not_paren u Huc)|].
    cbn [all_chars]. rewrite (digit_or_dot_not_paren u Huc). reflexivity.
Qed.

Lemma close_is_literal (rest : string) :
  Re.match_here [Re.Item (Re.lit close_paren) Re.One] (String close_paren rest) =
  Some (String close_paren "", rest).
Proof. reflexivity. Qed.

Lemma paren_not_number (c : ascii) (rest' : string) :
  String close_paren "" = String c rest' -> Re.digit c = false /\ c <> dot.
Proof. intro E. inversion E; subst. split; [reflexivity|discriminate]. Qed.

Lemma hyphen_not_number (x : string) (c : ascii) (rest' : string) :
  String hyphen x = String c rest' -> Re.digit c = false /\ c <> dot.
Proof. intro E. inversion E; subst. split; [reflexivity|discriminate]. Qed.

(** The range pattern takes a whole range text. *)
Lemma match_range (lo hy0 hi : string) :
  in_lang Normalizer.number lo -> all_chars (Re.lit hyphen) hy0 = true ->
  in_lang (tl Normalizer.number) hi ->
  let rng := "= " +++ lo +++ String hyphen hy0 +++ hi +++ ")" in
  Re.match_here Normalizer.pRange rng = Some (rng, "").
Proof.
  intros Hlo Hhy Hhi rng. subst rng.
  change Normalizer.pRange with
    (Re.Item (Re.lit Normalizer.eq_sign) Re.One :: Re.Item Re.space Re.One ::
     (Normalizer.number ++
      Re.Item (Re.lit hyphen) Re.Plus ::
      (tl Normalizer.number ++ [Re.Item (Re.lit close_paren) Re.One]))).
  cbn [append]. rewrite !match_here_one.
  replace (Re.lit Normalizer.eq_sign "="%char) with true by reflexivity.
  replace (Re.space " "%char) with true by reflexivity.
  assert (Hhigh : Re.match_here (tl Normalizer.number ++ [Re.Item (Re.lit close_paren) Re.One])
                    (hi +++ ")") = Some (hi +++ ")", "")).
  { apply match_unsigned; [exact Hhi|apply paren_not_number|reflexivity]. }
  assert (Hhyp : Re.match_here
                   (Re.Item (Re.lit hyphen) Re.Plus ::
                    (tl Normalizer.number ++ [Re.Item (Re.lit close_paren) Re.One]))
                   (String hyphen (hy0 +++ hi +++ ")")) =
                 Some (String hyphen (hy0 +++ hi +++ ")"), "")).
  { rewrite match_here_plus.
    replace (Re.lit hyphen hyphen) with true by reflexivity.
    rewrite (star_greedy (Re.lit hyphen) _ hy0 (hi +++ ")") (hi +++ ")") "" Hhy);
      [reflexivity| |exact Hhigh].
    intros c rest' E. apply (unsigned_starts_with_digit hi ")" Hhi) in E.
    unfold Re.lit. apply Ascii.eqb_neq. intro E'. subst c. discriminate E. }
  rewrite (match_number lo _ (String hyphen (hy0 +++ hi +++ ")"))
             (String hyphen (hy0 +++ hi +++ ")")) "" Hlo (hyphen_not_number _) Hhyp).
  reflexivity.
Qed.

Lemma not_eq_prefix_fails (pre s : string) :
  all_chars (Re.not_lit Normalizer.eq_sign) pre = true ->
  forall a b, pre = a +++ b -> b <> "" ->
  Re.match_here Normalizer.pRange (b +++ s) = None.
Proof.
  intros Hpre a b E Hb. subst pre. rewrite all_chars_app in Hpre.
  apply andb_true_iff in Hpre. destruct Hpre as [_ Hbs].
  destruct b as [|c b]; [congruence|].
  cbn [all_chars] in Hbs. apply andb_true_iff in Hbs. destruct Hbs as [Hc _].
  change Normalizer.pRange with
    (Re.Item (Re.lit Normalizer.eq_sign) Re.One :: tl Normalizer.pRange).
  cbn [append]. rewrite match_here_one.
  unfold Re.not_lit in Hc. apply negb_true_iff in Hc. unfold Re.lit. rewrite Hc. reflexivity.
Qed.

(** A range condition [(att= lo-hi)] is split into two conditions, and
    the upper one keeps the hyphen of the range as a minus sign. *)
Theorem range_condition_split (att lo hy hi : string)
  (Hatt : all_chars (Re.not_lit Normalizer.eq_sign) att = true)
  (Hlo : in_lang Normalizer.number lo)
  (Hhy : all_chars (Re.lit hyphen) hy = true)
  (Hhi : in_lang (tl Normalizer.number) hi) :
  Normalizer.split_ranges ("(" +++ att +++ "= " +++ lo +++ "-" +++ hy +++ hi +++ ")") =
  ret ("(" +++ att +++ ">= " +++ lo +++ ") AND (" +++ att +++ "<= -" +++ hi +++ ")").
Proof.
  set (rng := "= " +++ lo +++ String hyphen hy +++ hi +++ ")").
  set (pre := "(" +++ att).
  assert (Hpre : all_chars (Re.not_lit Normalizer.eq_sign) pre = true)
    by (subst pre; cbn [append all_chars]; rewrite Hatt; reflexivity).
  pose proof (match_range lo hy hi Hlo Hhy Hhi) as Hrange. cbn zeta in Hrange.
  fold rng in Hrange.
  assert (Erule : "(" +++ att +++ "= " +++ lo +++ "-" +++ hy +++ hi +++ ")" = pre +++ rng)
    by (subst pre rng; rewrite append_assoc; reflexivity).
  rewrite Erule.
  assert (Hnext : forall c rest', rng = String c rest' -> Re.not_lit Normalizer.eq_sign c = false).
  { intros c rest' E. subst rng. cbn [append] in E. inversion E; subst. reflexivity. }
  (* the whole rule is the one match of [p] *)
  assert (Hp : Re.match_here Normalizer.p (pre +++ rng) = Some (pre +++ rng, "")).
  { subst pre. rewrite append_assoc.
    change Normalizer.p with
      (Re.Item (Re.lit (Normalizer.ch "(")) Re.One ::
       Re.Item (Re.not_lit Normalizer.eq_sign) Re.Star :: Normalizer.pRange).
    cbn [append]. rewrite match_here_one, match_here_star.
    replace (Re.lit (Normalizer.ch "(") "("%char) with true by reflexivity.
    rewrite (star_greedy _ _ att rng rng "" Hatt Hnext Hrange). reflexivity. }
  assert (Hall : Re.findall Normalizer.p (pre +++ rng) = [pre +++ rng]).
  { apply findall_whole; [subst pre; discriminate|reflexivity|exact Hp]. }
  (* the attribute *)
  assert (Hattm : py_index (Re.findall Normalizer.pAtt (pre +++ rng)) 0 =
                  ret (pre +++ "=")).
  { apply findall_head with (r := String " " (lo +++ String hyphen hy +++ hi +++ ")")).
    subst pre. rewrite !append_assoc.
    change Normalizer.pAtt with
      (Re.Item (Re.lit (Normalizer.ch "(")) Re.One ::
       Re.Item (Re.not_lit Normalizer.eq_sign) Re.Star ::
       [Re.Item (Re.lit Normalizer.eq_sign) Re.One]).
    cbn [append]. rewrite match_here_one, match_here_star.
    replace (Re.lit (Normalizer.ch "(") "("%char) with true by reflexivity.
    rewrite (star_greedy _ _ att rng "="
               (String " " (lo +++ String hyphen hy +++ hi +++ ")")) Hatt Hnext);
      reflexivity. }
  (* the range *)
  assert (Hrng : py_index (Re.findall Normalizer.pRange (pre +++ rng)) 0 = ret rng).
  { rewrite findall_skip_prefix by (apply not_eq_prefix_fails; exact Hpre).
    apply findall_head with (r := ""). exact Hrange. }
  (* the lower bound *)
  assert (Hlow : py_index (Re.findall Normalizer.pLrng rng) 0 = ret lo).
  { subst rng. cbn [append].
    rewrite !findall_step_none by reflexivity.
    apply findall_head with (r := String hyphen (hy +++ hi +++ ")")).
    pose proof (match_number lo [] (String hyphen (hy +++ hi +++ ")")) ""
                  (String hyphen (hy +++ hi +++ ")")) Hlo (hyphen_not_number _) eq_refl) as Hm.
    rewrite append_nil_r in Hm. exact Hm. }
  (* the upper bound *)
  assert (Hup : py_index (Re.findall Normalizer.pRrng rng) 0 = ret (String hyphen (hi +++ ")"))).
  { assert (E : rng = ("= " +++ lo +++ hy) +++ String hyphen (hi +++ ")")).
    { subst rng. rewrite (hyphens_snoc hy Hhy). rewrite !append_assoc. reflexivity. }
    rewrite E. rewrite findall_skip_prefix.
    - apply findall_head with (r := "").
      assert (Hneg : in_lang Normalizer.number (String hyphen hi)).
      { exists (String hyphen ""), hi. cbn. auto. }
      pose proof (match_number (String hyphen hi) [Re.Item (Re.lit close_paren) Re.One]
                    ")" ")" "" Hneg paren_not_number eq_refl) as Hm.
      exact Hm.
    - intros a b Eab Hb. apply no_bound_before_last_hyphen; [exact Hb| |exact Hhi].
      assert (Hall3 : all_chars (Re.not_lit close_paren) ("= " +++ lo +++ hy) = true).
      { assert (Hlop : all_chars (Re.not_lit close_paren) lo = true).
        { destruct (number_shape lo Hlo) as (u & Hu & [->| ->]);
            cbn [all_chars]; rewrite (digit_or_dot_not_paren u (unsigned_chars u Hu));
            reflexivity. }
        assert (Hhyp : all_chars (Re.not_lit close_paren) hy = true).
        { apply (all_chars_weaken (Re.lit hyphen)); [|exact Hhy].
          intros c Hc. unfold Re.lit in Hc. apply Ascii.eqb_eq in Hc. subst c. reflexivity. }
        cbn [append all_chars]. rewrite all_chars_app, Hlop, Hhyp. reflexivity. }
      rewrite Eab, all_chars_app in Hall3. apply andb_true_iff in Hall3. apply Hall3. }
  unfold Normalizer.split_ranges. rewrite Hall. cbn [for_each].
  unfold Normalizer.split_match.
  rewrite Hattm, bind_ret, Hrng, bind_ret, Hlow, bind_ret, Hup, !bind_ret.
  rewrite drop_last_snoc.
  rewrite (replace_after_prefix rng _ Normalizer.eq_sign
             (String " " (lo +++ String hyphen hy +++ hi +++ ")")) eq_refl pre Hpre).
  rewrite replace_whole by (subst pre; discriminate).
  subst pre. cbn [append]. rewrite ?append_assoc. reflexivity.
Qed.

Lemma range_condition_split_witness :
  Normalizer.split_ranges "(X0= 1.5--20)" = ret "(X0>= 1.5) AND (X0<= -20)".
Proof.
  apply (range_condition_split "X0" "1.5" "-" "20").
  - reflexivity.
  - exists "", "1.5". repeat split; [cbn; lia|].
    exists "1", ".5". repeat split; [cbn; lia|].
    exists ".", "5". repeat split; [cbn; lia|].
    exists "5", "". repeat split.
  - reflexivity.
  - exists "20", "". repeat split; [cbn; lia|].
    exists "", "". repeat split; [cbn; lia|].
    exists "", "". repeat split.
Defined.

(* ===================================================================== *)
(** ** A class column lost in conditioning *)
(* ===================================================================== *)

Lemma names_after_cleaning (df : DataFrame) (cp : Q) :
  exists out df',
    Lib.clean_dataframe df cp = (out, Ok df') /\
    names df' = names (dropna_columns df (Lib.threshold cp (Lib.nrows df))).
Proof.
  destruct (clean_dataframe_steps df cp) as [out1 Hsteps].
  destruct (clear_numeric_nan_result (dropna_columns df (Lib.threshold cp (Lib.nrows df))))
    as [out2 H2].
  rewrite H2 in Hsteps. cbn [fst snd] in Hsteps. cbv zeta in Hsteps.
  eexists. eexists. split; [exact Hsteps|]. apply names_after_loop.
Qed.



(* ===================================================================== *)
(** ** [object_attrs_to_cat] *)
(* ===================================================================== *)

Lemma name_as_category (cls c : column) : name (as_category cls c) = name c.
Proof. unfold as_category. destruct (String.eqb _ _); reflexivity. Qed.

Lemma map_unchanged {A} (f : A -> A) (l : list A) :
  (forall x, In x l -> f x = x) -> map f l = l.
Proof.
  induction l as [|a l IH]; intro H; [reflexivity|].
  cbn [map]. rewrite H by (left; reflexivity). rewrite IH; [reflexivity|].
  intros x Hx. apply H. right. exact Hx.
Qed.

(** Assigning to the column [c] of a frame with distinct labels. *)
Lemma set_column_at (idx : list nat) (pre suf : list column) (c : column) dt values :
  NoDup (map name (pre ++ c :: suf)) ->
  set_column (Frame idx (pre ++ c :: suf)) (name c) dt values =
  Frame idx (pre ++ Column (name c) dt values :: suf).
Proof.
  intro Hnd. unfold set_column. cbn [index columns]. f_equal.
  rewrite map_app. cbn [map]. rewrite String.eqb_refl.
  rewrite map_app in Hnd. cbn [map] in Hnd.
  apply NoDup_remove_2 in Hnd.
  rewrite !map_unchanged; [reflexivity| |].
  - intros x Hx. destruct (String.eqb (name x) (name c)) eqn:E; [|reflexivity].
    apply String.eqb_eq in E. exfalso. apply Hnd. apply in_or_app. right.
    rewrite <- E. apply in_map, Hx.
  - intros x Hx. destruct (String.eqb (name x) (name c)) eqn:E; [|reflexivity].
    apply String.eqb_eq in E. exfalso. apply Hnd. apply in_or_app. left.
    rewrite <- E. apply in_map, Hx.
Qed.

Lemma find_column_app (pre suf : list column) (label : string) :
  find_column (pre ++ suf) label =
  match find_column pre label with
  | Some c => Some c
  | None => find_column suf label
  end.
Proof.
  induction pre as [|x pre IH]; [reflexivity|].
  cbn [app find_column]. destruct (String.eqb (name x) label); [reflexivity|exact IH].
Qed.

(** The loop, after the columns [pre] have been visited. *)
Lemma object_attrs_loop (cls : column) (idx : list nat) :
  forall (suf pre : list column),
    NoDup (map name (pre ++ suf)) ->
    (exists c', find_column (pre ++ suf) "class" = Some c' /\ cells c' = cells cls) ->
    for_each (map name suf) Lib.categorical_column (Frame idx (pre ++ suf)) =
    ret (Frame idx (pre ++ map (as_category cls) suf)).
Proof.
  induction suf as [|c suf IH]; intros pre Hnd Hcls; [reflexivity|].
  cbn [map for_each].
  assert (Hstep : Lib.categorical_column (name c) (Frame idx (pre ++ c :: suf)) =
                  ret (Frame idx (pre ++ as_category cls c :: suf))).
  { unfold Lib.categorical_column, get_column. cbn [columns].
    rewrite (find_column_nodup (pre ++ c :: suf) c Hnd)
      by (apply in_or_app; right; left; reflexivity).
    rewrite bind_ret. unfold as_category.
    destruct (String.eqb (dtype c) "object"); [|reflexivity].
    destruct Hcls as (c' & Hfind & Hcells). rewrite Hfind, bind_ret.
    rewrite set_column_at by exact Hnd. rewrite Hcells. reflexivity. }
  rewrite Hstep, bind_ret.
  change (pre ++ as_category cls c :: suf) with (pre ++ [as_category cls c] ++ suf).
  change (pre ++ as_category cls c :: map (as_category cls) suf)
    with (pre ++ [as_category cls c] ++ map (as_category cls) suf).
  rewrite !app_assoc. apply IH.
  - rewrite <- app_assoc. cbn [app]. rewrite map_app in *. cbn [map] in *.
    rewrite name_as_category. exact Hnd.
  - rewrite <- app_assoc. cbn [app].
    destruct Hcls as (c' & Hfind & Hcells).
    rewrite find_column_app in *. destruct (find_column pre "class") as [c0|].
    + exists c0. split; [reflexivity|]. inversion Hfind; subst. exact Hcells.
    + cbn [find_column] in *. rewrite name_as_category.
      destruct (String.eqb (name c) "class").
      * exists (as_category cls c). split; [reflexivity|].
        inversion Hfind; subst c'. unfold as_category.
        destruct (String.eqb (dtype c) "object"); [reflexivity|exact Hcells].
      * exists c'. auto.
Qed.

(** [object_attrs_to_cat] gives every [object] column the values of the
    column named [class], typed as a category, and leaves the other
    columns and the rows as they are. *)
Theorem object_columns_take_class_values (df : DataFrame) (cls : column)
  (Hnames : NoDup (names df))
  (Hcls : find_column (columns df) "class" = Some cls) :
  Lib.object_attrs_to_cat df =
  ret (Frame (index df) (map (as_category cls) (columns df))).
Proof.
  unfold Lib.object_attrs_to_cat, names. destruct df as [idx cols]. cbn [index columns] in *.
  apply (object_attrs_loop cls idx cols []); [exact Hnames|].
  exists cls. auto.
Qed.

Lemma object_columns_take_class_values_witness :
  Lib.object_attrs_to_cat labelled_table =
  ret (Frame [0; 1]%nat
         [ Column "job" "category" [Some (Str "paid"); Some (Str "NO_paid")];
           Column "age" "float64" [Some (Num "31.0"); Some (Num "45.0")];
           Column "class" "category" [Some (Str "paid"); Some (Str "NO_paid")] ]).
Proof.
  apply (object_columns_take_class_values labelled_table
           (Column "class" "object" [Some (Str "paid"); Some (Str "NO_paid")])).
  - frame_shape.
  - reflexivity.
Defined.

Lemma object_attrs_loop_raises (idx : list nat) :
  forall (suf pre : list column),
    NoDup (map name (pre ++ suf)) ->
    find_column (pre ++ suf) "class" = None ->
    existsb (fun c => String.eqb (dtype c) "object") suf = true ->
    for_each (map name suf) Lib.categorical_column (Frame idx (pre ++ suf)) =
    raise (KeyError "class").
Proof.
  induction suf as [|c suf IH]; intros pre Hnd Hcls Hobj; [discriminate Hobj|].
  cbn [map for_each]. cbn [existsb] in Hobj.
  unfold Lib.categorical_column at 1. unfold get_column. cbn [columns].
  rewrite (find_column_nodup (pre ++ c :: suf) c Hnd)
    by (apply in_or_app; right; left; reflexivity).
  rewrite bind_ret.
  destruct (String.eqb (dtype c) "object").
  - rewrite Hcls. reflexivity.
  - rewrite bind_ret. cbn [orb] in Hobj.
    change (pre ++ c :: suf) with (pre ++ [c] ++ suf) in *.
    rewrite app_assoc in *. apply IH; assumption.
Qed.

(** Without a column named [class], the first [object] column stops
    [object_attrs_to_cat] with [KeyError]. *)
Theorem object_attrs_need_class_column (df : DataFrame)
  (Hnames : NoDup (names df))
  (Hcls : find_column (columns df) "class" = None)
  (Hobj : existsb (fun c => String.eqb (dtype c) "object") (columns df) = true) :
  Lib.object_attrs_to_cat df = raise (KeyError "class").
Proof.
  unfold Lib.object_attrs_to_cat, names. destruct df as [idx cols]. cbn [index columns] in *.
  apply (object_attrs_loop_raises idx cols []); assumption.
Qed.

Lemma object_attrs_need_class_column_witness :
  Lib.object_attrs_to_cat gappy = raise (KeyError "class").
Proof. apply (object_attrs_need_class_column gappy); [frame_shape|reflexivity|reflexivity]. Defined.

(* ===================================================================== *)
(** ** The rule-list script after the learner *)
(* ===================================================================== *)

Lemma map_py_returns {A B} (f : A -> Py B) :
  (forall x, exists y, f x = ret y) ->
  forall l, exists ys, map_py f l = ret ys /\ List.length ys = List.length l.
Proof.
  intros Hf. induction l as [|x l IH].
  - exists []. split; reflexivity.
  - destruct (Hf x) as [y Hy]. destruct IH as (ys & Hys & Hlen).
    exists (y :: ys). cbn [map_py]. rewrite Hy, bind_ret, Hys, !bind_ret.
    split; [reflexivity|]. cbn [List.length]. rewrite Hlen. reflexivity.
Qed.

Lemma for_each_print_noend (g : string -> string) (l : list string) :
  for_each l (fun x (_ : unit) => print_noend (g x)) tt = (map g l, Ok tt).
Proof.
  induction l as [|x l IH]; [reflexivity|].
  cbn [for_each map]. unfold print_noend at 1. rewrite bind_ok, IH. reflexivity.
Qed.

Lemma print_model_output (rules : list string) (neg pos : string) :
  Wittgenstein.print_model rules [Some (Str neg); Some (Str pos)] =
  ((("extracted_rule_based_model: [" +++ newline) +++ newline) ::
   map Normalizer.adjust rules ++
   [(" => " +++ pos +++ newline +++ "() => " +++ neg +++ newline +++ newline +++ "]") +++ newline],
   Ok tt).
Proof.
  unfold Wittgenstein.print_model.
  rewrite for_each_print_noend, py_index_1, py_index_0.
  unfold print. rewrite !bind_ok. cbn [as_str]. rewrite !bind_ret.
  cbn [fst snd app]. reflexivity.
Qed.


